(** * The signalling hub and the relay-credential issuer

    A model of the Go packages [ws] (rooms, sessions, event handlers, bounded
    delivery) and [turn] (relay credentials) together with the properties the
    design document states about them.

    Conventions.  A Go map is a [gmap]; a pointer stored in a map is
    represented by the key under which the map holds it; a handler that can
    dereference a nil pointer runs in a monad whose failure is the Go panic.
    Every byte is a number below 256, a [[]byte] is a [list N]. *)

From stdpp Require Import gmap strings list fin_maps pretty sorting.
From Stdlib Require Import ZArith Lia Ascii.

Local Open Scope N_scope.

(** [xid.ID] is twelve raw bytes, read here as one number. *)
Abbreviation ID := N (only parsing).
(** A Go channel of outgoing messages is named by a number. *)
Abbreviation Chan := N (only parsing).
(** [net.IP] is a byte slice; [None] is the nil slice. *)
Abbreviation IP := (option (list N)) (only parsing).

(** ** Hashing and encoding used by the external issuer

    [crypto/sha1], [crypto/hmac] and [encoding/base64] of the Go standard
    library, following FIPS 180-4, RFC 2104 and RFC 4648. *)
Module crypto.

Definition mask32 : N := 0xFFFFFFFF.
Definition add32 (a b : N) : N := N.land (a + b) mask32.
Definition not32 (a : N) : N := N.lxor a mask32.
Definition rotl32 (n a : N) : N :=
  N.land (N.lor (N.shiftl a n) (N.shiftr a (32 - n))) mask32.

Definition bytes_of_string (s : string) : list N :=
  Ascii.N_of_ascii <$> String.list_ascii_of_string s.

(** Big-endian encoding of [x] on [n] bytes. *)
Fixpoint be_bytes (n : nat) (x : N) : list N :=
  match n with
  | O => []
  | S n' => N.land (N.shiftr x (8 * N.of_nat n')) 0xFF :: be_bytes n' x
  end.

Fixpoint be_words (bs : list N) : list N :=
  match bs with
  | b0 :: b1 :: b2 :: b3 :: rest =>
      (N.shiftl b0 24 + N.shiftl b1 16 + N.shiftl b2 8 + b3) :: be_words rest
  | _ => []
  end.

Definition sha1_pad (msg : list N) : list N :=
  let len := length msg in
  let zeros := ((64 - (len + 9) mod 64) mod 64)%nat in
  msg ++ [0x80] ++ replicate zeros 0 ++ be_bytes 8 (8 * N.of_nat len).

(** The message schedule, most recent word first. *)
Fixpoint sha1_schedule (n : nat) (rev_w : list N) : list N :=
  match n with
  | O => rev_w
  | S n' =>
      let w := rotl32 1 (N.lxor (N.lxor (nth 2 rev_w 0) (nth 7 rev_w 0))
                                (N.lxor (nth 13 rev_w 0) (nth 15 rev_w 0))) in
      sha1_schedule n' (w :: rev_w)
  end.

Definition sha1_f (t : nat) (b c d : N) : N :=
  if (t <? 20)%nat then N.lor (N.land b c) (N.land (not32 b) d)
  else if (t <? 40)%nat then N.lxor (N.lxor b c) d
  else if (t <? 60)%nat then
    N.lor (N.lor (N.land b c) (N.land b d)) (N.land c d)
  else N.lxor (N.lxor b c) d.

Definition sha1_k (t : nat) : N :=
  if (t <? 20)%nat then 0x5A827999
  else if (t <? 40)%nat then 0x6ED9EBA1
  else if (t <? 60)%nat then 0x8F1BBCDC
  else 0xCA62C1D6.

Record sha1_state := Sha1State { h0 : N; h1 : N; h2 : N; h3 : N; h4 : N }.

Definition sha1_init : sha1_state :=
  Sha1State 0x67452301 0xEFCDAB89 0x98BADCFE 0x10325476 0xC3D2E1F0.

Fixpoint sha1_rounds (t : nat) (ws : list N) (st : sha1_state) : sha1_state :=
  match ws with
  | [] => st
  | w :: ws' =>
      let '(Sha1State a b c d e) := st in
      let temp :=
        add32 (add32 (add32 (add32 (rotl32 5 a) (sha1_f t b c d)) e) (sha1_k t)) w in
      sha1_rounds (S t) ws' (Sha1State temp a (rotl32 30 b) c d)
  end.

Definition sha1_block (st : sha1_state) (block : list N) : sha1_state :=
  let ws := rev (sha1_schedule 64 (rev (be_words block))) in
  let '(Sha1State a b c d e) := sha1_rounds 0 ws st in
  Sha1State (add32 (h0 st) a) (add32 (h1 st) b) (add32 (h2 st) c)
            (add32 (h3 st) d) (add32 (h4 st) e).

Fixpoint sha1_blocks (fuel : nat) (st : sha1_state) (bs : list N) : sha1_state :=
  match fuel with
  | O => st
  | S fuel' =>
      match bs with
      | [] => st
      | _ => sha1_blocks fuel' (sha1_block st (take 64 bs)) (drop 64 bs)
      end
  end.

Definition sha1 (msg : list N) : list N :=
  let padded := sha1_pad msg in
  let '(Sha1State a b c d e) := sha1_blocks (length padded) sha1_init padded in
  be_bytes 4 a ++ be_bytes 4 b ++ be_bytes 4 c ++ be_bytes 4 d ++ be_bytes 4 e.

(** [hmac.New(sha1.New, key)], [Write(msg)], [Sum(nil)]. *)
Definition hmac_sha1 (key msg : list N) : list N :=
  let key0 := if (64 <? length key)%nat then sha1 key else key in
  let key1 := key0 ++ replicate (64 - length key0)%nat 0 in
  let ipad := (fun b => N.lxor b 0x36) <$> key1 in
  let opad := (fun b => N.lxor b 0x5C) <$> key1 in
  sha1 (opad ++ sha1 (ipad ++ msg)).

Definition base64_char (v : N) : ascii :=
  if v <? 26 then Ascii.ascii_of_N (65 + v)
  else if v <? 52 then Ascii.ascii_of_N (97 + (v - 26))
  else if v <? 62 then Ascii.ascii_of_N (48 + (v - 52))
  else if v =? 62 then "+"%char
  else "/"%char.

(** [base64.StdEncoding.EncodeToString]. *)
Fixpoint base64_StdEncoding (bs : list N) : string :=
  match bs with
  | [] => ""
  | [b0] =>
      String (base64_char (N.shiftr b0 2))
        (String (base64_char (N.shiftl (N.land b0 3) 4)) "==")
  | [b0; b1] =>
      String (base64_char (N.shiftr b0 2))
        (String (base64_char (N.lor (N.shiftl (N.land b0 3) 4) (N.shiftr b1 4)))
           (String (base64_char (N.shiftl (N.land b1 15) 2)) "="))
  | b0 :: b1 :: b2 :: rest =>
      String (base64_char (N.shiftr b0 2))
        (String (base64_char (N.lor (N.shiftl (N.land b0 3) 4) (N.shiftr b1 4)))
           (String (base64_char (N.lor (N.shiftl (N.land b1 15) 2) (N.shiftr b2 6)))
              (String (base64_char (N.land b2 63)) (base64_StdEncoding rest))))
  end.

End crypto.

(** ** What the handlers receive from outside the program text

    The Go runtime and the libraries the packages call decide a few things
    the source leaves open.  They are collected in one interface; every
    result below holds for all its implementations.  The draws are indexed by
    a counter ([tick]) that the model advances at each draw, so that no two
    draws need agree. *)
Class Runtime := {
  (** the order in which a [for ... range] visits a map *)
  range_order : N → ∀ V : Type, gmap N V → list (N * V);
  range_order_perm : ∀ n V (m : gmap N V), range_order n V m ≡ₚ map_to_list m;
  (** [xid.New()], which never returns the same id twice *)
  xid_New : N → N;
  xid_New_inj : ∀ n m, xid_New n = xid_New m → n = m;
  (** [util.NewUserName(r)], by the state of the generator [r] *)
  NewUserName : N → string;
  (** [util.RandString(n)] *)
  RandString : N → nat → string;
  (** [turn.GenerateAuthKey(username, realm, password)] of pion/turn *)
  GenerateAuthKey : string → string → string → list N;
  (** [net.IP.String()] *)
  IP_String : list N → string;
  (** when, counted from the start of a [select], the reader of a channel
      takes a message offered to it ([None]: never) *)
  chan_ready : N → N → option N;
  (** the choice a [select] makes between two cases ready at the same instant *)
  select_coin : N → bool;
}.

(** [time.Duration] counts nanoseconds. *)
Definition Second : N := 1000000000.
Definition Hour : N := 3600 * Second.

(** [select] over one channel operation and one timer.  The channel
    operation can proceed [ready] after the select starts, the timer fires
    [timer] after it.  The result tells whether the channel case ran, and
    when the select returned. *)
Definition select_chan_or_timer (ready : option N) (timer : N) (coin : bool)
  : bool * N :=
  match ready with
  | Some t =>
      if t <? timer then (true, t)
      else if t =? timer then (coin, timer)
      else (false, timer)
  | None => (false, timer)
  end.

(** [xid.ID.String()]: base32 ("0-9a-v") of the twelve bytes, twenty
    characters, the last one carrying the lowest bit. *)
Definition xid_digit (v : N) : ascii :=
  if v <? 10 then Ascii.ascii_of_N (48 + v) else Ascii.ascii_of_N (97 + (v - 10)).

Fixpoint xid_encode (n : nat) (x : N) (acc : string) : string :=
  match n with
  | O => acc
  | S n' => xid_encode n' (N.shiftr x 5) (String (xid_digit (N.land x 31)) acc)
  end.

Definition xid_String (id : ID) : string := xid_encode 20 (N.shiftl id 4) "".

(** Go's [<] on strings compares bytes. *)
Definition string_lt (a b : string) : bool := String.ltb a b.

(** ** Package [ws/outgoing] *)
Module outgoing.

(** Modelled from the spec: the messages of package [ws/outgoing], which is
    not among the sources; the fields are those the handlers of package [ws]
    fill in and the wire description lists. *)
Record ICEServer := {
  URLs : list string;
  Credential : string;
  Username : string;
}.

Record P2PMessage := { SID : ID; Value : string }.

Record User := {
  User_ID : ID;
  Name : string;
  Streaming : bool;
  You : bool;
  Owner : bool;
}.

Inductive Message :=
| HostSession (Peer : ID) (id : ID) (ICEServers : list ICEServer)
| ClientSession (Peer : ID) (id : ID) (ICEServers : list ICEServer)
| HostOffer (m : P2PMessage)
| HostICE (m : P2PMessage)
| ClientAnswer (m : P2PMessage)
| ClientICE (m : P2PMessage)
| EndShare (id : ID)
| Room (id : string) (Users : list User)
| CloseWriter (Code : Z) (Reason : string).

End outgoing.

(** ** Package [config] *)
Module config.

(** Modelled from the spec: the part of the configuration snapshot the core
    reads (package [config] is not among the sources): the relay port, the
    provider of the public IPv4/IPv6 addresses, which can fail, and the
    shared secret of an external relay.  [AuthModeTurn] names the relay
    mode. *)
Inductive Addresses :=
| GetOk (v4 v6 : IP)
| GetErr (err : string).

Record Config := {
  TurnPort : string;
  TurnIPProvider : N → Addresses;
  TurnExternalSecret : string;
}.

Definition AuthModeTurn : string := "turn".

End config.

(** ** Package [turn]: the relay-credential issuer *)
Module turn.

(** The address a TURN request comes from ([net.Addr]). *)
Record Addr := { Addr_IP : IP; Addr_Port : N }.

Record Entry := {
  addr : IP;
  password : list N;
}.

Record InternalServer := { lookup : gmap string Entry }.

Record ExternalServer := {
  secret : list N;
  ttl : Z;
}.

Definition Realm : string := "screego".

(** The two implementations of the interface [Server]. *)
Inductive Server :=
| Internal (a : InternalServer)
| External (a : ExternalServer).

(** [time.Time.Unix()] of an instant given in nanoseconds. *)
Definition Unix (t : Z) : Z := (t / Z.of_N Second)%Z.

Definition newExternalServer (conf : config.Config) : ExternalServer :=
  {| secret := crypto.bytes_of_string (config.TurnExternalSecret conf);
     ttl := Z.of_N (24 * Hour) |}.

Section methods.
Context `{Runtime}.

Definition InternalServer_allow (a : InternalServer)
    (username password : string) (addr : IP) : InternalServer :=
  {| lookup :=
       <[username := {| addr := addr;
                        password := GenerateAuthKey username Realm password |}]>
         (lookup a) |}.

Definition InternalServer_Disallow (a : InternalServer) (username : string)
  : InternalServer :=
  {| lookup := delete username (lookup a) |}.

Definition ExternalServer_Disallow (a : ExternalServer) (username : string)
  : ExternalServer := a.

(** The callback handed to the relay.  [([], false)] stands for
    [(nil, false)]. *)
Definition InternalServer_authenticate (a : InternalServer)
    (username realm : string) (addr : Addr) : list N * bool :=
  match lookup a !! username with
  | None => ([], false)
  | Some entry => (password entry, true)
  end.

(** [tick] indexes the draw of [util.RandString]. *)
Definition InternalServer_Credentials (a : InternalServer)
    (id : string) (addr : IP) (tick : N)
  : (string * string) * InternalServer :=
  let password := RandString tick 20 in
  ((id, password), InternalServer_allow a id password addr).

(** [now] is the reading of [time.Now()], in nanoseconds. *)
Definition ExternalServer_Credentials (a : ExternalServer)
    (id : string) (addr : IP) (now : Z) : string * string :=
  let username := pretty (Unix (now + ttl a)) +:+ ":" +:+ id in
  let mac := crypto.hmac_sha1 (secret a) (crypto.bytes_of_string username) in
  let password := crypto.base64_StdEncoding mac in
  (username, password).

(** Calls through the interface. *)
Definition Credentials (s : Server) (id : string) (addr : IP)
    (now : Z) (tick : N) : (string * string) * Server :=
  match s with
  | Internal a =>
      let '(cred, a') := InternalServer_Credentials a id addr tick in
      (cred, Internal a')
  | External a => (ExternalServer_Credentials a id addr now, External a)
  end.

Definition Disallow (s : Server) (username : string) : Server :=
  match s with
  | Internal a => Internal (InternalServer_Disallow a username)
  | External a => External (ExternalServer_Disallow a username)
  end.

(** What a relay operator does with an external credential: recompute the
    signature over the username with the shared secret and compare. *)
Definition external_signature (secret : list N) (username : string) : string :=
  crypto.base64_StdEncoding
    (crypto.hmac_sha1 secret (crypto.bytes_of_string username)).

End methods.

(** *** The relay address generator *)

(** [net.IP.To4]: the four-byte form of an IPv4 address, also when it is
    written on sixteen bytes behind the prefix [::ffff]; nil for any other
    slice. *)
Definition IP_To4 (ip : IP) : IP :=
  match ip with
  | None => None
  | Some bs =>
      if bool_decide (length bs = 4%nat) then Some bs
      else if bool_decide (length bs = 16%nat)
              && forallb (N.eqb 0) (take 10 bs)
              && bool_decide (bs !! 10%nat = Some 0xff)
              && bool_decide (bs !! 11%nat = Some 0xff)
      then Some (take 4 (drop 12 bs))
      else None
  end.

Record UDPAddr := {
  UDPAddr_IP : IP;
  UDPAddr_Port : Z;
  UDPAddr_Zone : string;
}.

(** A value of the interface [net.Addr]: nil, a pointer to a [net.UDPAddr],
    or an address of another type. *)
Inductive net_Addr :=
| Addr_nil
| Addr_UDP (a : UDPAddr)
| Addr_other (network text : string).

(** [Generator.AllocatePacketConn].  [base] is what the embedded generator
    returns for the same arguments (the connection, named by a number, the
    address and the error), [get] the answer of the address provider.  The
    result [None] is the panic of the type assertion of the address to a
    [net.UDPAddr]. *)
Definition Generator_AllocatePacketConn
    (base : N * net_Addr * option string) (get : config.Addresses)
  : option (N * net_Addr * option string) :=
  let '(conn, addr, err) := base in
  match err with
  | Some _ => Some (conn, addr, err)
  | None =>
      match addr with
      | Addr_UDP relayAddr =>
          match get with
          | config.GetErr e => Some (conn, addr, Some e)
          | config.GetOk v4 v6 =>
              let ip :=
                if bool_decide (v6 = None)
                   || (bool_decide (IP_To4 (UDPAddr_IP relayAddr) ≠ None)
                       && bool_decide (v4 ≠ None))
                then v4 else v6 in
              Some (conn,
                    Addr_UDP {| UDPAddr_IP := ip;
                                UDPAddr_Port := UDPAddr_Port relayAddr;
                                UDPAddr_Zone := UDPAddr_Zone relayAddr |},
                    None)
          end
      | _ => None
      end
  end.

(** *** The permission handler of [newInternalServer]

    The closure over [conf.TurnDenyPeersParsed]; [Contains] is
    [net.IPNet.Contains]. *)
Section permission_handler.
Variable IPNet : Type.
Variable Contains : IPNet → IP → bool.

Fixpoint permissions (TurnDenyPeersParsed : list IPNet)
    (clientAddr : net_Addr) (peerIP : IP) : bool :=
  match TurnDenyPeersParsed with
  | [] => true
  | cidr :: rest =>
      if Contains cidr peerIP then false
      else permissions rest clientAddr peerIP
  end.

End permission_handler.

End turn.

(** ** Package [config/mode] *)
Module mode.

Definition Mode := string.
Definition Dev : Mode := "dev".
Definition Prod : Mode := "prod".

(** [Get(s ...string)] *)
Definition Get (s : list string) : Mode :=
  match s with
  | [] => Dev
  | s0 :: _ =>
      if bool_decide (s0 = Dev) then Dev
      else if bool_decide (s0 = Prod) then Prod
      else Dev
  end.

End mode.

(** ** Package [cmd]: the command [serve] *)
Module cmd.

(** The levels of zerolog. *)
Inductive Level :=
| TraceLevel | DebugLevel | InfoLevel | WarnLevel | ErrorLevel
| FatalLevel | PanicLevel | NoLevel | Disabled.

Global Instance Level_eq_dec : EqDecision Level.
Proof. solve_decision. Defined.

(** An entry of the list [config.Get] returns beside the configuration. *)
Record FutureLog := {
  FutureLog_Level : Level;
  FutureLog_Msg : string;
}.

(** How the action ends: [os.Exit(code)], or it returns. *)
Inductive Outcome :=
| Exit (code : Z)
| Return (err : option string).

(** The action of [serveCmd].  [errs] is the list [config.Get] returned,
    [get] the answer of [conf.TurnIPProvider.Get()]; the result lists the
    calls [log.WithLevel(level).Msg(msg)], which log and go on at every
    level, whether the provider was asked, and how the action ended. *)
Definition serve_Action (errs : list FutureLog) (get : config.Addresses)
  : list FutureLog * bool * Outcome :=
  let '(logged, exit) :=
    foldl (fun '(logged, exit) err =>
             (logged ++ [err],
              exit || bool_decide (FutureLog_Level err = FatalLevel)
                   || bool_decide (FutureLog_Level err = PanicLevel)))
          ([], false) errs in
  if exit then (logged, false, Exit 1)
  else
    match get with
    | config.GetErr _ => (logged, true, Exit 1)
    | config.GetOk _ _ => (logged, true, Return None)
    end.

End cmd.

(** ** Package [ws]: rooms, sessions and the event handlers *)
Module ws.

Definition ConnectionMode := string.
Definition ConnectionLocal : ConnectionMode := "local".
Definition ConnectionSTUN : ConnectionMode := "stun".
Definition ConnectionTURN : ConnectionMode := config.AuthModeTurn.

Definition CloseOwnerLeft : string := "Owner Left".
Definition CloseDone : string := "Read End".
Definition CloseNormalClosure : Z := 1000.

Record RoomSession := {
  Host : ID;
  Client : ID;
}.

Record User := {
  User_ID : ID;
  User_Addr : IP;
  Name : string;
  Streaming : bool;
  Owner : bool;
  _write : Chan;
}.

Record Room := {
  Room_ID : string;
  CloseOnOwnerLeave : bool;
  Mode : ConnectionMode;
  Users : gmap N User;
  Sessions : gmap N RoomSession;
}.

Record ClientInfo := {
  ClientInfo_ID : ID;
  Authenticated : bool;
  AuthenticatedUser : string;
  Write : Chan;
  ClientInfo_Addr : IP;
}.

(** The prometheus counters of the package. *)
Record Metrics := {
  sessionCreatedTotal : N;
  sessionClosedTotal : N;
  usersJoinedTotal : N;
  usersLeftTotal : N;
  roomsClosedTotal : N;
}.

(** One call of [writeTimeout]: the channel, the message, and whether the
    channel took it ([true]) or the two seconds passed first, in which case
    the message is logged at warning level and discarded ([false]). *)
Record Delivery := {
  to : Chan;
  msg : outgoing.Message;
  accepted : bool;
}.

(** The struct [Rooms], followed by the state of the process its handlers
    reach: the counter of draws from the runtime, the clock (nanoseconds),
    the calls of [writeTimeout] in program order, and the counters. *)
Record Rooms := {
  turnServer : turn.Server;
  Rooms_Rooms : gmap string Room;
  connected : gmap N string;
  conf : config.Config;
  r : N;
  tick : N;
  now : Z;
  sent : list Delivery;
  metrics : Metrics;
}.

Inductive result (A : Type) :=
| Ok (a : A)
| Err (e : string).
Arguments Ok {A} a.
Arguments Err {A} e.

(** *** Field updates *)

Definition set_Users (f : gmap N User → gmap N User) (x : Room) : Room :=
  {| Room_ID := Room_ID x; CloseOnOwnerLeave := CloseOnOwnerLeave x;
     Mode := Mode x; Users := f (Users x); Sessions := Sessions x |}.

Definition set_Sessions (f : gmap N RoomSession → gmap N RoomSession)
    (x : Room) : Room :=
  {| Room_ID := Room_ID x; CloseOnOwnerLeave := CloseOnOwnerLeave x;
     Mode := Mode x; Users := Users x; Sessions := f (Sessions x) |}.

Definition set_Streaming (b : bool) (u : User) : User :=
  {| User_ID := User_ID u; User_Addr := User_Addr u; Name := Name u;
     Streaming := b; Owner := Owner u; _write := _write u |}.

Definition set_turnServer (f : turn.Server → turn.Server) (s : Rooms) : Rooms :=
  {| turnServer := f (turnServer s); Rooms_Rooms := Rooms_Rooms s;
     connected := connected s; conf := conf s; r := r s; tick := tick s;
     now := now s; sent := sent s; metrics := metrics s |}.

Definition set_Rooms (f : gmap string Room → gmap string Room) (s : Rooms)
  : Rooms :=
  {| turnServer := turnServer s; Rooms_Rooms := f (Rooms_Rooms s);
     connected := connected s; conf := conf s; r := r s; tick := tick s;
     now := now s; sent := sent s; metrics := metrics s |}.

Definition set_connected (f : gmap N string → gmap N string) (s : Rooms)
  : Rooms :=
  {| turnServer := turnServer s; Rooms_Rooms := Rooms_Rooms s;
     connected := f (connected s); conf := conf s; r := r s; tick := tick s;
     now := now s; sent := sent s; metrics := metrics s |}.

Definition set_r (f : N → N) (s : Rooms) : Rooms :=
  {| turnServer := turnServer s; Rooms_Rooms := Rooms_Rooms s;
     connected := connected s; conf := conf s; r := f (r s); tick := tick s;
     now := now s; sent := sent s; metrics := metrics s |}.

Definition set_tick (f : N → N) (s : Rooms) : Rooms :=
  {| turnServer := turnServer s; Rooms_Rooms := Rooms_Rooms s;
     connected := connected s; conf := conf s; r := r s; tick := f (tick s);
     now := now s; sent := sent s; metrics := metrics s |}.

Definition set_now (f : Z → Z) (s : Rooms) : Rooms :=
  {| turnServer := turnServer s; Rooms_Rooms := Rooms_Rooms s;
     connected := connected s; conf := conf s; r := r s; tick := tick s;
     now := f (now s); sent := sent s; metrics := metrics s |}.

Definition set_sent (f : list Delivery → list Delivery) (s : Rooms) : Rooms :=
  {| turnServer := turnServer s; Rooms_Rooms := Rooms_Rooms s;
     connected := connected s; conf := conf s; r := r s; tick := tick s;
     now := now s; sent := f (sent s); metrics := metrics s |}.

Definition set_metrics (f : Metrics → Metrics) (s : Rooms) : Rooms :=
  {| turnServer := turnServer s; Rooms_Rooms := Rooms_Rooms s;
     connected := connected s; conf := conf s; r := r s; tick := tick s;
     now := now s; sent := sent s; metrics := f (metrics s) |}.

Definition inc_sessionCreatedTotal (m : Metrics) : Metrics :=
  {| sessionCreatedTotal := sessionCreatedTotal m + 1;
     sessionClosedTotal := sessionClosedTotal m;
     usersJoinedTotal := usersJoinedTotal m;
     usersLeftTotal := usersLeftTotal m;
     roomsClosedTotal := roomsClosedTotal m |}.

Definition inc_sessionClosedTotal (m : Metrics) : Metrics :=
  {| sessionCreatedTotal := sessionCreatedTotal m;
     sessionClosedTotal := sessionClosedTotal m + 1;
     usersJoinedTotal := usersJoinedTotal m;
     usersLeftTotal := usersLeftTotal m;
     roomsClosedTotal := roomsClosedTotal m |}.

Definition inc_usersJoinedTotal (m : Metrics) : Metrics :=
  {| sessionCreatedTotal := sessionCreatedTotal m;
     sessionClosedTotal := sessionClosedTotal m;
     usersJoinedTotal := usersJoinedTotal m + 1;
     usersLeftTotal := usersLeftTotal m;
     roomsClosedTotal := roomsClosedTotal m |}.

Definition add_usersLeftTotal (n : N) (m : Metrics) : Metrics :=
  {| sessionCreatedTotal := sessionCreatedTotal m;
     sessionClosedTotal := sessionClosedTotal m;
     usersJoinedTotal := usersJoinedTotal m;
     usersLeftTotal := usersLeftTotal m + n;
     roomsClosedTotal := roomsClosedTotal m |}.

Definition inc_roomsClosedTotal (m : Metrics) : Metrics :=
  {| sessionCreatedTotal := sessionCreatedTotal m;
     sessionClosedTotal := sessionClosedTotal m;
     usersJoinedTotal := usersJoinedTotal m;
     usersLeftTotal := usersLeftTotal m;
     roomsClosedTotal := roomsClosedTotal m + 1 |}.

(** *** The monad of the handlers

    A handler transforms the state of the hub and returns a value; [None] is
    a Go panic (a nil pointer was dereferenced). *)
Definition Hub (A : Type) : Type := Rooms → option (A * Rooms).

Definition ret {A} (a : A) : Hub A := fun s => Some (a, s).

Definition bind {A B} (m : Hub A) (k : A → Hub B) : Hub B :=
  fun s => match m s with
           | Some (a, s') => k a s'
           | None => None
           end.

Definition panic {A} : Hub A := fun _ => None.
Definition get : Hub Rooms := fun s => Some (s, s).
Definition modify (f : Rooms → Rooms) : Hub unit := fun s => Some (tt, f s).

Notation "'let*' x ':=' c 'in' k" := (bind c (fun x => k))
  (at level 10, x name, c at level 100, k at level 200).
Notation "'let*' ' p ':=' c 'in' k" := (bind c (fun x => match x with p => k end))
  (at level 10, p pattern, c at level 100, k at level 200).
Notation "c ';;' k" := (bind c (fun _ => k))
  (at level 100, k at level 200, right associativity).

Fixpoint forEach {A} (l : list A) (body : A → Hub unit) : Hub unit :=
  match l with
  | [] => ret tt
  | x :: l' => body x ;; forEach l' body
  end.

(** What the channels received, and what the warning log holds. *)
Definition delivered (s : Rooms) : list (Chan * outgoing.Message) :=
  (fun d => (to d, msg d)) <$> filter (fun d => accepted d = true) (sent s).

Definition warnings (s : Rooms) : list outgoing.Message :=
  msg <$> filter (fun d => accepted d = false) (sent s).

Section handlers.
Context `{Runtime}.

(** *** Draws from the runtime *)

Definition draw : Hub N :=
  fun s => Some (tick s, set_tick (fun n => n + 1) s).

(** [for k, v := range m]: the entries in the order the runtime picks. *)
Definition range {V} (m : gmap N V) : Hub (list (N * V)) :=
  let* n := draw in ret (range_order n V m).

Definition xid_New_ : Hub ID :=
  let* n := draw in ret (xid_New n).

(** [Rooms.RandUserName]: [util.NewUserName(r.r)] advances the generator. *)
Definition Rooms_RandUserName : Hub string :=
  fun s => Some (NewUserName (r s), set_r (fun n => n + 1) s).

Definition TurnIPProvider_Get : Hub config.Addresses :=
  let* s := get in
  let* n := draw in ret (config.TurnIPProvider (conf s) n).

(** Calls of the interface value [rooms.turnServer]. *)
Definition turnServer_Credentials (id : string) (addr : IP)
  : Hub (string * string) :=
  let* s := get in
  let* n := draw in
  let '(cred, srv) := turn.Credentials (turnServer s) id addr (now s) n in
  modify (set_turnServer (fun _ => srv)) ;;
  ret cred.

Definition turnServer_Disallow (username : string) : Hub unit :=
  modify (set_turnServer (fun srv => turn.Disallow srv username)).

(** *** Pointers

    A [*Room] is the key of the room in [Rooms.Rooms], a [*User] the key of
    the user in [Room.Users]; a key that is not there is the nil pointer. *)
Definition deref_room (room : string) : Hub Room :=
  fun s => match Rooms_Rooms s !! room with
           | Some x => Some (x, s)
           | None => None
           end.

Definition update_room (room : string) (f : Room → Room) : Hub unit :=
  modify (set_Rooms (alter f room)).

Definition deref_user (room : string) (id : ID) : Hub User :=
  let* x := deref_room room in
  match Users x !! id with
  | Some u => ret u
  | None => panic
  end.

(** *** [writeTimeout]

    [select] between the send on [ch] and [time.After(2 * time.Second)]. *)
Definition writeTimeout (ch : Chan) (m : outgoing.Message) : Hub unit :=
  let* n := draw in
  let '(took, elapsed) :=
    select_chan_or_timer (chan_ready n ch) (2 * Second) (select_coin n) in
  modify (set_now (fun t => (t + Z.of_N elapsed)%Z)) ;;
  modify (set_sent (fun l => l ++ [{| to := ch; msg := m; accepted := took |}])).

Definition User_WriteTimeout (u : User) (m : outgoing.Message) : Hub unit :=
  writeTimeout (_write u) m.

(** *** [Rooms.addresses] *)
Definition Rooms_addresses (s : Rooms) (prefix : string) (v4 v6 : IP)
    (tcp : bool) : list string :=
  let port := config.TurnPort (conf s) in
  let result := [] in
  let result :=
    match v4 with
    | Some ip =>
        let result := result ++ [prefix +:+ ":" +:+ IP_String ip +:+ ":" +:+ port] in
        if tcp then
          result ++ [prefix +:+ ":" +:+ IP_String ip +:+ ":" +:+ port
                       +:+ "?transport=tcp"]
        else result
    | None => result
    end in
  match v6 with
  | Some ip =>
      let result :=
        result ++ [prefix +:+ ":[" +:+ IP_String ip +:+ "]:" +:+ port] in
      if tcp then
        result ++ [prefix +:+ ":[" +:+ IP_String ip +:+ "]:" +:+ port
                     +:+ "?transport=tcp"]
      else result
  | None => result
  end.

(** *** [Room.newSession] *)
Definition ice (urls : list string) (credential username : string)
  : outgoing.ICEServer :=
  {| outgoing.URLs := urls; outgoing.Credential := credential;
     outgoing.Username := username |}.

Definition Room_newSession (room : string) (host client : ID) (v4 v6 : IP)
  : Hub unit :=
  let* id := xid_New_ in
  update_room room
    (set_Sessions (insert id {| Host := host; Client := client |})) ;;
  modify (set_metrics inc_sessionCreatedTotal) ;;
  let* x := deref_room room in
  let* s := get in
  let* '(iceHost, iceClient) :=
    (if bool_decide (Mode x = ConnectionLocal) then ret ([], [])
     else if bool_decide (Mode x = ConnectionSTUN) then
       ret ([ice (Rooms_addresses s "stun" v4 v6 false) "" ""],
            [ice (Rooms_addresses s "stun" v4 v6 false) "" ""])
     else if bool_decide (Mode x = ConnectionTURN) then
       let* h := deref_user room host in
       let* '(hostName, hostPW) :=
         turnServer_Credentials (xid_String id +:+ "host") (User_Addr h) in
       let* c := deref_user room client in
       let* '(clientName, clientPW) :=
         turnServer_Credentials (xid_String id +:+ "client") (User_Addr c) in
       ret ([ice (Rooms_addresses s "turn" v4 v6 true) hostPW hostName],
            [ice (Rooms_addresses s "turn" v4 v6 true) clientPW clientName])
     else ret ([], [])) in
  let* h := deref_user room host in
  User_WriteTimeout h (outgoing.HostSession client id iceHost) ;;
  let* c := deref_user room client in
  User_WriteTimeout c (outgoing.ClientSession host id iceClient).

(** *** [Room.closeSession] *)
Definition Room_closeSession (room : string) (id : ID) : Hub unit :=
  let* x := deref_room room in
  (if bool_decide (Mode x = ConnectionTURN) then
     turnServer_Disallow (xid_String id +:+ "host") ;;
     turnServer_Disallow (xid_String id +:+ "client")
   else ret tt) ;;
  update_room room (set_Sessions (delete id)) ;;
  modify (set_metrics inc_sessionClosedTotal).

(** *** [Room.notifyInfoChanged] *)

(** The comparison handed to [sort.Slice]. *)
Definition less (left right : outgoing.User) : bool :=
  if negb (Bool.eqb (outgoing.Owner left) (outgoing.Owner right)) then
    outgoing.Owner left
  else if negb (Bool.eqb (outgoing.Streaming left) (outgoing.Streaming right)) then
    outgoing.Streaming left
  else string_lt (outgoing.Name left) (outgoing.Name right).

(** [sort.Slice] returns some permutation of its argument that is sorted by
    the comparison; it is not stable.  Insertion is one such sort. *)
Fixpoint sort_insert {A} (lt : A → A → bool) (x : A) (l : list A) : list A :=
  match l with
  | [] => [x]
  | y :: l' => if lt y x then y :: sort_insert lt x l' else x :: y :: l'
  end.

Fixpoint sort_Slice {A} (lt : A → A → bool) (l : list A) : list A :=
  match l with
  | [] => []
  | x :: l' => sort_insert lt x (sort_Slice lt l')
  end.

(** The record of [user] in the copy for [current]; the two pointers are
    equal when they come from the same entry of the map. *)
Definition info_of (current : ID) (entry : ID * User) : outgoing.User :=
  {| outgoing.User_ID := User_ID entry.2;
     outgoing.Name := Name entry.2;
     outgoing.Streaming := Streaming entry.2;
     outgoing.You := bool_decide (current = entry.1);
     outgoing.Owner := Owner entry.2 |}.

Definition Room_notifyInfoChanged (room : string) : Hub unit :=
  let* x := deref_room room in
  let* members := range (Users x) in
  forEach members (fun current =>
    let* entries := range (Users x) in
    let users := info_of current.1 <$> entries in
    let users := sort_Slice less users in
    User_WriteTimeout current.2 (outgoing.Room (Room_ID x) users)).

(** *** [Rooms.CurrentRoom] *)
Definition Rooms_CurrentRoom (s : Rooms) (info : ClientInfo) : result string :=
  match connected s !! ClientInfo_ID info with
  | None => Err "not connected"
  | Some roomID =>
      if bool_decide (roomID = "") then Err "not in a room"
      else match Rooms_Rooms s !! roomID with
           | None => Err ("room with id " +:+ roomID +:+ " does not exist")
           | Some _ => Ok roomID
           end
  end.

(** *** [Rooms.closeRoom] *)
Definition Rooms_closeRoom (roomID : string) : Hub unit :=
  let* s := get in
  match Rooms_Rooms s !! roomID with
  | None => ret tt
  | Some x =>
      modify (set_metrics (add_usersLeftTotal (N.of_nat (size (Users x))))) ;;
      let* sessions := range (Sessions x) in
      forEach sessions (fun entry => Room_closeSession roomID entry.1) ;;
      modify (set_Rooms (delete roomID)) ;;
      modify (set_metrics inc_roomsClosedTotal)
  end.

(** *** The events *)

Record Join := {
  Join_ID : string;
  UserName : string;
}.

Record Disconnected := {
  Code : Z;
  Reason : string;
}.

Definition Join_Execute (e : Join) (current : ClientInfo)
  : Hub (option string) :=
  let* s := get in
  if bool_decide (default "" (connected s !! ClientInfo_ID current) ≠ "") then
    ret (Some "cannot join room, you are already in one")
  else
    match Rooms_Rooms s !! Join_ID e with
    | None => ret (Some ("room with id " +:+ Join_ID e +:+ " does not exist"))
    | Some x =>
        let room := Join_ID e in
        let name := UserName e in
        let name :=
          if Authenticated current then AuthenticatedUser current else name in
        let* name :=
          (if bool_decide (name = "") then Rooms_RandUserName else ret name) in
        update_room room
          (set_Users (insert (ClientInfo_ID current)
             {| User_ID := ClientInfo_ID current;
                Name := name;
                Streaming := false;
                Owner := false;
                User_Addr := ClientInfo_Addr current;
                _write := Write current |})) ;;
        modify (set_connected (insert (ClientInfo_ID current) (Room_ID x))) ;;
        Room_notifyInfoChanged room ;;
        modify (set_metrics inc_usersJoinedTotal) ;;
        let* addrs := TurnIPProvider_Get in
        match addrs with
        | config.GetErr err => ret (Some err)
        | config.GetOk v4 v6 =>
            let* x := deref_room room in
            let* members := range (Users x) in
            forEach members (fun entry =>
              if bool_decide (ClientInfo_ID current = User_ID entry.2)
                 || negb (Streaming entry.2)
              then ret tt
              else Room_newSession room (User_ID entry.2)
                     (ClientInfo_ID current) v4 v6) ;;
            ret None
        end
    end.

Definition StartShare_Execute (current : ClientInfo) : Hub (option string) :=
  let* s := get in
  match Rooms_CurrentRoom s current with
  | Err e => ret (Some e)
  | Ok room =>
      deref_user room (ClientInfo_ID current) ;;
      update_room room
        (set_Users (alter (set_Streaming true) (ClientInfo_ID current))) ;;
      let* addrs := TurnIPProvider_Get in
      match addrs with
      | config.GetErr err => ret (Some err)
      | config.GetOk v4 v6 =>
          let* x := deref_room room in
          let* members := range (Users x) in
          forEach members (fun entry =>
            if bool_decide (ClientInfo_ID current = User_ID entry.2) then ret tt
            else Room_newSession room (ClientInfo_ID current)
                   (User_ID entry.2) v4 v6) ;;
          Room_notifyInfoChanged room ;;
          ret None
      end
  end.

(** The body shared by the loops that end the sessions of a host. *)
Definition end_hosted_session (room : string) (host : ID)
    (entry : ID * RoomSession) : Hub unit :=
  if bool_decide (Host entry.2 = host) then
    let* x := deref_room room in
    match Users x !! Client entry.2 with
    | Some client => User_WriteTimeout client (outgoing.EndShare entry.1)
    | None => ret tt
    end ;;
    Room_closeSession room entry.1
  else ret tt.

Definition StopShare_Execute (current : ClientInfo) : Hub (option string) :=
  let* s := get in
  match Rooms_CurrentRoom s current with
  | Err e => ret (Some e)
  | Ok room =>
      deref_user room (ClientInfo_ID current) ;;
      update_room room
        (set_Users (alter (set_Streaming false) (ClientInfo_ID current))) ;;
      let* x := deref_room room in
      let* sessions := range (Sessions x) in
      forEach sessions (end_hosted_session room (ClientInfo_ID current)) ;;
      Room_notifyInfoChanged room ;;
      ret None
  end.

Definition HostOffer_Execute (e : outgoing.P2PMessage) (current : ClientInfo)
  : Hub (option string) :=
  let* s := get in
  match Rooms_CurrentRoom s current with
  | Err err => ret (Some err)
  | Ok room =>
      let* x := deref_room room in
      match Sessions x !! outgoing.SID e with
      | None => ret None
      | Some session =>
          if bool_decide (Host session ≠ ClientInfo_ID current) then
            ret (Some ("permission denied for session "
                         +:+ xid_String (outgoing.SID e)))
          else
            let* u := deref_user room (Client session) in
            User_WriteTimeout u (outgoing.HostOffer e) ;;
            ret None
      end
  end.

Definition HostICE_Execute (e : outgoing.P2PMessage) (current : ClientInfo)
  : Hub (option string) :=
  let* s := get in
  match Rooms_CurrentRoom s current with
  | Err err => ret (Some err)
  | Ok room =>
      let* x := deref_room room in
      match Sessions x !! outgoing.SID e with
      | None => ret None
      | Some session =>
          if bool_decide (Host session ≠ ClientInfo_ID current) then
            ret (Some ("permission denied for session "
                         +:+ xid_String (outgoing.SID e)))
          else
            let* u := deref_user room (Client session) in
            User_WriteTimeout u (outgoing.HostICE e) ;;
            ret None
      end
  end.

Definition ClientAnswer_Execute (e : outgoing.P2PMessage) (current : ClientInfo)
  : Hub (option string) :=
  let* s := get in
  match Rooms_CurrentRoom s current with
  | Err err => ret (Some err)
  | Ok room =>
      let* x := deref_room room in
      match Sessions x !! outgoing.SID e with
      | None => ret None
      | Some session =>
          if bool_decide (Client session ≠ ClientInfo_ID current) then
            ret (Some ("permission denied for session "
                         +:+ xid_String (outgoing.SID e)))
          else
            let* u := deref_user room (Host session) in
            User_WriteTimeout u (outgoing.ClientAnswer e) ;;
            ret None
      end
  end.

(** Modelled from the spec: the handler of [clientice], whose file is not
    among the sources: "client-answer / client-ice: session exists; sender is
    that session's client; relays to the session's host; same as above,
    mirrored". *)
Definition ClientICE_Execute (e : outgoing.P2PMessage) (current : ClientInfo)
  : Hub (option string) :=
  let* s := get in
  match Rooms_CurrentRoom s current with
  | Err err => ret (Some err)
  | Ok room =>
      let* x := deref_room room in
      match Sessions x !! outgoing.SID e with
      | None => ret None
      | Some session =>
          if bool_decide (Client session ≠ ClientInfo_ID current) then
            ret (Some ("permission denied for session "
                         +:+ xid_String (outgoing.SID e)))
          else
            let* u := deref_user room (Host session) in
            User_WriteTimeout u (outgoing.ClientICE e) ;;
            ret None
      end
  end.

(** Modelled from the spec: the synthetic event injected when a connection is
    upgraded (not among the sources).  It creates the membership record of
    the connection, empty: "not-in-room if the record exists but is empty". *)
Definition Connected_Execute (current : ClientInfo) : Hub (option string) :=
  modify (set_connected (insert (ClientInfo_ID current) "")) ;;
  ret None.

(** Modelled from the spec: what a disconnect does with one session of the
    room the sender leaves.  "If sender was a session host, closes that
    session and notifies the peer"; and a session is "destroyed on
    stop-share, disconnect of either party, or room teardown", so a session
    in which the sender is the client is closed as well.  The spec names no
    message for that case. *)
Definition end_session_of (room : string) (id : ID)
    (entry : ID * RoomSession) : Hub unit :=
  if bool_decide (Host entry.2 = id) then end_hosted_session room id entry
  else if bool_decide (Client entry.2 = id) then
    Room_closeSession room entry.1
  else ret tt.

(** Modelled from the spec: the handler of a disconnect (not among the
    sources): "removes sender from its room's membership; if sender was a
    session host, closes that session and notifies the peer; if sender was
    owner and the room is configured to close on owner departure, tears down
    the whole room; otherwise re-broadcasts room info; never fails".  The
    sessions of the sender are ended by [end_session_of].  The close reason
    is sent to the sender. *)
Definition Disconnected_executeNoError (e : Disconnected) (current : ClientInfo)
  : Hub unit :=
  let* s := get in
  let roomID := default "" (connected s !! ClientInfo_ID current) in
  modify (set_connected (delete (ClientInfo_ID current))) ;;
  writeTimeout (Write current) (outgoing.CloseWriter (Code e) (Reason e)) ;;
  if bool_decide (roomID = "") then ret tt
  else
    match Rooms_Rooms s !! roomID with
    | None => ret tt
    | Some x =>
        match Users x !! ClientInfo_ID current with
        | None => ret tt
        | Some user =>
            update_room roomID (set_Users (delete (ClientInfo_ID current))) ;;
            let* sessions := range (Sessions x) in
            forEach sessions (end_session_of roomID (ClientInfo_ID current)) ;;
            if Owner user && CloseOnOwnerLeave x then Rooms_closeRoom roomID
            else Room_notifyInfoChanged roomID
        end
    end.

Definition Disconnected_Execute (e : Disconnected) (current : ClientInfo)
  : Hub (option string) :=
  Disconnected_executeNoError e current ;;
  ret None.

(** The interface [Event]. *)
Inductive Event :=
| EvJoin (e : Join)
| EvStartShare
| EvStopShare
| EvHostOffer (e : outgoing.P2PMessage)
| EvHostICE (e : outgoing.P2PMessage)
| EvClientAnswer (e : outgoing.P2PMessage)
| EvClientICE (e : outgoing.P2PMessage)
| EvConnected
| EvDisconnected (e : Disconnected).

Definition Execute (ev : Event) (current : ClientInfo) : Hub (option string) :=
  match ev with
  | EvJoin e => Join_Execute e current
  | EvStartShare => StartShare_Execute current
  | EvStopShare => StopShare_Execute current
  | EvHostOffer e => HostOffer_Execute e current
  | EvHostICE e => HostICE_Execute e current
  | EvClientAnswer e => ClientAnswer_Execute e current
  | EvClientICE e => ClientICE_Execute e current
  | EvConnected => Connected_Execute current
  | EvDisconnected e => Disconnected_Execute e current
  end.

Record ClientMessage := {
  Info : ClientInfo;
  SkipConnectedCheck : bool;
  Incoming : Event;
}.

(** *** [Rooms.Start]: the main loop, one message at a time *)
Definition Rooms_Start_step (m : ClientMessage) : Hub unit :=
  let* s := get in
  let connected_ :=
    bool_decide (is_Some (connected s !! ClientInfo_ID (Info m))) in
  if negb (SkipConnectedCheck m) && negb connected_ then ret tt
  else
    let* err := Execute (Incoming m) (Info m) in
    match err with
    | Some reason =>
        Disconnected_executeNoError
          {| Code := CloseNormalClosure; Reason := reason |} (Info m)
    | None => ret tt
    end.

Definition Rooms_Start (incoming : list ClientMessage) : Hub unit :=
  forEach incoming Rooms_Start_step.

End handlers.

(** *** [Rooms.Count]

    The call runs outside the main loop.  [accept] is when, from the start of
    the call, the main loop takes the probe from [Incoming]; [reply] is how
    long after that the count is in the reply channel.  One timer, created
    at the start, serves both selects.  The result comes with the time the
    call took. *)
Definition Rooms_Count (accept reply : option N) (count : Z)
    (coin1 coin2 : bool) : (Z * string) * N :=
  let timeout := 5 * Second in
  let '(taken, t1) := select_chan_or_timer accept timeout coin1 in
  if negb taken then
    ((-1, "main loop didn't accept a message within 5 second")%Z, t1)
  else
    let '(answered, t2) := select_chan_or_timer reply (timeout - t1) coin2 in
    if answered then ((count, ""), t1 + t2)
    else ((-1, "main loop didn't respond to a message within 5 second")%Z,
          t1 + t2).

(** The query as the design document words it: one fixed timeout for the
    main loop to accept the probe and, independently, one of the same length
    for its reply. *)
Definition Count_independent_timeouts (accept reply : option N) (count : Z)
    (coin1 coin2 : bool) : (Z * string) * N :=
  let timeout := 5 * Second in
  let '(taken, t1) := select_chan_or_timer accept timeout coin1 in
  if negb taken then
    ((-1, "main loop didn't accept a message within 5 second")%Z, t1)
  else
    let '(answered, t2) := select_chan_or_timer reply timeout coin2 in
    if answered then ((count, ""), t1 + t2)
    else ((-1, "main loop didn't respond to a message within 5 second")%Z,
          t1 + t2).

(** *** [once]

    [Do] and [mayExecute] as one goroutine runs them when no other is inside;
    [f] acts on a state [S]. *)
Record once := { done : N }.

Definition once_mayExecute (o : once) : bool * once :=
  if bool_decide (done o = 0) then (true, {| done := 1 |}) else (false, o).

Definition once_Do {S : Type} (o : once) (f : S → S) (st : S) : once * S :=
  if bool_decide (done o = 1) then (o, st)
  else
    let '(may, o) := once_mayExecute o in
    if may then (o, f st) else (o, st).

(** **** [Do] called by several goroutines

    The same two functions, one step at a time.  A goroutine is at one of
    the points below; [f] is the list of the effects it performs, in order.
    The loads and stores of [done] and the mutex are the steps; a goroutine
    at [AtLock] cannot move while the mutex is held. *)
Section concurrent_Do.
Context {E : Type}.

Inductive Do_pc :=
| AtLoad                  (* Do: before atomic.LoadUint32 *)
| AtLock                  (* mayExecute: before o.m.Lock() *)
| AtCheck                 (* the lock is held; before the test of o.done *)
| AtStore                 (* o.done was 0; before atomic.StoreUint32 *)
| AtUnlock (may : bool)   (* before the deferred Unlock; the value returned *)
| AtCall                  (* mayExecute returned true; before f() *)
| InCall (rest : list E)  (* inside f; what is left of it *)
| Returned.

Record Do_state := {
  Do_done : N;
  Do_locked : bool;
  Do_goroutines : list (Do_pc * list E);
  Do_performed : list E;
}.

Definition Do_move (i : nat) (pc : Do_pc) (f : list E) (σ : Do_state)
    (done : N) (locked : bool) (performed : list E) : Do_state :=
  {| Do_done := done; Do_locked := locked;
     Do_goroutines := <[i := (pc, f)]> (Do_goroutines σ);
     Do_performed := performed |}.

(** One step of goroutine [i]; [None] when it cannot move. *)
Definition Do_step (i : nat) (σ : Do_state) : option Do_state :=
  match Do_goroutines σ !! i with
  | None => None
  | Some (pc, f) =>
      let done := Do_done σ in
      let locked := Do_locked σ in
      let performed := Do_performed σ in
      match pc with
      | AtLoad =>
          Some (Do_move i (if bool_decide (done = 1) then Returned else AtLock)
                  f σ done locked performed)
      | AtLock =>
          if locked then None
          else Some (Do_move i AtCheck f σ done true performed)
      | AtCheck =>
          Some (Do_move i (if bool_decide (done = 0) then AtStore
                           else AtUnlock false)
                  f σ done locked performed)
      | AtStore => Some (Do_move i (AtUnlock true) f σ 1 locked performed)
      | AtUnlock may =>
          Some (Do_move i (if may then AtCall else Returned)
                  f σ done false performed)
      | AtCall => Some (Do_move i (InCall f) f σ done locked performed)
      | InCall [] => Some (Do_move i Returned f σ done locked performed)
      | InCall (e :: rest) =>
          Some (Do_move i (InCall rest) f σ done locked (performed ++ [e]))
      | Returned => None
      end
  end.

(** The scheduler picks the goroutines in the order [schedule]; a pick of a
    goroutine that cannot move changes nothing. *)
Definition Do_run (schedule : list nat) (σ : Do_state) : Do_state :=
  foldl (fun σ i => default σ (Do_step i σ)) σ schedule.

(** A fresh [once] and one goroutine about to call [Do(f)] for each [f]. *)
Definition Do_start (fs : list (list E)) : Do_state :=
  {| Do_done := 0; Do_locked := false;
     Do_goroutines := (fun f => (AtLoad, f)) <$> fs;
     Do_performed := [] |}.

End concurrent_Do.

Arguments Do_pc : clear implicits.
Arguments Do_state : clear implicits.

(** *** The struct [Client] of a connection, here [Client_] *)

Definition writeWait : N := 2 * Second.
Definition CloseUnsupportedData : Z := 1003.
Definition TextMessage : Z := 1.
Definition BinaryMessage : Z := 2.

Record Typed := {
  Typed_Type : string;
  Typed_Payload : string;
}.

(** What a client does with its connection, its ticker and the channel
    [read], in program order.  The debug log is left out. *)
Inductive IO :=
| read_send (m : ClientMessage)
| conn_WriteControl_Close (code : Z) (reason : string) (timeout : N)
| conn_Close
| conn_SetReadDeadline
| conn_SetPongHandler
| conn_SetWriteDeadline
| conn_writeJSON (typed : Typed)
| conn_ping
| pingTicker_Stop.

Record Client_ := {
  Client_info : ClientInfo;
  Client_once : once;
  Client_io : list IO;
}.

Definition Client_do (l : list IO) (c : Client_) : Client_ :=
  {| Client_info := Client_info c; Client_once := Client_once c;
     Client_io := Client_io c ++ l |}.

(** [writeCloseMessage]: the close frame, then the connection is closed. *)
Definition Client_writeCloseMessage (code : Z) (reason : string) : list IO :=
  [conn_WriteControl_Close code reason writeWait; conn_Close].

(** The function [CloseOnError] hands to [once.Do]: a goroutine is started
    that puts the disconnect event on [read], then the close message is
    written. *)
Definition CloseOnError_func (info : ClientInfo) (code : Z) (reason : string)
  : list IO :=
  read_send {| Info := info; SkipConnectedCheck := false;
               Incoming := EvDisconnected {| Code := code; Reason := reason |} |}
  :: Client_writeCloseMessage code reason.

Definition Client_CloseOnError (code : Z) (reason : string) (c : Client_)
  : Client_ :=
  let '(o, io) :=
    once_Do (Client_once c)
      (fun io => io ++ CloseOnError_func (Client_info c) code reason)
      (Client_io c) in
  {| Client_info := Client_info c; Client_once := o; Client_io := io |}.

Definition Client_CloseOnDone (code : Z) (reason : string) (c : Client_)
  : Client_ :=
  let '(o, io) :=
    once_Do (Client_once c)
      (fun io => io ++ Client_writeCloseMessage code reason)
      (Client_io c) in
  {| Client_info := Client_info c; Client_once := o; Client_io := io |}.

Section codec.
(** [encoding/json], and the method [Type] of the outgoing messages. *)
Variable json_Marshal : outgoing.Message → result string.
Variable Message_Type : outgoing.Message → string.
Variable json_Decode : string → result Typed.
Variable json_Unmarshal : string → Event → result Event.
(** The registry the [init] functions fill through [register]: for a type,
    the empty event its constructor returns. *)
Variable provider : gmap string Event.

Definition ToTypedOutgoing (m : outgoing.Message) : result Typed :=
  match json_Marshal m with
  | Err err => Err err
  | Ok payload =>
      Ok {| Typed_Type := Message_Type m; Typed_Payload := payload |}
  end.

Definition ReadTypedIncoming (r : string) : result Event :=
  match json_Decode r with
  | Err err => Err (err +:+ " e")
  | Ok typed =>
      match provider !! Typed_Type typed with
      | None => Err ("cannot handle " +:+ Typed_Type typed)
      | Some create =>
          match json_Unmarshal (Typed_Payload typed) create with
          | Err err => Err ("incoming payload " +:+ err)
          | Ok payload => Ok payload
          end
      end
  end.

(** What [conn.NextReader()] returns: an error, or the type of a message
    and its text. *)
Inductive NextReader :=
| NextReader_err (err : string)
| NextReader_ok (t : Z) (m : string).

(** The loop of [startReading] over what [NextReader] returns call after
    call; the flag tells whether the loop returned ([false]: it waits for
    the next message). *)
Fixpoint startReading_loop (frames : list NextReader) (c : Client_)
  : Client_ * bool :=
  match frames with
  | [] => (c, false)
  | NextReader_err err :: _ =>
      (Client_CloseOnError CloseNormalClosure ("read error: " +:+ err) c, true)
  | NextReader_ok t m :: rest =>
      if bool_decide (t = BinaryMessage) then
        (Client_CloseOnError CloseUnsupportedData
           "unsupported binary message type" c, true)
      else
        match ReadTypedIncoming m with
        | Err err =>
            (Client_CloseOnError CloseUnsupportedData
               ("malformed message: " +:+ err) c, true)
        | Ok incoming =>
            startReading_loop rest
              (Client_do [read_send {| Info := Client_info c;
                                       SkipConnectedCheck := false;
                                       Incoming := incoming |}] c)
        end
  end.

(** [startReading], with its deferred [CloseOnError]. *)
Definition Client_startReading (frames : list NextReader) (c : Client_)
  : Client_ * bool :=
  let c := Client_do [conn_SetReadDeadline; conn_SetPongHandler] c in
  let '(c, returned) := startReading_loop frames c in
  if returned then
    (Client_CloseOnError CloseNormalClosure "Reader Routine Closed" c, true)
  else (c, false).

(** What the [select] of the write loop receives: a message from
    [c.info.Write], with the error [writeJSON] returns should the message get
    that far, or a tick, with the error of [ping]. *)
Inductive WriteEvent :=
| Write_recv (message : outgoing.Message) (write_err : option string)
| pingTicker_C (ping_err : option string).

(** The loop of [startWriteHandler]; the result holds the events the loop
    did not take, and whether it returned. *)
Fixpoint startWriteHandler_loop (events : list WriteEvent) (c : Client_)
  : Client_ * list WriteEvent * bool :=
  match events with
  | [] => (c, [], false)
  | Write_recv message write_err :: rest =>
      match message with
      | outgoing.CloseWriter code reason =>
          (Client_CloseOnDone code reason c, rest, true)
      | _ =>
          let c := Client_do [conn_SetWriteDeadline] c in
          match ToTypedOutgoing message with
          | Err err =>
              startWriteHandler_loop rest
                (Client_CloseOnError CloseNormalClosure
                   ("malformed outgoing " +:+ err) c)
          | Ok typed =>
              let c := Client_do [conn_writeJSON typed] c in
              match write_err with
              | Some err =>
                  startWriteHandler_loop rest
                    (Client_CloseOnError CloseNormalClosure
                       ("write error" +:+ err) c)
              | None => startWriteHandler_loop rest c
              end
          end
      end
  | pingTicker_C ping_err :: rest =>
      let c := Client_do [conn_SetWriteDeadline; conn_ping] c in
      match ping_err with
      | Some _ =>
          startWriteHandler_loop rest
            (Client_CloseOnError CloseNormalClosure "ping timeout" c)
      | None => startWriteHandler_loop rest c
      end
  end.

(** [startWriteHandler], with its deferred calls. *)
Definition Client_startWriteHandler (events : list WriteEvent) (c : Client_)
  : Client_ * list WriteEvent * bool :=
  let '(c, rest, returned) := startWriteHandler_loop events c in
  if returned then (Client_do [conn_Close; pingTicker_Stop] c, rest, true)
  else (c, rest, false).

End codec.

End ws.

(** ** Package [router]: the health endpoint *)
Module router.

Record Health := {
  Status : string;
  Clients : Z;
  Reason : string;
}.

(** The handler of [GET /health]: the status code of the response and the
    value it encodes, with the time the call of [Count] took. *)
Definition health (accept reply : option N) (count : Z) (coin1 coin2 : bool)
  : (Z * Health) * N :=
  let '((i, err), elapsed) := ws.Rooms_Count accept reply count coin1 coin2 in
  let status := "up" in
  let '(status, code) :=
    if bool_decide (err ≠ "") then ("down", 500%Z) else (status, 200%Z) in
  ((code, {| Status := status; Clients := i; Reason := err |}), elapsed).

End router.

(** ** Runtimes to run the model on examples *)

Definition dotted (ip : list N) : string := String.concat "." (pretty <$> ip).

(** Every channel takes a message at once; a map is visited in the order of
    its keys. *)
Definition prompt_runtime : Runtime :=
  {| range_order := fun _ V m => map_to_list m;
     range_order_perm := fun _ V m => reflexivity (map_to_list m);
     xid_New := fun n => n;
     xid_New_inj := fun n m e => e;
     NewUserName := fun n => "guest" +:+ pretty n;
     RandString := fun n len => String.concat "" (replicate len (pretty n));
     GenerateAuthKey := fun username realm password =>
       crypto.bytes_of_string (username +:+ ":" +:+ realm +:+ ":" +:+ password);
     IP_String := dotted;
     chan_ready := fun _ _ => Some 0;
     select_coin := fun _ => true |}.

(** No channel is ever drained. *)
Definition stalled_runtime : Runtime :=
  {| range_order := fun _ V m => map_to_list m;
     range_order_perm := fun _ V m => reflexivity (map_to_list m);
     xid_New := fun n => n;
     xid_New_inj := fun n m e => e;
     NewUserName := fun n => "guest" +:+ pretty n;
     RandString := fun n len => String.concat "" (replicate len (pretty n));
     GenerateAuthKey := fun username realm password =>
       crypto.bytes_of_string (username +:+ ":" +:+ realm +:+ ":" +:+ password);
     IP_String := dotted;
     chan_ready := fun _ _ => None;
     select_coin := fun _ => true |}.

(** ** Notions used in the statements *)

(** The usernames under which the credentials of a session are issued and
    revoked. *)
Definition session_host_name (id : ID) : string := xid_String id +:+ "host".
Definition session_client_name (id : ID) : string := xid_String id +:+ "client".

Definition revoke_session (srv : turn.Server) (id : ID) : turn.Server :=
  turn.Disallow (turn.Disallow srv (session_host_name id))
    (session_client_name id).

Definition session_usernames (x : ws.Room) : list string :=
  (map_to_list (ws.Sessions x)).*1
    ≫= (fun id => [session_host_name id; session_client_name id]).

(** The state after [Room.closeSession], for a room [x] held under [room],
    and after the loop of [closeRoom] over the sessions [ids]. *)
Definition closeSession_state (room : string) (x : ws.Room) (id : ID)
    (s : ws.Rooms) : ws.Rooms :=
  ws.set_metrics ws.inc_sessionClosedTotal
    (ws.set_Rooms (alter (ws.set_Sessions (delete id)) room)
       (if bool_decide (ws.Mode x = ws.ConnectionTURN)
        then ws.set_turnServer (fun srv => revoke_session srv id) s
        else s)).

Fixpoint closeSessions_state (room : string) (x : ws.Room) (ids : list ID)
    (s : ws.Rooms) : ws.Rooms :=
  match ids with
  | [] => s
  | id :: ids' =>
      closeSessions_state room (ws.set_Sessions (delete id) x) ids'
        (closeSession_state room x id s)
  end.

(** Two states with the same rooms, members, issuer, configuration and
    counters: only the clock, the draws and the calls of [writeTimeout] may
    differ. *)
Definition same_hub (s s' : ws.Rooms) : Prop :=
  ws.turnServer s' = ws.turnServer s
  ∧ ws.Rooms_Rooms s' = ws.Rooms_Rooms s
  ∧ ws.connected s' = ws.connected s
  ∧ ws.conf s' = ws.conf s
  ∧ ws.r s' = ws.r s
  ∧ ws.metrics s' = ws.metrics s.

(** [comes_first a b]: the order of the user list lets [a] stand before [b]:
    an owner before the others, then a streaming user before an idle one,
    then the smaller name first. *)
Definition comes_first (a b : outgoing.User) : Prop :=
  (outgoing.Owner a = true ∧ outgoing.Owner b = false)
  ∨ (outgoing.Owner a = outgoing.Owner b
     ∧ ((outgoing.Streaming a = true ∧ outgoing.Streaming b = false)
        ∨ (outgoing.Streaming a = outgoing.Streaming b
           ∧ string_lt (outgoing.Name b) (outgoing.Name a) = false))).

(** The room info [d] is the copy of the state of room [x] for the member
    [entry]: it goes to the channel of the member, lists every user of the
    room once, in order, and flags the record of the member, and no other,
    as "you". *)
Definition room_info_for (x : ws.Room) (entry : ID * ws.User) (d : ws.Delivery)
  : Prop :=
  ws.to d = ws._write entry.2
  ∧ ∃ l : list outgoing.User,
      ws.msg d = outgoing.Room (ws.Room_ID x) l
      ∧ l ≡ₚ ws.info_of entry.1 <$> map_to_list (ws.Users x)
      ∧ StronglySorted comes_first l
      ∧ filter (fun u => outgoing.You u = true) l = [ws.info_of entry.1 entry].

(** From [s] to [s'] nothing happened but the calls [ds] of [writeTimeout]. *)
Definition sends (s s' : ws.Rooms) (ds : list ws.Delivery) : Prop :=
  same_hub s s' ∧ ws.sent s' = ws.sent s ++ ds ∧ ws.tick s ≤ ws.tick s'.

(** ** A room to run the model on

    The room "r1" of the design document's example: A owns the room and
    streams, B streams, C is idle; a fourth connection has not joined. *)
Definition example_conf : config.Config :=
  {| config.TurnPort := "3478";
     config.TurnIPProvider := fun _ => config.GetOk (Some [203; 0; 113; 7]) None;
     config.TurnExternalSecret := "s3cr3t" |}.

Definition user_A : ws.User :=
  {| ws.User_ID := 1; ws.User_Addr := Some [192; 0; 2; 1]; ws.Name := "Bob";
     ws.Streaming := true; ws.Owner := true; ws._write := 101 |}.

Definition user_B : ws.User :=
  {| ws.User_ID := 2; ws.User_Addr := Some [192; 0; 2; 2]; ws.Name := "Amy";
     ws.Streaming := true; ws.Owner := false; ws._write := 102 |}.

Definition user_C : ws.User :=
  {| ws.User_ID := 3; ws.User_Addr := Some [192; 0; 2; 3]; ws.Name := "Zoe";
     ws.Streaming := false; ws.Owner := false; ws._write := 103 |}.

Definition example_room : ws.Room :=
  {| ws.Room_ID := "r1"; ws.CloseOnOwnerLeave := false;
     ws.Mode := ws.ConnectionTURN;
     ws.Users := <[1 := user_A]> (<[2 := user_B]> (<[3 := user_C]> ∅));
     ws.Sessions := ∅ |}.

Definition example_hub : ws.Rooms :=
  {| ws.turnServer := turn.Internal {| turn.lookup := ∅ |};
     ws.Rooms_Rooms := <["r1" := example_room]> ∅;
     ws.connected :=
       <[1 := "r1"]> (<[2 := "r1"]> (<[3 := "r1"]> (<[4 := ""]> ∅)));
     ws.conf := example_conf;
     ws.r := 0; ws.tick := 0; ws.now := 0; ws.sent := [];
     ws.metrics := ws.Build_Metrics 0 0 0 0 0 |}.

Definition client_D : ws.ClientInfo :=
  {| ws.ClientInfo_ID := 4; ws.Authenticated := false;
     ws.AuthenticatedUser := ""; ws.Write := 104;
     ws.ClientInfo_Addr := Some [192; 0; 2; 4] |}.

(** The calls of [writeTimeout], whatever became of them. *)
Definition attempts (s : ws.Rooms) : list (Chan * outgoing.Message) :=
  (fun d => (ws.to d, ws.msg d)) <$> ws.sent s.

Section session_notions.
Context `{Runtime}.

(** What [newSession] hands to the two parties, by the mode of the room. *)
Definition ice_by_mode (x : ws.Room) (h c : ws.User) (v4 v6 : IP)
    (s s' : ws.Rooms)
    (iceHost iceClient : list outgoing.ICEServer) : Prop :=
  let id := xid_New (ws.tick s) in
  (ws.Mode x = ws.ConnectionLocal →
     iceHost = [] ∧ iceClient = [] ∧ ws.turnServer s' = ws.turnServer s)
  ∧ (ws.Mode x = ws.ConnectionSTUN →
       iceHost = [ws.ice (ws.Rooms_addresses s "stun" v4 v6 false) "" ""]
       ∧ iceClient = iceHost
       ∧ ws.turnServer s' = ws.turnServer s)
  ∧ (ws.Mode x = ws.ConnectionTURN →
       ∃ (hostName hostPW clientName clientPW : string) (srv : turn.Server),
         turn.Credentials (ws.turnServer s) (xid_String id +:+ "host")
           (ws.User_Addr h) (ws.now s) (ws.tick s + 1)
         = ((hostName, hostPW), srv)
         ∧ turn.Credentials srv (xid_String id +:+ "client")
             (ws.User_Addr c) (ws.now s) (ws.tick s + 2)
           = ((clientName, clientPW), ws.turnServer s')
         ∧ iceHost = [ws.ice (ws.Rooms_addresses s "turn" v4 v6 true) hostPW hostName]
         ∧ iceClient
           = [ws.ice (ws.Rooms_addresses s "turn" v4 v6 true) clientPW clientName])
  ∧ (ws.Mode x ≠ ws.ConnectionLocal → ws.Mode x ≠ ws.ConnectionSTUN →
     ws.Mode x ≠ ws.ConnectionTURN →
       iceHost = [] ∧ iceClient = [] ∧ ws.turnServer s' = ws.turnServer s).

End session_notions.

(** The room of the example while A shares its screen with B: session 7. *)
Definition example_room_sharing : ws.Room :=
  ws.set_Sessions (insert 7 {| ws.Host := 1; ws.Client := 2 |}) example_room.

Definition example_hub_sharing : ws.Rooms :=
  ws.set_Rooms (insert "r1" example_room_sharing) example_hub.

Definition client_A : ws.ClientInfo :=
  {| ws.ClientInfo_ID := 1; ws.Authenticated := false;
     ws.AuthenticatedUser := ""; ws.Write := 101;
     ws.ClientInfo_Addr := Some [192; 0; 2; 1] |}.

Section relay_notions.
Context `{Runtime}.

(** What a relay handler does with the event [e] of the connection
    [current].  A sender without a current room gets the failure of
    [CurrentRoom].  Otherwise the session is looked up in the room of the
    sender: an unknown session is ignored, the state unchanged; a session in
    which the sender does not hold the sending role is refused; else the
    payload goes, under the tag of the receiving side, to the peer, when the
    peer is a user of the room.  When it is not, [room.Users[peer]] is nil
    and the handler panics. *)
Definition relays
    (handler : outgoing.P2PMessage → ws.ClientInfo → ws.Hub (option string))
    (sender peer : ws.RoomSession → ID)
    (tag : outgoing.P2PMessage → outgoing.Message) : Prop :=
  ∀ (e : outgoing.P2PMessage) (current : ws.ClientInfo) (s : ws.Rooms),
    match ws.Rooms_CurrentRoom s current with
    | ws.Err err => handler e current s = Some (Some err, s)
    | ws.Ok room =>
        ∃ x : ws.Room,
          ws.Rooms_Rooms s !! room = Some x
          ∧ ws.connected s !! ws.ClientInfo_ID current = Some room
          ∧ match ws.Sessions x !! outgoing.SID e with
            | None => handler e current s = Some (None, s)
            | Some session =>
                if decide (sender session = ws.ClientInfo_ID current) then
                  match ws.Users x !! peer session with
                  | Some u =>
                      ∃ (s' : ws.Rooms) (took : bool),
                        handler e current s = Some (None, s')
                        ∧ sends s s' [{| ws.to := ws._write u; ws.msg := tag e;
                                         ws.accepted := took |}]
                  | None => handler e current s = None
                  end
                else
                  handler e current s
                  = Some (Some ("permission denied for session "
                                  +:+ xid_String (outgoing.SID e)), s)
            end
    end.

(** The shape the four relay handlers share. *)
Definition relay_shape (sender peer : ws.RoomSession → ID)
    (tag : outgoing.P2PMessage → outgoing.Message)
    (e : outgoing.P2PMessage) (current : ws.ClientInfo)
  : ws.Hub (option string) :=
  ws.bind ws.get (fun s =>
    match ws.Rooms_CurrentRoom s current with
    | ws.Err err => ws.ret (Some err)
    | ws.Ok room =>
        ws.bind (ws.deref_room room) (fun x =>
          match ws.Sessions x !! outgoing.SID e with
          | None => ws.ret None
          | Some session =>
              if bool_decide (sender session ≠ ws.ClientInfo_ID current) then
                ws.ret (Some ("permission denied for session "
                                +:+ xid_String (outgoing.SID e)))
              else
                ws.bind (ws.deref_user room (peer session)) (fun u =>
                  ws.bind (ws.User_WriteTimeout u (tag e)) (fun _ =>
                    ws.ret None))
          end)
    end).

End relay_notions.

Section join_notions.
Context `{Runtime}.

(** The members for which a join opens a session: the streaming ones, the
    sender apart. *)
Definition joins_as_client (client : ID) (entry : ID * ws.User) : bool :=
  negb (bool_decide (client = ws.User_ID entry.2) || negb (ws.Streaming entry.2)).

(** The sessions a join records: one for each member of [opened], under the
    id drawn at the given tick. *)
Definition record_sessions (client : ID) (opened : list ((ID * ws.User) * N))
    (m : gmap N ws.RoomSession) : gmap N ws.RoomSession :=
  foldl (fun m on =>
           <[xid_New on.2 := {| ws.Host := ws.User_ID on.1.2;
                                ws.Client := client |}]> m)
        m opened.

(** The two messages that announce a session: to the host on its channel,
    to the client on the channel [ch]. *)
Definition session_messages (client : ID) (ch : Chan)
    (on : (ID * ws.User) * N) (p : ws.Delivery * ws.Delivery) : Prop :=
  ws.to p.1 = ws._write on.1.2
  ∧ (∃ ice, ws.msg p.1 = outgoing.HostSession client (xid_New on.2) ice)
  ∧ ws.to p.2 = ch
  ∧ (∃ ice, ws.msg p.2
            = outgoing.ClientSession (ws.User_ID on.1.2) (xid_New on.2) ice).

(** The name a join gives the sender, and the user it records. *)
Definition join_name (e : ws.Join) (current : ws.ClientInfo) (s : ws.Rooms)
  : string :=
  let name :=
    if ws.Authenticated current then ws.AuthenticatedUser current
    else ws.UserName e in
  if bool_decide (name = "") then NewUserName (ws.r s) else name.

Definition joined_user (e : ws.Join) (current : ws.ClientInfo) (s : ws.Rooms)
  : ws.User :=
  {| ws.User_ID := ws.ClientInfo_ID current;
     ws.User_Addr := ws.ClientInfo_Addr current;
     ws.Name := join_name e current s;
     ws.Streaming := false;
     ws.Owner := false;
     ws._write := ws.Write current |}.

(** [Join.Execute] from the point where the name of the user is known. *)
Definition join_enter (room : string) (x : ws.Room) (user : ws.User)
  : ws.Hub (option string) :=
  ws.bind (ws.update_room room (ws.set_Users (insert (ws.User_ID user) user)))
    (fun _ =>
  ws.bind (ws.modify (ws.set_connected (insert (ws.User_ID user) (ws.Room_ID x))))
    (fun _ =>
  ws.bind (ws.Room_notifyInfoChanged room) (fun _ =>
  ws.bind (ws.modify (ws.set_metrics ws.inc_usersJoinedTotal)) (fun _ =>
  ws.bind ws.TurnIPProvider_Get (fun addrs =>
    match addrs with
    | config.GetErr err => ws.ret (Some err)
    | config.GetOk v4 v6 =>
        ws.bind (ws.deref_room room) (fun x =>
        ws.bind (ws.range (ws.Users x)) (fun members =>
        ws.bind
          (ws.forEach members (fun entry =>
             if bool_decide (ws.User_ID user = ws.User_ID entry.2)
                || negb (ws.Streaming entry.2)
             then ws.ret tt
             else ws.Room_newSession room (ws.User_ID entry.2)
                    (ws.User_ID user) v4 v6))
          (fun _ => ws.ret None)))
    end))))).

End join_notions.

(** The example hub with an address provider that fails, and an
    authenticated connection whose username is empty. *)
Definition example_hub_no_addresses : ws.Rooms :=
  {| ws.turnServer := ws.turnServer example_hub;
     ws.Rooms_Rooms := ws.Rooms_Rooms example_hub;
     ws.connected := ws.connected example_hub;
     ws.conf :=
       {| config.TurnPort := "3478";
          config.TurnIPProvider := fun _ => config.GetErr "no public address";
          config.TurnExternalSecret := "s3cr3t" |};
     ws.r := 0; ws.tick := 0; ws.now := 0; ws.sent := [];
     ws.metrics := ws.Build_Metrics 0 0 0 0 0 |}.

Definition client_E : ws.ClientInfo :=
  {| ws.ClientInfo_ID := 4; ws.Authenticated := true;
     ws.AuthenticatedUser := ""; ws.Write := 104;
     ws.ClientInfo_Addr := Some [192; 0; 2; 4] |}.

(** ** The invariant of the hub

    Every room is held under its own id, which is not empty (the empty
    string is the membership record of a connection that is in no room);
    every user is held under its own id; and the membership record of every
    user of a room is the id of that room. *)
Definition hub_wf (s : ws.Rooms) : Prop :=
  (∀ (room : string) (x : ws.Room),
     ws.Rooms_Rooms s !! room = Some x → room ≠ "" ∧ ws.Room_ID x = room)
  ∧ (∀ (room : string) (x : ws.Room) (k : ID) (u : ws.User),
       ws.Rooms_Rooms s !! room = Some x → ws.Users x !! k = Some u →
       ws.User_ID u = k ∧ ws.connected s !! k = Some room).

(** No connection is a user of two rooms. *)
Definition exclusive (s : ws.Rooms) : Prop :=
  ∀ (id : ID) (room1 room2 : string) (x1 x2 : ws.Room),
    ws.Rooms_Rooms s !! room1 = Some x1 →
    ws.Rooms_Rooms s !! room2 = Some x2 →
    is_Some (ws.Users x1 !! id) → is_Some (ws.Users x2 !! id) →
    room1 = room2.

Definition join_or_disconnect (m : ws.ClientMessage) : Prop :=
  match ws.Incoming m with
  | ws.EvJoin _ | ws.EvDisconnected _ => True
  | _ => False
  end.

(** A message at which the command [serve] gives up. *)
Definition gives_up (err : cmd.FutureLog) : Prop :=
  cmd.FutureLog_Level err = cmd.FatalLevel
  ∨ cmd.FutureLog_Level err = cmd.PanicLevel.

(** ** Goroutines inside [once.Do] *)
Section Do_notions.
Context {E : Type}.

(** The points at which a goroutine holds the mutex. *)
Definition holds_lock (pc : ws.Do_pc E) : Prop :=
  match pc with
  | ws.AtCheck | ws.AtStore | ws.AtUnlock _ => True
  | _ => False
  end.

(** The points of the goroutine to which [mayExecute] answers [true]. *)
Definition may_execute (pc : ws.Do_pc E) : Prop :=
  match pc with
  | ws.AtUnlock true | ws.AtCall | ws.InCall _ => True
  | _ => False
  end.

(** How far that goroutine is with its function [f], given what was
    performed so far. *)
Definition progress (pc : ws.Do_pc E) (f performed : list E) : Prop :=
  match pc with
  | ws.AtUnlock true | ws.AtCall => performed = []
  | ws.InCall rest => performed ++ rest = f
  | ws.Returned => performed = f
  | _ => False
  end.

(** What holds of every state the goroutines calling [Do] with the
    functions [fs] can reach. *)
Record Do_inv (fs : list (list E)) (σ : ws.Do_state E) : Prop := {
  inv_funcs : (ws.Do_goroutines σ).*2 = fs;
  inv_unlocked :
    ws.Do_locked σ = false →
    ∀ i g, ws.Do_goroutines σ !! i = Some g → ¬ holds_lock g.1;
  inv_locked :
    ws.Do_locked σ = true →
    ∃ i g, ws.Do_goroutines σ !! i = Some g ∧ holds_lock g.1;
  inv_holder :
    ∀ i j gi gj,
      ws.Do_goroutines σ !! i = Some gi → ws.Do_goroutines σ !! j = Some gj →
      holds_lock gi.1 → holds_lock gj.1 → i = j;
  inv_late :
    ∀ i g, ws.Do_goroutines σ !! i = Some g →
      g.1 = ws.Returned ∨ g.1 = ws.AtUnlock false → ws.Do_done σ = 1;
  inv_winner :
    (ws.Do_done σ = 0 ∧ ws.Do_performed σ = []
     ∧ ∀ i g, ws.Do_goroutines σ !! i = Some g → ¬ may_execute g.1)
    ∨ (ws.Do_done σ = 1
       ∧ ∃ i g, ws.Do_goroutines σ !! i = Some g
           ∧ progress g.1 g.2 (ws.Do_performed σ)
           ∧ ∀ j g', j ≠ i → ws.Do_goroutines σ !! j = Some g' →
               ¬ may_execute g'.1 ∧ g'.1 ≠ ws.AtStore);
}.

End Do_notions.

(** ** Closing a connection *)

(** A call of one of the two closing methods of a client. *)
Inductive CloseCall :=
| CallCloseOnError (code : Z) (reason : string)
| CallCloseOnDone (code : Z) (reason : string).

Definition close_call (call : CloseCall) (c : ws.Client_) : ws.Client_ :=
  match call with
  | CallCloseOnError code reason => ws.Client_CloseOnError code reason c
  | CallCloseOnDone code reason => ws.Client_CloseOnDone code reason c
  end.

(** The function the call hands to [once.Do]. *)
Definition close_func (info : ws.ClientInfo) (call : CloseCall) : list ws.IO :=
  match call with
  | CallCloseOnError code reason => ws.CloseOnError_func info code reason
  | CallCloseOnDone code reason => ws.Client_writeCloseMessage code reason
  end.

(** The close frames written and the events put on [read], among the
    effects [io]. *)
Definition close_frames (io : list ws.IO) : list (Z * string) :=
  io ≫= fun e => match e with
                 | ws.conn_WriteControl_Close code reason _ => [(code, reason)]
                 | _ => []
                 end.

Definition read_sends (io : list ws.IO) : list ws.ClientMessage :=
  io ≫= fun e => match e with ws.read_send m => [m] | _ => [] end.

Definition json_written (io : list ws.IO) : list ws.Typed :=
  io ≫= fun e => match e with ws.conn_writeJSON typed => [typed] | _ => [] end.

Section reader_notions.
Variable json_Decode : string → ws.result ws.Typed.
Variable json_Unmarshal : string → ws.Event → ws.result ws.Event.
Variable provider : gmap string ws.Event.

(** The event a frame carries: a frame that is not binary and whose text
    decodes to an event of a registered type. *)
Definition frame_event (fr : ws.NextReader) : option ws.Event :=
  match fr with
  | ws.NextReader_err _ => None
  | ws.NextReader_ok t m =>
      if bool_decide (t = ws.BinaryMessage) then None
      else
        match ws.ReadTypedIncoming json_Decode json_Unmarshal provider m with
        | ws.Ok incoming => Some incoming
        | ws.Err _ => None
        end
  end.

(** The close code and the reason for a frame that carries no event. *)
Definition frame_close (fr : ws.NextReader) : Z * string :=
  match fr with
  | ws.NextReader_err err => (1000%Z, "read error: " +:+ err)
  | ws.NextReader_ok t m =>
      if bool_decide (t = ws.BinaryMessage) then
        (1003%Z, "unsupported binary message type")
      else
        match ws.ReadTypedIncoming json_Decode json_Unmarshal provider m with
        | ws.Ok _ => (1000%Z, "")
        | ws.Err err => (1003%Z, "malformed message: " +:+ err)
        end
  end.

End reader_notions.

Section writer_notions.
Variable json_Marshal : outgoing.Message → ws.result string.
Variable Message_Type : outgoing.Message → string.

(** The event is the request to close the writer. *)
Definition closes_writer (ev : ws.WriteEvent) : bool :=
  match ev with
  | ws.Write_recv (outgoing.CloseWriter _ _) _ => true
  | _ => false
  end.

(** What the write loop hands to [writeJSON] for an event. *)
Definition written (ev : ws.WriteEvent) : list ws.Typed :=
  match ev with
  | ws.Write_recv message _ =>
      if closes_writer ev then []
      else
        match ws.ToTypedOutgoing json_Marshal Message_Type message with
        | ws.Ok typed => [typed]
        | ws.Err _ => []
        end
  | ws.pingTicker_C _ => []
  end.

End writer_notions.

(** A JSON reader for the examples: the text "join" is a join event for the
    room "r1", the text "nope" an event of a type that is not registered,
    any other text is not JSON. *)
Definition example_Decode (r : string) : ws.result ws.Typed :=
  if bool_decide (r = "join") then
    ws.Ok {| ws.Typed_Type := "join"; ws.Typed_Payload := "r1" |}
  else if bool_decide (r = "nope") then
    ws.Ok {| ws.Typed_Type := "nope"; ws.Typed_Payload := "" |}
  else ws.Err "invalid character".

Definition example_Unmarshal (payload : string) (e : ws.Event)
  : ws.result ws.Event :=
  match e with
  | ws.EvJoin _ => ws.Ok (ws.EvJoin {| ws.Join_ID := payload; ws.UserName := "" |})
  | _ => ws.Ok e
  end.

Definition example_provider : gmap string ws.Event :=
  <["join" := ws.EvJoin {| ws.Join_ID := ""; ws.UserName := "" |}]>
    (<["share" := ws.EvStartShare]> ∅).

Definition example_client : ws.Client_ :=
  {| ws.Client_info :=
       {| ws.ClientInfo_ID := 4; ws.Authenticated := false;
          ws.AuthenticatedUser := ""; ws.Write := 104;
          ws.ClientInfo_Addr := Some [192; 0; 2; 4] |};
     ws.Client_once := {| ws.done := 0 |};
     ws.Client_io := [] |}.

(** Whether the [once] of the client can still let a function run. *)
Definition once_unused (c : ws.Client_) : nat :=
  if bool_decide (ws.done (ws.Client_once c) = 0) then 1%nat else 0%nat.

(** From [c] to [c1] the client performed the effects [io]: a close frame
    was written exactly when the [once] was used up, and at most one event
    was put on [read]. *)
Definition performs (c c1 : ws.Client_) (io : list ws.IO) : Prop :=
  ws.Client_info c1 = ws.Client_info c
  ∧ ws.Client_io c1 = ws.Client_io c ++ io
  ∧ (length (close_frames io) + once_unused c1 = once_unused c)%nat
  ∧ (length (read_sends io) + once_unused c1 ≤ once_unused c)%nat.

(** ** Sharing and its end *)

(** The delivery [d] tells the client of the session [entry], a member of
    the room [x], that the share has ended. *)
Definition ends_share (x : ws.Room) (entry : ID * ws.RoomSession)
    (d : ws.Delivery) : Prop :=
  ∃ client : ws.User,
    ws.Users x !! ws.Client entry.2 = Some client
    ∧ ws.to d = ws._write client
    ∧ ws.msg d = outgoing.EndShare entry.1.

Section share_notions.
Context `{Runtime}.

(** The sessions a share records: one for each member of [opened], under
    the id drawn at the given tick, with the sender as host. *)
Definition record_hosted (host : ID) (opened : list ((ID * ws.User) * N))
    (m : gmap N ws.RoomSession) : gmap N ws.RoomSession :=
  foldl (fun m on =>
           <[xid_New on.2 := {| ws.Host := host;
                                ws.Client := ws.User_ID on.1.2 |}]> m)
        m opened.

(** The two messages that announce such a session: to the host on the
    channel [ch], to the client on its own. *)
Definition share_messages (host : ID) (ch : Chan)
    (on : (ID * ws.User) * N) (p : ws.Delivery * ws.Delivery) : Prop :=
  ws.to p.1 = ch
  ∧ (∃ ice, ws.msg p.1
            = outgoing.HostSession (ws.User_ID on.1.2) (xid_New on.2) ice)
  ∧ ws.to p.2 = ws._write on.1.2
  ∧ (∃ ice, ws.msg p.2 = outgoing.ClientSession host (xid_New on.2) ice).

End share_notions.

(** ** The invariant of the rooms

    Beside [hub_wf]: a connection whose membership record names a room is a
    user of that room, and the two parties of every session of a room are
    users of the room. *)
Definition members_wf (s : ws.Rooms) : Prop :=
  ∀ (id : ID) (room : string),
    ws.connected s !! id = Some room → room ≠ "" →
    ∃ x : ws.Room,
      ws.Rooms_Rooms s !! room = Some x ∧ is_Some (ws.Users x !! id).

Definition parties_present (x : ws.Room) : Prop :=
  ∀ (sid : ID) (session : ws.RoomSession),
    ws.Sessions x !! sid = Some session →
    is_Some (ws.Users x !! ws.Host session)
    ∧ is_Some (ws.Users x !! ws.Client session).

Definition sessions_wf (s : ws.Rooms) : Prop :=
  ∀ (room : string) (x : ws.Room),
    ws.Rooms_Rooms s !! room = Some x → parties_present x.

Definition rooms_wf (s : ws.Rooms) : Prop :=
  hub_wf s ∧ members_wf s ∧ sessions_wf s.

(** The events whose handlers are among the sources. *)
Definition handler_in_sources (ev : ws.Event) : Prop :=
  match ev with
  | ws.EvJoin _ | ws.EvStartShare | ws.EvStopShare
  | ws.EvHostOffer _ | ws.EvHostICE _ | ws.EvClientAnswer _ => True
  | ws.EvClientICE _ | ws.EvConnected | ws.EvDisconnected _ => False
  end.

(** The example room with a session whose client, 9, is not a member. *)
Definition example_hub_dangling : ws.Rooms :=
  ws.set_Rooms
    (insert "r1"
       (ws.set_Sessions (insert 7 {| ws.Host := 1; ws.Client := 9 |})
          example_room))
    example_hub.

(** The calls of [writeTimeout] that gave up. *)
Definition dropped (ds : list ws.Delivery) : nat :=
  length (filter (fun d => ws.accepted d = false) ds).

(** The connection of C, the idle member of the example room. *)
Definition client_C : ws.ClientInfo :=
  {| ws.ClientInfo_ID := 3; ws.Authenticated := false;
     ws.AuthenticatedUser := ""; ws.Write := 103;
     ws.ClientInfo_Addr := Some [192; 0; 2; 3] |}.

(** ** Hubs with a second room

    The example hub with an empty second room "r2", and with an empty room
    held under the empty id. *)
Definition example_room_r2 : ws.Room :=
  {| ws.Room_ID := "r2"; ws.CloseOnOwnerLeave := false;
     ws.Mode := ws.ConnectionLocal; ws.Users := ∅; ws.Sessions := ∅ |}.

Definition example_hub_two_rooms : ws.Rooms :=
  ws.set_Rooms (insert "r2" example_room_r2) example_hub.

Definition example_room_unnamed : ws.Room :=
  {| ws.Room_ID := ""; ws.CloseOnOwnerLeave := false;
     ws.Mode := ws.ConnectionLocal; ws.Users := ∅; ws.Sessions := ∅ |}.

Definition example_hub_unnamed_room : ws.Rooms :=
  ws.set_Rooms (insert "" example_room_unnamed) example_hub.

(** ** The relay's side of an external credential

    What the operator of a relay that shares the secret does with a
    credential, by the convention for ephemeral credentials the design
    document names: the text of the username before its first colon is the
    expiry, a decimal number of seconds, and the rest is the id; the
    signature is the base64 text of the HMAC of the username, computed as
    RFC 2104 words it. *)
Definition digit_value (c : ascii) : option N :=
  let n := Ascii.N_of_ascii c in
  if (48 <=? n) && (n <=? 57) then Some (n - 48) else None.

Fixpoint parse_digits (s : string) (acc : N) : option N :=
  match s with
  | EmptyString => Some acc
  | String c s' =>
      match digit_value c with
      | Some d => parse_digits s' (10 * acc + d)
      | None => None
      end
  end.

Definition parse_decimal (s : string) : option Z :=
  match s with
  | EmptyString => None
  | String c s' =>
      if Ascii.eqb c "-" then
        match s' with
        | EmptyString => None
        | _ => (fun n => (- Z.of_N n)%Z) <$> parse_digits s' 0
        end
      else Z.of_N <$> parse_digits s 0
  end.

Fixpoint split_colon (s : string) : option (string * string) :=
  match s with
  | EmptyString => None
  | String c s' =>
      if Ascii.eqb c ":" then Some (EmptyString, s')
      else match split_colon s' with
           | Some (a, b) => Some (String c a, b)
           | None => None
           end
  end.

Definition parse_username (username : string) : option (Z * string) :=
  match split_colon username with
  | Some (ts, id) =>
      match parse_decimal ts with
      | Some expiry => Some (expiry, id)
      | None => None
      end
  | None => None
  end.

(** RFC 2104, section 2, over a hash [H] with blocks of [B] bytes: a key
    longer than [B] is hashed first; (1) append zeros to the key up to [B]
    bytes; (2) xor it with ipad, [B] times the byte 0x36; (3) append the
    text; (4) apply [H]; (5) xor the key of (1) with opad, [B] times the
    byte 0x5C; (6) append the result of (4); (7) apply [H]. *)
Definition rfc2104_hmac (H : list N → list N) (B : nat) (K text : list N)
  : list N :=
  let K := if (B <? length K)%nat then H K else K in
  let K := K ++ replicate (B - length K)%nat 0 in
  let ipad := replicate B 0x36 in
  let opad := replicate B 0x5C in
  H (zip_with N.lxor K opad ++ H (zip_with N.lxor K ipad ++ text)).

Definition relay_signature (secret : list N) (username : string) : string :=
  crypto.base64_StdEncoding
    (rfc2104_hmac crypto.sha1 64 secret (crypto.bytes_of_string username)).

(** The issuer of the design document's example. *)
Definition example_external_issuer : turn.ExternalServer :=
  turn.newExternalServer
    {| config.TurnPort := "3478";
       config.TurnIPProvider := fun _ => config.GetOk None None;
       config.TurnExternalSecret := "s3cr3t" |}.

(** * Properties *)

Import ws.

(** ** The library functions on known values

    The test vectors of FIPS 180, RFC 2202 and RFC 4648, and the id of the
    xid documentation. *)

Example sha1_abc :
  crypto.sha1 (crypto.bytes_of_string "abc")
  = [0xa9; 0x99; 0x3e; 0x36; 0x47; 0x06; 0x81; 0x6a; 0xba; 0x3e;
     0x25; 0x71; 0x78; 0x50; 0xc2; 0x6c; 0x9c; 0xd0; 0xd8; 0x9d].
Proof. vm_compute. reflexivity. Qed.

Example sha1_two_blocks :
  crypto.sha1
    (crypto.bytes_of_string
       "abcdbcdecdefdefgefghfghighijhijkijkljklmklmnlmnomnopnopq")
  = [0x84; 0x98; 0x3e; 0x44; 0x1c; 0x3b; 0xd2; 0x6e; 0xba; 0xae;
     0x4a; 0xa1; 0xf9; 0x51; 0x29; 0xe5; 0xe5; 0x46; 0x70; 0xf1].
Proof. vm_compute. reflexivity. Qed.

Example hmac_sha1_jefe :
  crypto.hmac_sha1 (crypto.bytes_of_string "Jefe")
    (crypto.bytes_of_string "what do ya want for nothing?")
  = [0xef; 0xfc; 0xdf; 0x6a; 0xe5; 0xeb; 0x2f; 0xa2; 0xd2; 0x74;
     0x16; 0xd5; 0xf1; 0x84; 0xdf; 0x9c; 0x25; 0x9a; 0x7c; 0x79].
Proof. vm_compute. reflexivity. Qed.

Example base64_foobar :
  crypto.base64_StdEncoding (crypto.bytes_of_string "f") = "Zg=="
  ∧ crypto.base64_StdEncoding (crypto.bytes_of_string "fo") = "Zm8="
  ∧ crypto.base64_StdEncoding (crypto.bytes_of_string "foo") = "Zm9v"
  ∧ crypto.base64_StdEncoding (crypto.bytes_of_string "foobar") = "Zm9vYmFy".
Proof. vm_compute. done. Qed.

Example xid_String_known :
  xid_String 0x4d88e15b60f486e428412dc9 = "9m4e2mr0ui3e8a215n4g".
Proof. vm_compute. reflexivity. Qed.

(** ** The external issuer *)

(** With the issuer [newExternalServer] builds, a credential expires one day
    after it is issued. *)
Lemma newExternalServer_expiry (conf : config.Config) (now : Z) :
  turn.Unix (now + turn.ttl (turn.newExternalServer conf)) = (turn.Unix now + 86400)%Z.
Proof.
  unfold turn.Unix.
  change (turn.ttl (turn.newExternalServer conf)) with (86400 * 1000000000)%Z.
  change (Z.of_N Second) with 1000000000%Z.
  rewrite Z.div_add by lia. reflexivity.
Qed.

(** The design document's example: secret "s3cr3t", id "abc", the clock at
    1700000000 seconds. *)
Example external_credentials_s3cr3t_abc :
  turn.ExternalServer_Credentials
    (turn.newExternalServer
       {| config.TurnPort := "3478";
          config.TurnIPProvider := fun _ => config.GetOk None None;
          config.TurnExternalSecret := "s3cr3t" |})
    "abc" None (1700000000 * 1000000000)%Z
  = ("1700086400:abc", "C2gkRwmvCu0DCGZ5v+NzhDBggFA=").
Proof. vm_compute. reflexivity. Qed.

(** ** The co-located issuer *)

Section internal_issuer.
Context `{Runtime}.

(** C10.  [Credentials(id, addr)] stores the caller's address in the entry it
    records under the username, and afterwards [authenticate] returns the
    derived key of that username to a requester at any address and for any
    realm: the stored address takes no part in the answer. *)
Theorem authenticate_ignores_bound_address
    (a : turn.InternalServer) (id : string) (addr : IP) (tick : N) :
  ∃ (username password : string) (a' : turn.InternalServer),
    turn.InternalServer_Credentials a id addr tick = ((username, password), a')
    ∧ username = id
    ∧ turn.lookup a' !! username
      = Some {| turn.addr := addr;
                turn.password := GenerateAuthKey username turn.Realm password |}
    ∧ (∀ (realm : string) (requester : turn.Addr),
         turn.InternalServer_authenticate a' username realm requester
         = (GenerateAuthKey username turn.Realm password, true))
    ∧ (∀ (b : turn.InternalServer) (u realm : string) (r1 r2 : turn.Addr),
         turn.InternalServer_authenticate b u realm r1
         = turn.InternalServer_authenticate b u realm r2).
Proof.
  eexists _, _, _. split; [reflexivity|]. split; [reflexivity|].
  assert (Hl : turn.lookup (turn.InternalServer_allow a id (RandString tick 20) addr) !! id
    = Some {| turn.addr := addr;
              turn.password := GenerateAuthKey id turn.Realm (RandString tick 20) |}).
  { unfold turn.InternalServer_allow; simpl. apply lookup_insert_eq. }
  split; [exact Hl|]. split.
  - intros realm requester. unfold turn.InternalServer_authenticate.
    rewrite Hl. reflexivity.
  - intros. reflexivity.
Qed.

End internal_issuer.


(** ** Selects with a timer *)

Arguments select_chan_or_timer : simpl never.

Lemma select_chan_or_timer_bound (ready : option N) (timer : N) (coin : bool) :
  (select_chan_or_timer ready timer coin).2 ≤ timer.
Proof.
  unfold select_chan_or_timer. destruct ready as [t|]; simpl; [|lia].
  destruct (N.ltb_spec t timer); simpl; [lia|].
  destruct (N.eqb_spec t timer); simpl; lia.
Qed.

Lemma select_timer_won (ready : option N) (timer : N) (coin : bool) :
  (select_chan_or_timer ready timer coin).1 = false →
  (select_chan_or_timer ready timer coin).2 = timer.
Proof.
  unfold select_chan_or_timer. destruct ready as [t|]; simpl; [|done].
  destruct (N.ltb_spec t timer); simpl; [done|].
  destruct (N.eqb_spec t timer); simpl; done.
Qed.

Lemma select_chan_won (ready : option N) (timer : N) (coin : bool) :
  (select_chan_or_timer ready timer coin).1 = true →
  ∃ t, ready = Some t ∧ t ≤ timer ∧ (select_chan_or_timer ready timer coin).2 = t.
Proof.
  unfold select_chan_or_timer. destruct ready as [t|]; simpl; [|done].
  destruct (N.ltb_spec t timer); simpl.
  - intros _. exists t. split_and!; [done|lia|done].
  - destruct (N.eqb_spec t timer); simpl; [|done].
    intros _. exists t. split_and!; [done|lia|congruence].
Qed.

Lemma select_early (t timer : N) (coin : bool) :
  t < timer → select_chan_or_timer (Some t) timer coin = (true, t).
Proof.
  intros Hlt. unfold select_chan_or_timer.
  destruct (N.ltb_spec t timer); [done|lia].
Qed.

Lemma select_late (ready : option N) (timer : N) (coin : bool) :
  (∀ t, ready = Some t → timer < t) →
  select_chan_or_timer ready timer coin = (false, timer).
Proof.
  intros Hlate. unfold select_chan_or_timer. destruct ready as [t|]; [|done].
  specialize (Hlate t eq_refl).
  destruct (N.ltb_spec t timer); [lia|].
  destruct (N.eqb_spec t timer); [lia|done].
Qed.

(** ** The room-count query *)

(** The probe is accepted after three seconds and answered three seconds
    later.  Two independent timeouts of five seconds would let the count
    through; the query reports that the main loop did not respond. *)
Lemma count_timeouts_not_independent :
  Rooms_Count (Some (3 * Second)) (Some (3 * Second)) 7 true true
  = ((-1, "main loop didn't respond to a message within 5 second")%Z, 5 * Second)
  ∧ Count_independent_timeouts (Some (3 * Second)) (Some (3 * Second)) 7 true true
    = ((7, "")%Z, 6 * Second)
  ∧ ¬ (∀ accept reply count coin1 coin2,
         Rooms_Count accept reply count coin1 coin2
         = Count_independent_timeouts accept reply count coin1 coin2).
Proof.
  split_and!; [reflexivity..|].
  intros Heq.
  specialize (Heq (Some (3 * Second)) (Some (3 * Second)) 7%Z true true).
  vm_compute in Heq. discriminate.
Qed.

(** C8 (amended).  The query starts one timer of five seconds and uses it in
    both waits.  It returns within five seconds of the call.  It returns the
    count when the probe is accepted and the reply is there before the five
    seconds are over, and only then; it reports that the main loop did not
    accept the probe when the timer fires in the first wait, and, with a
    different reason, that it did not respond when the timer fires in the
    second. *)
Theorem count_shares_one_deadline
    (accept reply : option N) (count : Z) (coin1 coin2 : bool) :
  let deadline := 5 * Second in
  let result := Rooms_Count accept reply count coin1 coin2 in
  result.2 ≤ deadline
  ∧ (∀ a d, accept = Some a → reply = Some d → a + d < deadline →
       result = ((count, ""), a + d))
  ∧ (result.1.2 = "" →
       ∃ a d, accept = Some a ∧ reply = Some d ∧ a + d ≤ deadline
              ∧ result = ((count, ""), a + d))
  ∧ ((∀ a, accept = Some a → deadline < a) →
       result
       = ((-1, "main loop didn't accept a message within 5 second")%Z, deadline))
  ∧ (∀ a, accept = Some a → a < deadline →
       (∀ d, reply = Some d → deadline < a + d) →
       result
       = ((-1, "main loop didn't respond to a message within 5 second")%Z,
          deadline))
  ∧ "main loop didn't accept a message within 5 second"
    ≠ "main loop didn't respond to a message within 5 second".
Proof.
  intros deadline result. subst result. unfold Rooms_Count. cbv zeta.
  fold deadline. clearbody deadline. split_and!.
  - pose proof (select_chan_or_timer_bound accept deadline coin1) as Hb1.
    destruct (select_chan_or_timer accept deadline coin1) as [taken t1] eqn:E1.
    simpl in Hb1. destruct taken; simpl; [|done].
    pose proof (select_chan_or_timer_bound reply (deadline - t1) coin2) as Hb2.
    destruct (select_chan_or_timer reply (deadline - t1) coin2) as [answered t2].
    simpl in Hb2. destruct answered; simpl; lia.
  - intros a d -> -> Hlt.
    rewrite select_early by lia. simpl.
    rewrite select_early by lia. reflexivity.
  - pose proof (select_chan_won accept deadline coin1) as Hw1.
    destruct (select_chan_or_timer accept deadline coin1) as [taken t1] eqn:E1.
    destruct taken; simpl; [|done].
    destruct (Hw1 eq_refl) as (a & -> & Ha & Ht1). simpl in Ht1. subst t1.
    pose proof (select_chan_won reply (deadline - a) coin2) as Hw2.
    destruct (select_chan_or_timer reply (deadline - a) coin2) as [answered t2].
    destruct answered; simpl; [|done].
    destruct (Hw2 eq_refl) as (d & -> & Hd & Ht2). simpl in Ht2. subst t2.
    intros _. exists a, d. split_and!; [done|done|lia|done].
  - intros Hlate. rewrite select_late by done. reflexivity.
  - intros a -> Ha Hlate.
    rewrite select_early by lia. simpl.
    rewrite select_late; [|intros d Hd; specialize (Hlate d Hd); lia].
    simpl. f_equal. lia.
  - discriminate.
Qed.

Lemma count_shares_one_deadline_witness :
  Rooms_Count (Some Second) (Some Second) 3 true true = ((3, "")%Z, 2 * Second).
Proof.
  pose proof (count_shares_one_deadline (Some Second) (Some Second) 3 true true)
    as (_ & Hok & _).
  apply (Hok Second Second); [reflexivity|reflexivity|reflexivity].
Defined.

(** ** Bounded delivery *)

Section delivery.
Context `{Runtime}.

(** C9.  A call of [writeTimeout] always returns, at most two seconds after
    it started.  It adds exactly one record to the calls.  When the reader
    of the channel takes the message before the two seconds have passed,
    the call returns at that moment and the message is delivered, once.
    When the reader would take it only later, or never, the call returns
    after two seconds, and the message is logged as a warning and not
    delivered.  (When the reader is ready exactly as the timer fires, the
    select picks either.)  The call does not try again, and touches nothing
    else of the rooms. *)
Theorem writeTimeout_bounded_delivery
    (ch : Chan) (m : outgoing.Message) (s : Rooms) :
  ∃ (s' : Rooms) (took : bool),
    writeTimeout ch m s = Some (tt, s')
    ∧ (now s ≤ now s' ≤ now s + Z.of_N (2 * Second))%Z
    ∧ sent s' = sent s ++ [{| to := ch; msg := m; accepted := took |}]
    ∧ (if took
       then delivered s' = delivered s ++ [(ch, m)] ∧ warnings s' = warnings s
            ∧ ∃ t : N, chan_ready (tick s) ch = Some t
                       ∧ t ≤ 2 * Second
                       ∧ now s' = (now s + Z.of_N t)%Z
       else delivered s' = delivered s ∧ warnings s' = warnings s ++ [m]
            ∧ now s' = (now s + Z.of_N (2 * Second))%Z
            ∧ ∀ t : N, chan_ready (tick s) ch = Some t → 2 * Second ≤ t)
    ∧ (∀ t : N, chan_ready (tick s) ch = Some t → t < 2 * Second →
         took = true)
    ∧ ((∀ t : N, chan_ready (tick s) ch = Some t → 2 * Second < t) →
         took = false)
    ∧ Rooms_Rooms s' = Rooms_Rooms s
    ∧ connected s' = connected s
    ∧ turnServer s' = turnServer s.
Proof.
  unfold writeTimeout, bind, draw, modify. simpl.
  set (ready := chan_ready (tick s) ch).
  set (coin := select_coin (tick s)).
  pose proof (select_chan_or_timer_bound ready (2 * Second) coin) as Hb.
  pose proof (select_timer_won ready (2 * Second) coin) as Hw.
  pose proof (select_chan_won ready (2 * Second) coin) as Hc.
  assert (Hearly : ∀ t, ready = Some t → t < 2 * Second →
                     (select_chan_or_timer ready (2 * Second) coin).1 = true).
  { intros t -> Ht. by rewrite select_early. }
  assert (Hlate : (∀ t, ready = Some t → 2 * Second < t) →
                    (select_chan_or_timer ready (2 * Second) coin).1 = false).
  { intros Ht. by rewrite select_late. }
  destruct (select_chan_or_timer ready (2 * Second) coin) as [took elapsed].
  cbn [fst snd] in Hb, Hw, Hc, Hearly, Hlate.
  eexists _, took. split; [reflexivity|]. cbn [now sent set_now set_sent
    set_tick Rooms_Rooms connected turnServer].
  split; [unfold Second in *; lia|]. split; [reflexivity|].
  split; [|by split_and!].
  unfold delivered, warnings; simpl. rewrite !filter_app, !fmap_app.
  destruct took; simpl; rewrite ?app_nil_r.
  - destruct (Hc eq_refl) as (t & Hr & Ht & ->).
    split_and!; [done|done|]. by exists t.
  - rewrite Hw by done. split_and!; [done|done|done|].
    intros t Hr. destruct (N.le_gt_cases (2 * Second) t) as [|Hlt]; [done|].
    by specialize (Hearly t Hr Hlt).
Qed.

End delivery.

(** When no channel is drained, the broadcast to the three members of the
    example room keeps the hub busy for six seconds and delivers nothing. *)
Example stalled_broadcast :
  ∃ s' : Rooms,
    @Room_notifyInfoChanged stalled_runtime "r1" example_hub = Some (tt, s')
    ∧ delivered s' = []
    ∧ length (warnings s') = 3%nat
    ∧ now s' = Z.of_N (6 * Second).
Proof.
  eexists. split; [vm_compute; reflexivity|]. vm_compute. done.
Qed.

(** ** Closing sessions and rooms *)

Section closing.
Context `{Runtime}.

Lemma range_spec {V} (m : gmap N V) (s : Rooms) :
  range m s = Some (range_order (tick s) V m, set_tick (fun n => n + 1) s).
Proof. reflexivity. Qed.

Lemma closeSession_spec (room : string) (x : Room) (id : ID) (s : Rooms) :
  Rooms_Rooms s !! room = Some x →
  Room_closeSession room id s = Some (tt, closeSession_state room x id s).
Proof.
  intros Hx. unfold Room_closeSession, closeSession_state, bind, deref_room.
  rewrite Hx. destruct (bool_decide (Mode x = ConnectionTURN)); reflexivity.
Qed.

Lemma closeSession_state_room (room : string) (x : Room) (id : ID) (s : Rooms) :
  Rooms_Rooms s !! room = Some x →
  Rooms_Rooms (closeSession_state room x id s) !! room
  = Some (set_Sessions (delete id) x).
Proof.
  intros Hx. unfold closeSession_state.
  destruct (bool_decide (Mode x = ConnectionTURN)); simpl;
    by rewrite lookup_alter_eq, Hx.
Qed.

Lemma closeSessions_spec {V} (room : string) (l : list (ID * V)) :
  ∀ (x : Room) (s : Rooms),
    Rooms_Rooms s !! room = Some x →
    forEach l (fun entry => Room_closeSession room entry.1) s
    = Some (tt, closeSessions_state room x l.*1 s).
Proof.
  induction l as [|[id v] l IH]; intros x s Hx; [reflexivity|].
  simpl. unfold bind at 1. rewrite (closeSession_spec room x id s Hx).
  apply IH. by apply closeSession_state_room.
Qed.

Lemma closeSessions_state_fields (room : string) (ids : list ID) :
  ∀ (x : Room) (s : Rooms),
    Rooms_Rooms s !! room = Some x →
    let s' := closeSessions_state room x ids s in
    Rooms_Rooms s'
    = <[room := set_Sessions (fun m => foldl (fun m id => delete id m) m ids) x]>
        (Rooms_Rooms s)
    ∧ connected s' = connected s
    ∧ sent s' = sent s
    ∧ conf s' = conf s
    ∧ r s' = r s
    ∧ now s' = now s
    ∧ tick s' = tick s
    ∧ turnServer s'
      = (if bool_decide (Mode x = ConnectionTURN)
         then foldl revoke_session (turnServer s) ids
         else turnServer s)
    ∧ sessionClosedTotal (metrics s')
      = sessionClosedTotal (metrics s) + N.of_nat (length ids)
    ∧ usersLeftTotal (metrics s') = usersLeftTotal (metrics s)
    ∧ roomsClosedTotal (metrics s') = roomsClosedTotal (metrics s).
Proof.
  induction ids as [|id ids IH]; intros x s Hx; simpl.
  - split_and!; try done.
    + destruct x; simpl. by rewrite insert_id.
    + by destruct (bool_decide _).
    + lia.
  - pose proof (closeSession_state_room room x id s Hx) as Hx'.
    destruct (IH _ _ Hx') as (HR & Hc & Hs & Hcf & Hr & Hn & Ht & HT & Hm & Hu & Hrc).
    rewrite HR, Hc, Hs, Hcf, Hr, Hn, Ht, HT, Hm, Hu, Hrc. clear IH.
    unfold closeSession_state.
    destruct (bool_decide (Mode x = ConnectionTURN)) eqn:E; simpl; rewrite E;
      (split_and!; try done; [|lia]);
      (apply map_eq; intros k; destruct (decide (k = room)) as [->|Hne];
       [by rewrite !lookup_insert_eq
       |by rewrite !lookup_insert_ne, lookup_alter_ne by done]).
Qed.

Lemma foldl_revoke_internal (ids : list ID) (a : turn.InternalServer) :
  ∃ a', foldl revoke_session (turn.Internal a) ids = turn.Internal a'
        ∧ ∀ u, turn.lookup a' !! u
               = if bool_decide
                      (u ∈ ids ≫= fun id => [session_host_name id;
                                             session_client_name id])
                 then None else turn.lookup a !! u.
Proof.
  revert a. induction ids as [|id ids IH]; intros a; simpl.
  - exists a. split; [done|]. intros u. done.
  - destruct (IH (turn.InternalServer_Disallow
                    (turn.InternalServer_Disallow a (session_host_name id))
                    (session_client_name id))) as (a' & Ha' & Hl).
    exists a'. split; [exact Ha'|]. intros u. rewrite Hl. simpl.
    destruct (decide (u = session_host_name id)) as [->|Hh].
    { rewrite (bool_decide_eq_true_2 (_ ∈ _ :: _)) by left.
      destruct (bool_decide _); [done|].
      destruct (decide (session_host_name id = session_client_name id)) as [e|n].
      - rewrite <- e at 1. apply lookup_delete_eq.
      - rewrite lookup_delete_ne by done. apply lookup_delete_eq. }
    destruct (decide (u = session_client_name id)) as [->|Hc].
    { rewrite (bool_decide_eq_true_2 (_ ∈ _ :: _ :: _)) by (right; left).
      destruct (bool_decide _); [done|]. apply lookup_delete_eq. }
    rewrite !lookup_delete_ne by done.
    rewrite (bool_decide_ext (u ∈ _ :: _ :: _) (u ∈ ids ≫= fun id =>
               [session_host_name id; session_client_name id])); [done|].
    rewrite !elem_of_cons. tauto.
Qed.

Lemma foldl_revoke_external (ids : list ID) (a : turn.ExternalServer) :
  foldl revoke_session (turn.External a) ids = turn.External a.
Proof. induction ids as [|id ids IH]; simpl; [done|exact IH]. Qed.

Lemma closeRoom_absent (roomID : string) (s : Rooms) :
  Rooms_Rooms s !! roomID = None → Rooms_closeRoom roomID s = Some (tt, s).
Proof.
  intros Hx. unfold Rooms_closeRoom, bind, get. by rewrite Hx.
Qed.

Lemma closeRoom_present (roomID : string) (x : Room) (s : Rooms) :
  Rooms_Rooms s !! roomID = Some x →
  ∃ (s' : Rooms) (ids : list ID),
    Rooms_closeRoom roomID s = Some (tt, s')
    ∧ ids ≡ₚ (map_to_list (Sessions x)).*1
    ∧ Rooms_Rooms s' = delete roomID (Rooms_Rooms s)
    ∧ connected s' = connected s
    ∧ sent s' = sent s
    ∧ conf s' = conf s
    ∧ r s' = r s
    ∧ now s' = now s
    ∧ turnServer s'
      = (if bool_decide (Mode x = ConnectionTURN)
         then foldl revoke_session (turnServer s) ids
         else turnServer s)
    ∧ sessionClosedTotal (metrics s')
      = sessionClosedTotal (metrics s) + N.of_nat (size (Sessions x))
    ∧ usersLeftTotal (metrics s')
      = usersLeftTotal (metrics s) + N.of_nat (size (Users x))
    ∧ roomsClosedTotal (metrics s') = roomsClosedTotal (metrics s) + 1.
Proof.
  intros Hx. unfold Rooms_closeRoom, bind, get. rewrite Hx. simpl.
  set (s1 := set_tick _ (set_metrics _ s)).
  set (l := range_order _ _ _).
  assert (Hx1 : Rooms_Rooms s1 !! roomID = Some x) by exact Hx.
  rewrite (closeSessions_spec roomID l x s1 Hx1).
  destruct (closeSessions_state_fields roomID l.*1 x s1 Hx1)
    as (HR & Hc & Hs & Hcf & Hr & Hn & Ht & HT & Hm & Hu & Hrc).
  assert (Hl : l.*1 ≡ₚ (map_to_list (Sessions x)).*1).
  { unfold l. by rewrite range_order_perm. }
  eexists _, l.*1. split; [reflexivity|]. simpl.
  rewrite HR, Hc, Hs, Hcf, Hr, Hn, HT, Hm, Hu, Hrc. simpl.
  split_and!; try done.
  - apply delete_insert_eq.
  - rewrite Hl, length_fmap, length_map_to_list. done.
Qed.

(** C6.  [closeRoom] always returns, and calling it again with the same id
    changes nothing.  When the room is absent the state is unchanged.
    Otherwise the room is removed, after each of its sessions was closed:
    closing a session takes it out of the session map of the room and, in
    TURN mode, revokes the two usernames "<sid>host" and "<sid>client", so
    that the table of the co-located issuer loses exactly those names; in the
    other modes the issuer is not touched, and the external issuer, which
    keeps no table, never is. *)
Theorem closeRoom_idempotent (roomID : string) (s : Rooms) :
  ∃ s' : Rooms,
    Rooms_closeRoom roomID s = Some (tt, s')
    ∧ Rooms_closeRoom roomID s' = Some (tt, s')
    ∧ (Rooms_Rooms s !! roomID = None → s' = s)
    ∧ (∀ x : Room, Rooms_Rooms s !! roomID = Some x →
         Rooms_Rooms s' = delete roomID (Rooms_Rooms s)
         ∧ connected s' = connected s
         ∧ sent s' = sent s
         ∧ sessionClosedTotal (metrics s')
           = sessionClosedTotal (metrics s) + N.of_nat (size (Sessions x))
         ∧ (∀ (id : ID) (t : Rooms), Rooms_Rooms t !! roomID = Some x →
              ∃ t' : Rooms,
                Room_closeSession roomID id t = Some (tt, t')
                ∧ Rooms_Rooms t' !! roomID = Some (set_Sessions (delete id) x)
                ∧ turnServer t'
                  = (if bool_decide (Mode x = ConnectionTURN)
                     then turn.Disallow
                            (turn.Disallow (turnServer t)
                               (xid_String id +:+ "host"))
                            (xid_String id +:+ "client")
                     else turnServer t))
         ∧ (Mode x ≠ ConnectionTURN → turnServer s' = turnServer s)
         ∧ (Mode x = ConnectionTURN →
              ∃ ids : list ID,
                ids ≡ₚ (map_to_list (Sessions x)).*1
                ∧ turnServer s' = foldl revoke_session (turnServer s) ids)
         ∧ (Mode x = ConnectionTURN →
              ∀ a : turn.InternalServer, turnServer s = turn.Internal a →
                ∃ a' : turn.InternalServer,
                  turnServer s' = turn.Internal a'
                  ∧ ∀ u : string,
                      turn.lookup a' !! u
                      = if bool_decide (u ∈ session_usernames x) then None
                        else turn.lookup a !! u)
         ∧ (∀ a : turn.ExternalServer, turnServer s = turn.External a →
              turnServer s' = turnServer s)).
Proof.
  destruct (Rooms_Rooms s !! roomID) as [x|] eqn:Hx.
  - destruct (closeRoom_present roomID x s Hx)
      as (s' & ids & Hrun & Hids & HR & Hc & Hs & _ & _ & _ & HT & Hm & _ & _).
    exists s'. split; [exact Hrun|]. split.
    { apply closeRoom_absent. rewrite HR. apply lookup_delete_eq. }
    split; [done|]. intros x' [= <-].
    split_and!; try done.
    + intros id t Ht. eexists. split; [by apply closeSession_spec|].
      split; [by apply closeSession_state_room|].
      unfold closeSession_state.
      destruct (bool_decide (Mode x = ConnectionTURN)); reflexivity.
    + intros Hmode. by rewrite HT, bool_decide_eq_false_2.
    + intros Hmode. exists ids. by rewrite HT, bool_decide_eq_true_2.
    + intros Hmode a Ha. rewrite HT, bool_decide_eq_true_2, Ha by done.
      destruct (foldl_revoke_internal ids a) as (a' & Ha' & Hl).
      exists a'. split; [exact Ha'|]. intros u. rewrite Hl.
      rewrite (bool_decide_ext _ (u ∈ session_usernames x)); [done|].
      unfold session_usernames. by rewrite Hids.
    + intros a Ha. rewrite HT, Ha.
      destruct (bool_decide _); [apply foldl_revoke_external|done].
  - exists s. rewrite closeRoom_absent by done. split_and!; done.
Qed.
End closing.

(** ** Sorting *)

Lemma string_compare_le_trans (a b c : string) :
  String.compare a b ≠ Gt → String.compare b c ≠ Gt → String.compare a c ≠ Gt.
Proof.
  revert b c. induction a as [|c1 a IH]; intros [|c2 b] [|c3 c]; simpl; try done.
  unfold Ascii.compare.
  destruct (N.compare_spec (N_of_ascii c1) (N_of_ascii c2)) as [E12|L12|G12];
    destruct (N.compare_spec (N_of_ascii c2) (N_of_ascii c3)) as [E23|L23|G23];
    try done;
    destruct (N.compare_spec (N_of_ascii c1) (N_of_ascii c3)) as [E13|L13|G13];
    try done; try lia.
  apply IH.
Qed.

Lemma string_lt_asym (a b : string) :
  string_lt a b = true → string_lt b a = false.
Proof.
  unfold string_lt, String.ltb. rewrite (String.compare_antisym b a).
  by destruct (String.compare a b).
Qed.

Lemma string_not_lt_trans (a b c : string) :
  string_lt b a = false → string_lt c b = false → string_lt c a = false.
Proof.
  unfold string_lt, String.ltb. intros Hab Hbc.
  pose proof (string_compare_le_trans a b c) as Ht.
  rewrite (String.compare_antisym b a) in Hab.
  rewrite (String.compare_antisym c b) in Hbc.
  rewrite (String.compare_antisym c a).
  destruct (String.compare a b), (String.compare b c), (String.compare a c);
    simpl in *; try done; exfalso; by apply Ht.
Qed.

Lemma less_comes_first (a b : outgoing.User) :
  less b a = false ↔ comes_first a b.
Proof.
  unfold less, comes_first.
  destruct (outgoing.Owner a), (outgoing.Owner b),
    (outgoing.Streaming a), (outgoing.Streaming b); simpl;
    intuition congruence.
Qed.

Lemma less_asym (a b : outgoing.User) : less a b = true → less b a = false.
Proof.
  unfold less.
  destruct (outgoing.Owner a), (outgoing.Owner b),
    (outgoing.Streaming a), (outgoing.Streaming b); simpl;
    try done; apply string_lt_asym.
Qed.

Lemma comes_first_trans (a b c : outgoing.User) :
  comes_first a b → comes_first b c → comes_first a c.
Proof.
  rewrite <- !less_comes_first. unfold less.
  destruct (outgoing.Owner a), (outgoing.Owner b), (outgoing.Owner c),
    (outgoing.Streaming a), (outgoing.Streaming b), (outgoing.Streaming c);
    simpl; try done; apply string_not_lt_trans.
Qed.

Lemma sort_insert_perm {A} (lt : A → A → bool) (x : A) (l : list A) :
  sort_insert lt x l ≡ₚ x :: l.
Proof.
  induction l as [|y l IH]; simpl; [done|].
  destruct (lt y x); [|done]. rewrite IH. apply Permutation_swap.
Qed.

Lemma sort_Slice_perm {A} (lt : A → A → bool) (l : list A) :
  sort_Slice lt l ≡ₚ l.
Proof.
  induction l as [|x l IH]; simpl; [done|].
  by rewrite sort_insert_perm, IH.
Qed.

Lemma sort_insert_sorted (x : outgoing.User) (l : list outgoing.User) :
  StronglySorted comes_first l → StronglySorted comes_first (sort_insert less x l).
Proof.
  induction 1 as [|y l Hl IH Hy]; simpl.
  - repeat constructor.
  - destruct (less y x) eqn:E.
    + constructor; [exact IH|].
      rewrite sort_insert_perm. constructor; [|exact Hy].
      apply less_comes_first. by apply less_asym.
    + apply less_comes_first in E.
      constructor; [by constructor|].
      constructor; [exact E|].
      eapply Forall_impl; [exact Hy|]. intros z Hz. by eapply comes_first_trans.
Qed.

Lemma sort_Slice_sorted (l : list outgoing.User) :
  StronglySorted comes_first (sort_Slice less l).
Proof.
  induction l as [|x l IH]; simpl; [constructor|]. by apply sort_insert_sorted.
Qed.

(** ** Room info *)

Section room_info.
Context `{Runtime}.

Lemma same_hub_refl (s : Rooms) : same_hub s s.
Proof. by repeat split. Qed.

Lemma same_hub_trans (s1 s2 s3 : Rooms) :
  same_hub s1 s2 → same_hub s2 s3 → same_hub s1 s3.
Proof.
  intros (?&?&?&?&?&?) (?&?&?&?&?&?). repeat split; congruence.
Qed.

Lemma sends_refl (s : Rooms) : sends s s [].
Proof. split; [apply same_hub_refl|]. split; [by rewrite app_nil_r|lia]. Qed.

Lemma sends_trans (s1 s2 s3 : Rooms) (ds1 ds2 : list Delivery) :
  sends s1 s2 ds1 → sends s2 s3 ds2 → sends s1 s3 (ds1 ++ ds2).
Proof.
  intros (Hh1 & Hs1 & Ht1) (Hh2 & Hs2 & Ht2).
  split; [by eapply same_hub_trans|]. split; [|lia].
  by rewrite Hs2, Hs1, app_assoc.
Qed.

Lemma draw_sends (s : Rooms) : sends s (set_tick (fun n => n + 1) s) [].
Proof.
  split; [by repeat split|]. split; [by rewrite app_nil_r|simpl; lia].
Qed.

Lemma writeTimeout_sends (ch : Chan) (m : outgoing.Message) (s : Rooms) :
  ∃ (s' : Rooms) (took : bool),
    writeTimeout ch m s = Some (tt, s')
    ∧ sends s s' [{| to := ch; msg := m; accepted := took |}]
    ∧ (now s ≤ now s' ≤ now s + Z.of_N (2 * Second))%Z
    ∧ (took = false → now s' = (now s + Z.of_N (2 * Second))%Z).
Proof.
  unfold writeTimeout, bind, draw, modify. simpl.
  pose proof (select_chan_or_timer_bound
                (chan_ready (tick s) ch) (2 * Second) (select_coin (tick s))) as Hb.
  pose proof (select_timer_won
                (chan_ready (tick s) ch) (2 * Second) (select_coin (tick s))) as Hw.
  destruct (select_chan_or_timer _ _ _) as [took elapsed]. simpl in Hb, Hw.
  eexists _, took. split; [reflexivity|]. simpl. split_and!.
  - split; [by repeat split|]. simpl. split; [done|lia].
  - unfold Second in *; lia.
  - unfold Second in *; lia.
  - intros Ht. rewrite Hw by done. done.
Qed.

Lemma filter_none {A} (P : A → Prop) `{∀ x, Decision (P x)} (l : list A) :
  Forall (fun x => ¬ P x) l → filter P l = [].
Proof.
  induction 1 as [|x l Hx Hl IH]; [done|]. by rewrite filter_cons_False.
Qed.

Lemma you_only_for_recipient (m : gmap N User) (k : ID) (u : User)
    (l : list outgoing.User) :
  m !! k = Some u →
  l ≡ₚ info_of k <$> map_to_list m →
  filter (fun u => outgoing.You u = true) l = [info_of k (k, u)].
Proof.
  intros Hk Hl. apply Permutation_singleton_r. rewrite Hl.
  rewrite <- (insert_delete_id m k u Hk) at 1.
  rewrite map_to_list_insert by apply lookup_delete_eq.
  rewrite fmap_cons, filter_cons_True by (simpl; by rewrite bool_decide_eq_true_2).
  constructor.
  rewrite filter_none; [done|].
  apply Forall_forall. intros e [[k' u'] [-> Hin]]%list_elem_of_fmap.
  apply elem_of_map_to_list in Hin. simpl.
  rewrite bool_decide_eq_false_2; [done|].
  intros ->. by rewrite lookup_delete_eq in Hin.
Qed.

Lemma room_info_loop (x : Room) (members : list (ID * User)) :
  (∀ e, e ∈ members → Users x !! e.1 = Some e.2) →
  ∀ s : Rooms,
    ∃ (s' : Rooms) (ds : list Delivery),
      forEach members (fun current =>
        let* entries := range (Users x) in
        let users := info_of current.1 <$> entries in
        let users := sort_Slice less users in
        User_WriteTimeout current.2 (outgoing.Room (Room_ID x) users)) s
      = Some (tt, s')
      ∧ Forall2 (room_info_for x) members ds
      ∧ sends s s' ds.
Proof.
  induction members as [|[k u] members IH]; intros Hin s.
  - exists s, []. split; [done|]. split; [constructor|apply sends_refl].
  - simpl. unfold bind at 1. unfold bind at 1. rewrite range_spec. simpl.
    unfold User_WriteTimeout. simpl.
    set (l := sort_Slice less _).
    destruct (writeTimeout_sends (_write u) (outgoing.Room (Room_ID x) l)
                (set_tick (fun n => n + 1) s)) as (s1 & took & Hw & Hs1 & _).
    rewrite Hw.
    destruct (IH (fun e He => Hin e (list_elem_of_further _ _ _ He)) s1)
      as (s' & ds & Hrun & Hall & Hs').
    exists s', ({| to := _write u; msg := outgoing.Room (Room_ID x) l;
                   accepted := took |} :: ds).
    split; [exact Hrun|]. split.
    + constructor; [|exact Hall].
      assert (Hl : l ≡ₚ info_of k <$> map_to_list (Users x)).
      { unfold l. by rewrite sort_Slice_perm, range_order_perm. }
      split; [done|]. exists l. split; [done|]. split; [exact Hl|].
      split; [apply sort_Slice_sorted|].
      apply (you_only_for_recipient (Users x) k u l); [|exact Hl].
      apply (Hin (k, u)). left.
    + change (?d :: ds) with ([d] ++ ds).
      eapply sends_trans; [|exact Hs'].
      change [?d] with ([] ++ [d]).
      eapply sends_trans; [apply draw_sends|exact Hs1].
Qed.

Lemma notifyInfoChanged_spec (room : string) (x : Room) (s : Rooms) :
  Rooms_Rooms s !! room = Some x →
  ∃ (s' : Rooms) (members : list (ID * User)) (ds : list Delivery),
    Room_notifyInfoChanged room s = Some (tt, s')
    ∧ members ≡ₚ map_to_list (Users x)
    ∧ Forall2 (room_info_for x) members ds
    ∧ sends s s' ds.
Proof.
  intros Hx. unfold Room_notifyInfoChanged, bind at 1, deref_room.
  rewrite Hx. unfold bind at 1. rewrite range_spec.
  set (members := range_order _ _ _).
  assert (Hm : members ≡ₚ map_to_list (Users x)) by apply range_order_perm.
  destruct (room_info_loop x members) with (s := set_tick (fun n => n + 1) s)
    as (s' & ds & Hrun & Hall & Hs').
  { intros [k u] He. rewrite Hm in He. by apply elem_of_map_to_list in He. }
  exists s', members, ds. split; [exact Hrun|]. split; [exact Hm|].
  split; [exact Hall|].
  change ds with ([] ++ ds). eapply sends_trans; [apply draw_sends|exact Hs'].
Qed.


Lemma Forall2_Forall_right {A B} (P : A → B → Prop) (Q : B → Prop)
    (l : list A) (k : list B) :
  Forall2 P l k → (∀ a b, P a b → Q b) → Forall Q k.
Proof.
  intros Hall HPQ. induction Hall; constructor; eauto.
Qed.

Lemma less_owner_first (a b : outgoing.User) :
  outgoing.Owner a = true → outgoing.Owner b = false → less a b = true.
Proof. intros Ha Hb. unfold less. by rewrite Ha, Hb. Qed.

Lemma less_streaming_first (a b : outgoing.User) :
  outgoing.Owner a = outgoing.Owner b →
  outgoing.Streaming a = true → outgoing.Streaming b = false →
  less a b = true.
Proof.
  intros Ho Ha Hb. unfold less. rewrite Ho, Ha, Hb.
  by destruct (outgoing.Owner b).
Qed.

Lemma not_both_first (a b : outgoing.User) :
  less a b = true → comes_first b a → False.
Proof. intros Hlt Hcf%less_comes_first. congruence. Qed.

(** The example of the design document, for any keys and any other fields. *)
Lemma room_info_A_B_C (x : Room) (a b c : ID) (ua ub uc : User)
    (entry : ID * User) (d : Delivery) :
  Users x = <[a := ua]> (<[b := ub]> (<[c := uc]> ∅)) →
  a ≠ b → a ≠ c → b ≠ c →
  Owner ua = true ∧ Streaming ua = true ∧ Name ua = "Bob" →
  Owner ub = false ∧ Streaming ub = true ∧ Name ub = "Amy" →
  Owner uc = false ∧ Streaming uc = false ∧ Name uc = "Zoe" →
  room_info_for x entry d →
  msg d = outgoing.Room (Room_ID x)
            [info_of entry.1 (a, ua); info_of entry.1 (b, ub);
             info_of entry.1 (c, uc)].
Proof.
  intros HU Hab Hac Hbc (Hoa & Hsa & Hna) (Hob & Hsb & Hnb) (Hoc & Hsc & Hnc).
  intros (_ & l & -> & Hperm & Hsorted & _). f_equal.
  assert (Hl : map_to_list (Users x) ≡ₚ [(a, ua); (b, ub); (c, uc)]).
  { rewrite HU.
    rewrite map_to_list_insert by (by rewrite !lookup_insert_ne).
    rewrite map_to_list_insert by (by rewrite !lookup_insert_ne).
    rewrite map_to_list_insert by done.
    by rewrite map_to_list_empty. }
  rewrite Hl in Hperm. clear Hl HU.
  set (k := entry.1) in *. clearbody k.
  change (info_of k <$> [(a, ua); (b, ub); (c, uc)])
    with [info_of k (a, ua); info_of k (b, ub); info_of k (c, uc)] in Hperm.
  set (ia := info_of k (a, ua)) in *.
  set (ib := info_of k (b, ub)) in *.
  set (ic := info_of k (c, uc)) in *.
  assert (HAB : less ia ib = true) by (by apply less_owner_first).
  assert (HAC : less ia ic = true) by (by apply less_owner_first).
  assert (HBC : less ib ic = true).
  { apply less_streaming_first; [|done..]. simpl. congruence. }
  clearbody ia ib ic.
  apply (StronglySorted_unique_strong comes_first); [|exact Hsorted| |exact Hperm].
  - intros x1 x2 H1 H2 H12 H21. rewrite Hperm in H1.
    rewrite !elem_of_cons, elem_of_nil in H1, H2.
    destruct H1 as [->|[->|[->|[]]]], H2 as [->|[->|[->|[]]]];
      first [ reflexivity
            | exfalso;
              first [ exact (not_both_first _ _ HAB H12)
                    | exact (not_both_first _ _ HAB H21)
                    | exact (not_both_first _ _ HAC H12)
                    | exact (not_both_first _ _ HAC H21)
                    | exact (not_both_first _ _ HBC H12)
                    | exact (not_both_first _ _ HBC H21) ] ].
  - apply SSorted_cons;
      [apply SSorted_cons;
         [apply SSorted_cons; [apply SSorted_nil|apply Forall_nil_2]
         |apply Forall_cons_2; [|apply Forall_nil_2]]
      |apply Forall_cons_2; [|apply Forall_cons_2; [|apply Forall_nil_2]]];
      apply less_comes_first; by apply less_asym.
Qed.

(** C7.  In a room-info broadcast every member of the room is sent, on its
    own channel, one user list.  The list names every user of the room once,
    is ordered owner first, then streaming first, then by name in byte order,
    and carries "you" on the record of the recipient and on no other.  For
    A (owner, streaming, "Bob"), B (streaming, "Amy") and C (idle, "Zoe")
    every copy lists A, B, C in this order.  The broadcast changes nothing
    else in the hub. *)
Theorem room_info_broadcast (room : string) (x : Room) (s : Rooms) :
  Rooms_Rooms s !! room = Some x →
  ∃ (s' : Rooms) (members : list (ID * User)) (ds : list Delivery),
    Room_notifyInfoChanged room s = Some (tt, s')
    ∧ members ≡ₚ map_to_list (Users x)
    ∧ Forall2 (room_info_for x) members ds
    ∧ sent s' = sent s ++ ds
    ∧ same_hub s s'
    ∧ (∀ (a b c : ID) (ua ub uc : User),
         Users x = <[a := ua]> (<[b := ub]> (<[c := uc]> ∅)) →
         a ≠ b → a ≠ c → b ≠ c →
         Owner ua = true ∧ Streaming ua = true ∧ Name ua = "Bob" →
         Owner ub = false ∧ Streaming ub = true ∧ Name ub = "Amy" →
         Owner uc = false ∧ Streaming uc = false ∧ Name uc = "Zoe" →
         Forall (fun d =>
           ∃ you_a you_b you_c : bool,
             msg d = outgoing.Room (Room_ID x)
               [ {| outgoing.User_ID := User_ID ua; outgoing.Name := "Bob";
                    outgoing.Streaming := true; outgoing.You := you_a;
                    outgoing.Owner := true |};
                 {| outgoing.User_ID := User_ID ub; outgoing.Name := "Amy";
                    outgoing.Streaming := true; outgoing.You := you_b;
                    outgoing.Owner := false |};
                 {| outgoing.User_ID := User_ID uc; outgoing.Name := "Zoe";
                    outgoing.Streaming := false; outgoing.You := you_c;
                    outgoing.Owner := false |} ]) ds).
Proof.
  intros Hx.
  destruct (notifyInfoChanged_spec room x s Hx)
    as (s' & members & ds & Hrun & Hm & Hall & (Hhub & Hsent & _)).
  exists s', members, ds. split_and!; try done.
  intros a b c ua ub uc HU Hab Hac Hbc HA HB HC.
  eapply Forall2_Forall_right; [exact Hall|].
  intros entry d Hd.
  rewrite (room_info_A_B_C x a b c ua ub uc entry d HU Hab Hac Hbc HA HB HC Hd).
  destruct HA as (Hoa & Hsa & Hna), HB as (Hob & Hsb & Hnb), HC as (Hoc & Hsc & Hnc).
  unfold info_of. simpl.
  rewrite Hoa, Hsa, Hna, Hob, Hsb, Hnb, Hoc, Hsc, Hnc. eauto.
Qed.

End room_info.

Lemma room_info_broadcast_witness :
  ∃ (s' : Rooms) (ds : list Delivery),
    @Room_notifyInfoChanged prompt_runtime "r1" example_hub = Some (tt, s')
    ∧ sent s' = sent example_hub ++ ds
    ∧ length ds = 3%nat.
Proof.
  destruct (@room_info_broadcast prompt_runtime "r1" example_room example_hub)
    as (s' & members & ds & Hrun & Hm & Hall & Hsent & _).
  { vm_compute. reflexivity. }
  exists s', ds. split; [exact Hrun|]. split; [exact Hsent|].
  rewrite <- (Forall2_length _ _ _ Hall), Hm, length_map_to_list.
  vm_compute. reflexivity.
Defined.

(** ** Opening a session *)

Lemma string_app_cons (ch : ascii) (a b : string) :
  String ch a +:+ b = String ch (a +:+ b).
Proof. reflexivity. Qed.

Lemma string_app_length (a b : string) :
  String.length (a +:+ b) = (String.length a + String.length b)%nat.
Proof.
  induction a as [|ch a IH]; [done|].
  rewrite string_app_cons. simpl. by rewrite IH.
Qed.

Lemma string_app_assoc (a b c : string) : (a +:+ b) +:+ c = a +:+ (b +:+ c).
Proof.
  induction a as [|ch a IH]; [done|].
  rewrite !string_app_cons. by rewrite IH.
Qed.

Lemma string_app_suffix_eq (p q s t : string) :
  String.length s = String.length t → p +:+ s = q +:+ t → s = t.
Proof.
  revert q. induction p as [|ch p IH]; intros [|ch' q] Hlen Heq.
  - done.
  - change ("" +:+ s) with s in Heq. subst s.
    rewrite string_app_cons in Hlen. simpl in Hlen.
    rewrite string_app_length in Hlen. lia.
  - change ("" +:+ t) with t in Heq. subst t.
    rewrite string_app_cons in Hlen. simpl in Hlen.
    rewrite string_app_length in Hlen. lia.
  - rewrite !string_app_cons in Heq. injection Heq as _ Heq. by apply (IH q).
Qed.

Lemma host_name_not_client_name (p q : string) :
  p +:+ "host" ≠ q +:+ "client".
Proof.
  intros Heq. change "client" with ("cl" +:+ "ient") in Heq.
  rewrite <- string_app_assoc in Heq.
  by apply string_app_suffix_eq in Heq.
Qed.

Section issuing.
Context `{Runtime}.

(** The username of a credential ends with the id it was asked for. *)
Lemma Credentials_username (srv : turn.Server) (id : string) (addr : IP)
    (now : Z) (tick : N) :
  ∃ p : string, (turn.Credentials srv id addr now tick).1.1 = p +:+ id.
Proof.
  destruct srv as [a|a]; simpl.
  - by exists "".
  - exists (pretty (turn.Unix (now + turn.ttl a)) +:+ ":").
    by rewrite string_app_assoc.
Qed.

Lemma Credentials_distinct (srv1 srv2 : turn.Server) (sid : string)
    (addr1 addr2 : IP) (now1 now2 : Z) (tick1 tick2 : N) :
  (turn.Credentials srv1 (sid +:+ "host") addr1 now1 tick1).1
  ≠ (turn.Credentials srv2 (sid +:+ "client") addr2 now2 tick2).1.
Proof.
  destruct (Credentials_username srv1 (sid +:+ "host") addr1 now1 tick1) as [p Hp].
  destruct (Credentials_username srv2 (sid +:+ "client") addr2 now2 tick2) as [q Hq].
  intros Heq. rewrite Heq in Hp. rewrite Hp in Hq.
  rewrite <- !string_app_assoc in Hq.
  by apply host_name_not_client_name in Hq.
Qed.


Arguments writeTimeout : simpl never.

Lemma deref_room_spec (room : string) (x : Room) (s : Rooms) :
  Rooms_Rooms s !! room = Some x → deref_room room s = Some (x, s).
Proof. intros Hx. unfold deref_room. by rewrite Hx. Qed.

Lemma deref_user_spec (room : string) (x : Room) (id : ID) (u : User) (s : Rooms) :
  Rooms_Rooms s !! room = Some x → Users x !! id = Some u →
  deref_user room id s = Some (u, s).
Proof.
  intros Hx Hu. unfold deref_user, bind. rewrite (deref_room_spec room x s Hx).
  by rewrite Hu.
Qed.

Lemma turnServer_Credentials_spec (id : string) (addr : IP) (s : Rooms) :
  turnServer_Credentials id addr s
  = Some ((turn.Credentials (turnServer s) id addr (now s) (tick s)).1,
          set_turnServer
            (fun _ => (turn.Credentials (turnServer s) id addr (now s) (tick s)).2)
            (set_tick (fun n => n + 1) s)).
Proof.
  unfold turnServer_Credentials, bind, get, draw, modify, ret. simpl.
  by destruct (turn.Credentials _ _ _ _ _) as [cred srv].
Qed.

Lemma session_writes (room : string) (x : Room) (host client : ID)
    (h c : User) (m1 m2 : outgoing.Message) (s : Rooms) :
  Rooms_Rooms s !! room = Some x →
  Users x !! host = Some h →
  Users x !! client = Some c →
  ∃ (s' : Rooms) (took1 took2 : bool),
    (let* h0 := deref_user room host in
     User_WriteTimeout h0 m1 ;;
     let* c0 := deref_user room client in
     User_WriteTimeout c0 m2) s = Some (tt, s')
    ∧ sends s s' [{| to := _write h; msg := m1; accepted := took1 |};
                  {| to := _write c; msg := m2; accepted := took2 |}].
Proof.
  intros Hx Hh Hc. unfold bind at 1.
  rewrite (deref_user_spec room x host h s Hx Hh).
  unfold bind at 1, User_WriteTimeout.
  destruct (writeTimeout_sends (_write h) m1 s) as (s1 & took1 & Hw1 & Hs1 & _).
  rewrite Hw1. unfold bind at 1.
  assert (Hx1 : Rooms_Rooms s1 !! room = Some x).
  { destruct Hs1 as ((_ & -> & _) & _). exact Hx. }
  rewrite (deref_user_spec room x client c s1 Hx1 Hc).
  destruct (writeTimeout_sends (_write c) m2 s1) as (s2 & took2 & Hw2 & Hs2 & _).
  rewrite Hw2. exists s2, took1, took2. split; [done|].
  change [?d1; ?d2] with ([d1] ++ [d2]). by eapply sends_trans.
Qed.

Lemma newSession_spec (room : string) (x : Room) (host client : ID)
    (h c : User) (v4 v6 : IP) (s : Rooms) :
  Rooms_Rooms s !! room = Some x →
  Users x !! host = Some h →
  Users x !! client = Some c →
  ∃ (s' : Rooms) (iceHost iceClient : list outgoing.ICEServer)
    (took1 took2 : bool),
    Room_newSession room host client v4 v6 s = Some (tt, s')
    ∧ Rooms_Rooms s'
      = <[room := set_Sessions
                    (insert (xid_New (tick s)) {| Host := host; Client := client |})
                    x]> (Rooms_Rooms s)
    ∧ connected s' = connected s
    ∧ conf s' = conf s
    ∧ r s' = r s
    ∧ metrics s' = inc_sessionCreatedTotal (metrics s)
    ∧ sent s'
      = sent s
        ++ [{| to := _write h;
               msg := outgoing.HostSession client (xid_New (tick s)) iceHost;
               accepted := took1 |};
            {| to := _write c;
               msg := outgoing.ClientSession host (xid_New (tick s)) iceClient;
               accepted := took2 |}]
    ∧ tick s < tick s'
    ∧ ice_by_mode x h c v4 v6 s s' iceHost iceClient.
Proof.
  intros Hx Hh Hc. unfold Room_newSession.
  unfold bind at 1. unfold xid_New_, bind at 1, draw, ret.
  unfold bind at 1. unfold update_room, modify.
  unfold bind at 1. unfold modify.
  unfold bind at 1.
  set (id := xid_New (tick s)).
  set (x1 := set_Sessions (insert id {| Host := host; Client := client |}) x).
  set (s1 := set_metrics _ _).
  assert (HR1 : Rooms_Rooms s1
                = <[room := x1]> (Rooms_Rooms s)).
  { unfold s1; simpl. apply map_eq. intros k.
    destruct (decide (k = room)) as [->|Hne].
    - by rewrite lookup_alter_eq, lookup_insert_eq, Hx.
    - by rewrite lookup_alter_ne, lookup_insert_ne. }
  assert (Hx1 : Rooms_Rooms s1 !! room = Some x1).
  { rewrite HR1. apply lookup_insert_eq. }
  rewrite (deref_room_spec room x1 s1 Hx1).
  unfold bind at 1, get. unfold bind at 1.
  change (Mode x1) with (Mode x).
  assert (Hlocal_stun : ConnectionLocal ≠ ConnectionSTUN) by done.
  assert (Hlocal_turn : ConnectionLocal ≠ ConnectionTURN) by done.
  assert (Hstun_turn : ConnectionSTUN ≠ ConnectionTURN) by done.
  destruct (decide (Mode x = ConnectionLocal)) as [EL|EL];
    [rewrite (bool_decide_eq_true_2 _ EL)|rewrite (bool_decide_eq_false_2 _ EL)].
  { destruct (session_writes room x1 host client h c
                (outgoing.HostSession client id [])
                (outgoing.ClientSession host id []) s1 Hx1 Hh Hc)
      as (s' & took1 & took2 & Hrun & (Hh1 & Hsent & Htick)).
    destruct Hh1 as (HT & HR & HC & HF & Hr & HM).
    exists s', [], [], took1, took2. split; [exact Hrun|].
    rewrite HR, HC, HF, Hr, HM, Hsent. split_and!; try done.
    - simpl in Htick. lia.
    - unfold ice_by_mode. rewrite HT. split_and!; intros; try done; congruence. }
  destruct (decide (Mode x = ConnectionSTUN)) as [ES|ES];
    [rewrite (bool_decide_eq_true_2 _ ES)|rewrite (bool_decide_eq_false_2 _ ES)].
  { destruct (session_writes room x1 host client h c
                (outgoing.HostSession client id
                   [ice (Rooms_addresses s1 "stun" v4 v6 false) "" ""])
                (outgoing.ClientSession host id
                   [ice (Rooms_addresses s1 "stun" v4 v6 false) "" ""])
                s1 Hx1 Hh Hc)
      as (s' & took1 & took2 & Hrun & (Hh1 & Hsent & Htick)).
    destruct Hh1 as (HT & HR & HC & HF & Hr & HM).
    eexists s', _, _, took1, took2. split; [exact Hrun|].
    rewrite HR, HC, HF, Hr, HM, Hsent. split_and!; try done.
    - simpl in Htick. lia.
    - unfold ice_by_mode. rewrite HT. split_and!; intros; try done; congruence. }
  destruct (decide (Mode x = ConnectionTURN)) as [ET|ET];
    [rewrite (bool_decide_eq_true_2 _ ET)|rewrite (bool_decide_eq_false_2 _ ET)].
  { unfold bind at 1. rewrite (deref_user_spec room x1 host h s1 Hx1 Hh).
    unfold bind at 1. rewrite turnServer_Credentials_spec.
    destruct (turn.Credentials (turnServer s1) _ _ _ _)
      as [[hostName hostPW] srv] eqn:Ecred1. cbn [fst snd].
    set (s2 := set_turnServer _ _).
    assert (Hx2 : Rooms_Rooms s2 !! room = Some x1) by exact Hx1.
    unfold bind at 1. rewrite (deref_user_spec room x1 client c s2 Hx2 Hc).
    unfold bind at 1. rewrite turnServer_Credentials_spec.
    destruct (turn.Credentials (turnServer s2) _ _ _ _)
      as [[clientName clientPW] srv'] eqn:Ecred2. cbn [fst snd].
    set (s3 := set_turnServer _ _).
    assert (Hx3 : Rooms_Rooms s3 !! room = Some x1) by exact Hx1.
    destruct (session_writes room x1 host client h c
                (outgoing.HostSession client id
                   [ice (Rooms_addresses s1 "turn" v4 v6 true) hostPW hostName])
                (outgoing.ClientSession host id
                   [ice (Rooms_addresses s1 "turn" v4 v6 true) clientPW clientName])
                s3 Hx3 Hh Hc)
      as (s' & took1 & took2 & Hrun & (Hh1 & Hsent & Htick)).
    destruct Hh1 as (HT & HR & HC & HF & Hr & HM).
    eexists s', _, _, took1, took2. split; [exact Hrun|].
    rewrite HR, HC, HF, Hr, HM, Hsent. split_and!; try done.
    - simpl in Htick. lia.
    - unfold ice_by_mode. rewrite HT. split_and!; intros; try done; try congruence.
      exists hostName, hostPW, clientName, clientPW, srv.
      split; [exact Ecred1|]. split; [|done].
      simpl. simpl in Ecred2.
      replace (tick s + 2) with (tick s + 1 + 1) by lia. exact Ecred2. }
  destruct (session_writes room x1 host client h c
              (outgoing.HostSession client id [])
              (outgoing.ClientSession host id []) s1 Hx1 Hh Hc)
    as (s' & took1 & took2 & Hrun & (Hh1 & Hsent & Htick)).
  destruct Hh1 as (HT & HR & HC & HF & Hr & HM).
  exists s', [], [], took1, took2. split; [exact Hrun|].
  rewrite HR, HC, HF, Hr, HM, Hsent. split_and!; try done.
  simpl in Htick. lia.
Qed.


Lemma Rooms_addresses_urls (s : Rooms) (prefix : string) (v4 v6 : IP)
    (tcp : bool) :
  Rooms_addresses s prefix v4 v6 tcp
  = match v4 with
    | Some ip =>
        (prefix +:+ ":" +:+ IP_String ip +:+ ":" +:+ config.TurnPort (conf s))
        :: (if tcp
            then [prefix +:+ ":" +:+ IP_String ip +:+ ":"
                    +:+ config.TurnPort (conf s) +:+ "?transport=tcp"]
            else [])
    | None => []
    end
    ++ match v6 with
       | Some ip =>
           (prefix +:+ ":[" +:+ IP_String ip +:+ "]:"
              +:+ config.TurnPort (conf s))
           :: (if tcp
               then [prefix +:+ ":[" +:+ IP_String ip +:+ "]:"
                       +:+ config.TurnPort (conf s) +:+ "?transport=tcp"]
               else [])
       | None => []
       end.
Proof.
  unfold Rooms_addresses. destruct v4 as [ip4|], v6 as [ip6|], tcp; reflexivity.
Qed.

(** C4.  [newSession] sends the host a host-session message and the client a
    client-session message for the new session id.  In local mode both carry
    no ICE server.  In stun mode both carry the same single server, without
    username or credential, whose URLs are built with the prefix "stun" from
    the public addresses and the configured port.  In turn mode the host's
    server carries the credential the issuer returns for "<sid>host" and the
    host's address, the client's the one it returns for "<sid>client" and the
    client's address; the two credentials differ, the co-located issuer holds
    each under its name with that party's address, and both parties get the
    URLs with the prefix "turn".  A URL list holds, for the IPv4 address, the
    plain form and, where TCP is asked for, the form with "?transport=tcp",
    and the same two for the IPv6 address written in brackets. *)
Theorem newSession_ice_by_mode (room : string) (x : Room) (host client : ID)
    (h c : User) (v4 v6 : IP) (s : Rooms) :
  Rooms_Rooms s !! room = Some x →
  Users x !! host = Some h →
  Users x !! client = Some c →
  let id := xid_New (tick s) in
  ∃ (s' : Rooms) (iceHost iceClient : list outgoing.ICEServer)
    (took1 took2 : bool),
    Room_newSession room host client v4 v6 s = Some (tt, s')
    ∧ sent s'
      = sent s
        ++ [{| to := _write h;
               msg := outgoing.HostSession client id iceHost;
               accepted := took1 |};
            {| to := _write c;
               msg := outgoing.ClientSession host id iceClient;
               accepted := took2 |}]
    ∧ (Mode x = ConnectionLocal → iceHost = [] ∧ iceClient = [])
    ∧ (Mode x = ConnectionSTUN →
         iceHost = iceClient
         ∧ iceHost
           = [{| outgoing.URLs := Rooms_addresses s "stun" v4 v6 false;
                 outgoing.Credential := "";
                 outgoing.Username := "" |}])
    ∧ (Mode x = ConnectionTURN →
         ∃ (hostName hostPW clientName clientPW : string) (srv : turn.Server),
           turn.Credentials (turnServer s) (xid_String id +:+ "host")
             (User_Addr h) (now s) (tick s + 1)
           = ((hostName, hostPW), srv)
           ∧ turn.Credentials srv (xid_String id +:+ "client")
               (User_Addr c) (now s) (tick s + 2)
             = ((clientName, clientPW), turnServer s')
           ∧ iceHost
             = [{| outgoing.URLs := Rooms_addresses s "turn" v4 v6 true;
                   outgoing.Credential := hostPW;
                   outgoing.Username := hostName |}]
           ∧ iceClient
             = [{| outgoing.URLs := Rooms_addresses s "turn" v4 v6 true;
                   outgoing.Credential := clientPW;
                   outgoing.Username := clientName |}]
           ∧ (hostName, hostPW) ≠ (clientName, clientPW)
           ∧ (∀ a : turn.InternalServer, turnServer s = turn.Internal a →
                ∃ a' : turn.InternalServer,
                  turnServer s' = turn.Internal a'
                  ∧ hostName = xid_String id +:+ "host"
                  ∧ clientName = xid_String id +:+ "client"
                  ∧ turn.lookup a' !! hostName
                    = Some {| turn.addr := User_Addr h;
                              turn.password :=
                                GenerateAuthKey hostName turn.Realm hostPW |}
                  ∧ turn.lookup a' !! clientName
                    = Some {| turn.addr := User_Addr c;
                              turn.password :=
                                GenerateAuthKey clientName turn.Realm clientPW |}))
    ∧ (∀ (prefix : string) (ip4 ip6 : list N),
         let port := config.TurnPort (conf s) in
         Rooms_addresses s prefix (Some ip4) (Some ip6) false
         = [prefix +:+ ":" +:+ IP_String ip4 +:+ ":" +:+ port;
            prefix +:+ ":[" +:+ IP_String ip6 +:+ "]:" +:+ port]
         ∧ Rooms_addresses s prefix (Some ip4) (Some ip6) true
           = [prefix +:+ ":" +:+ IP_String ip4 +:+ ":" +:+ port;
              prefix +:+ ":" +:+ IP_String ip4 +:+ ":" +:+ port
                +:+ "?transport=tcp";
              prefix +:+ ":[" +:+ IP_String ip6 +:+ "]:" +:+ port;
              prefix +:+ ":[" +:+ IP_String ip6 +:+ "]:" +:+ port
                +:+ "?transport=tcp"]).
Proof.
  intros Hx Hh Hc id.
  destruct (newSession_spec room x host client h c v4 v6 s Hx Hh Hc)
    as (s' & iceHost & iceClient & took1 & took2 & Hrun & _ & _ & _ & _ & _
        & Hsent & _ & (HL & HS & HT & _)).
  exists s', iceHost, iceClient, took1, took2.
  split; [exact Hrun|]. split; [exact Hsent|]. split_and!.
  - intros Hm. by destruct (HL Hm) as (-> & -> & _).
  - intros Hm. by destruct (HS Hm) as (-> & -> & _).
  - intros Hm.
    destruct (HT Hm) as (hostName & hostPW & clientName & clientPW & srv
                         & Hc1 & Hc2 & -> & ->).
    exists hostName, hostPW, clientName, clientPW, srv.
    split; [exact Hc1|]. split; [exact Hc2|]. split; [done|]. split; [done|].
    split.
    { pose proof (Credentials_distinct (turnServer s) srv (xid_String id)
                    (User_Addr h) (User_Addr c) (now s) (now s)
                    (tick s + 1) (tick s + 2)) as Hne.
      fold id in Hc1, Hc2. rewrite Hc1, Hc2 in Hne. exact Hne. }
    intros a Ha. fold id in Hc1, Hc2. rewrite Ha in Hc1. simpl in Hc1.
    injection Hc1 as <- <- <-. simpl in Hc2. injection Hc2 as <- <- <-.
    eexists. split; [reflexivity|]. split; [done|]. split; [done|]. simpl.
    split.
    + rewrite lookup_insert_ne by (symmetry; apply host_name_not_client_name).
      apply lookup_insert_eq.
    + apply lookup_insert_eq.
  - intros prefix ip4 ip6 port. by rewrite !Rooms_addresses_urls.
Qed.

End issuing.

Lemma newSession_ice_by_mode_witness :
  ∃ (s' : Rooms) (iceHost iceClient : list outgoing.ICEServer),
    @Room_newSession prompt_runtime "r1" 1 2 (Some [203; 0; 113; 7]) None
      example_hub = Some (tt, s')
    ∧ attempts s'
      = [(101, outgoing.HostSession 2 0 iceHost);
         (102, outgoing.ClientSession 1 0 iceClient)]
    ∧ iceHost ≠ iceClient.
Proof.
  destruct (@newSession_ice_by_mode prompt_runtime "r1" example_room 1 2
              user_A user_B (Some [203; 0; 113; 7]) None example_hub)
    as (s' & iceHost & iceClient & took1 & took2 & Hrun & Hsent & _ & _ & HT & _).
  { vm_compute. reflexivity. }
  { vm_compute. reflexivity. }
  { vm_compute. reflexivity. }
  exists s', iceHost, iceClient. split; [exact Hrun|].
  split; [unfold attempts; rewrite Hsent; reflexivity|].
  destruct (HT eq_refl) as (hn & hp & cn & cp & srv & _ & _ & -> & -> & Hne & _).
  intros Heq. apply Hne. by injection Heq as -> ->.
Defined.

(** ** Relaying offers, answers and candidates *)

Section relaying.
Context `{Runtime}.

Lemma CurrentRoom_Ok (s : Rooms) (info : ClientInfo) (room : string) :
  Rooms_CurrentRoom s info = Ok room →
  connected s !! ClientInfo_ID info = Some room
  ∧ room ≠ ""
  ∧ ∃ x, Rooms_Rooms s !! room = Some x.
Proof.
  unfold Rooms_CurrentRoom.
  destruct (connected s !! ClientInfo_ID info) as [roomID|]; [|done].
  case_bool_decide; [done|].
  destruct (Rooms_Rooms s !! roomID) as [x|] eqn:Hx; [|done].
  intros [= <-]. eauto.
Qed.

Lemma relay_shape_relays (sender peer : RoomSession → ID)
    (tag : outgoing.P2PMessage → outgoing.Message) :
  relays (relay_shape sender peer tag) sender peer tag.
Proof.
  intros e current s. unfold relay_shape.
  destruct (Rooms_CurrentRoom s current) as [room|err] eqn:Hroom;
    [|unfold bind, get; rewrite Hroom; reflexivity].
  destruct (CurrentRoom_Ok s current room Hroom) as (Hconn & _ & x & Hx).
  exists x. split; [exact Hx|]. split; [exact Hconn|].
  assert (Hrun :
    (let* s := get in
     match Rooms_CurrentRoom s current with
     | Ok room =>
         let* x := deref_room room in
         match Sessions x !! outgoing.SID e with
         | Some session =>
             if bool_decide (sender session ≠ ClientInfo_ID current) then
               ret (Some ("permission denied for session "
                            +:+ xid_String (outgoing.SID e)))
             else
               let* u := deref_user room (peer session) in
               User_WriteTimeout u (tag e) ;; ret None
         | None => ret None
         end
     | Err err => ret (Some err)
     end) s
    = match Sessions x !! outgoing.SID e with
      | Some session =>
          if bool_decide (sender session ≠ ClientInfo_ID current) then
            Some (Some ("permission denied for session "
                          +:+ xid_String (outgoing.SID e)), s)
          else
            (let* u := deref_user room (peer session) in
             User_WriteTimeout u (tag e) ;; ret None) s
      | None => Some (None, s)
      end).
  { unfold bind at 1, get. rewrite Hroom.
    unfold bind at 1. rewrite (deref_room_spec room x s Hx).
    destruct (Sessions x !! outgoing.SID e) as [session|]; [|reflexivity].
    by destruct (bool_decide _). }
  rewrite Hrun. clear Hrun.
  destruct (Sessions x !! outgoing.SID e) as [session|]; [|reflexivity].
  case_decide as Hrole.
  - rewrite bool_decide_eq_false_2 by (intros Hne; by apply Hne).
    destruct (Users x !! peer session) as [u|] eqn:Hu.
    + unfold bind at 1.
      rewrite (deref_user_spec room x _ u s Hx Hu).
      unfold bind at 1, User_WriteTimeout.
      destruct (writeTimeout_sends (_write u) (tag e) s)
        as (s' & took & Hw & Hs & _).
      rewrite Hw. exists s', took. split; [reflexivity|exact Hs].
    + unfold bind at 1, deref_user, bind, deref_room, panic.
      by rewrite Hx, Hu.
  - rewrite bool_decide_eq_true_2 by done. reflexivity.
Qed.

Lemma HostOffer_relays :
  relays HostOffer_Execute Host Client outgoing.HostOffer.
Proof. exact (relay_shape_relays Host Client outgoing.HostOffer). Qed.

Lemma HostICE_relays :
  relays HostICE_Execute Host Client outgoing.HostICE.
Proof. exact (relay_shape_relays Host Client outgoing.HostICE). Qed.

Lemma ClientAnswer_relays :
  relays ClientAnswer_Execute Client Host outgoing.ClientAnswer.
Proof. exact (relay_shape_relays Client Host outgoing.ClientAnswer). Qed.

Lemma ClientICE_relays :
  relays ClientICE_Execute Client Host outgoing.ClientICE.
Proof. exact (relay_shape_relays Client Host outgoing.ClientICE). Qed.

(** C3 (amended).  For a sender that is in a room, the session of a
    host-offer or host-ice is looked up in that room: when it is there, the
    sender is its host and its client is a user of the room, the payload
    goes unchanged, under the outgoing tag, to the client of the session;
    when it is there and the sender is not its host, the handler fails with
    permission denied and changes nothing; when it is not there the handler
    succeeds and changes nothing.  The same holds for client-answer and
    client-ice with the roles exchanged.  A sender that is in no room gets
    the failure of [CurrentRoom] instead.  (When the peer of the session is
    not a user of the room, the handler panics.) *)
Theorem relay_authorization :
  relays HostOffer_Execute Host Client outgoing.HostOffer
  ∧ relays HostICE_Execute Host Client outgoing.HostICE
  ∧ relays ClientAnswer_Execute Client Host outgoing.ClientAnswer
  ∧ relays ClientICE_Execute Client Host outgoing.ClientICE.
Proof.
  split_and!;
    [apply HostOffer_relays | apply HostICE_relays
    | apply ClientAnswer_relays | apply ClientICE_relays].
Qed.

End relaying.

(** The connection D is connected and in no room; it sends a host-offer for
    a session that no room knows.  The handler does not ignore the event: it
    fails, and the main loop will disconnect D.  And in the room whose
    session 7 has the host A and a client that is not a user of the room,
    the host-offer of A for that session is not relayed: the handler
    panics. *)
Lemma relay_unknown_session_not_ignored :
  (∀ (room : string) (x : Room),
     Rooms_Rooms example_hub !! room = Some x → Sessions x !! 9 = None)
  ∧ @HostOffer_Execute prompt_runtime
      {| outgoing.SID := 9; outgoing.Value := "sdp" |} client_D example_hub
    = Some (Some "not in a room", example_hub)
  ∧ (∃ x : Room,
       Rooms_Rooms example_hub_dangling !! "r1" = Some x
       ∧ connected example_hub_dangling !! ClientInfo_ID client_A = Some "r1"
       ∧ Sessions x !! 7 = Some {| Host := ClientInfo_ID client_A; Client := 9 |}
       ∧ Users x !! 9 = None)
  ∧ @HostOffer_Execute prompt_runtime
      {| outgoing.SID := 7; outgoing.Value := "sdp" |} client_A
      example_hub_dangling
    = None.
Proof.
  split; [|split; [vm_compute; reflexivity|split; [|vm_compute; reflexivity]]].
  - intros room x. unfold example_hub; simpl.
    destruct (decide (room = "r1")) as [->|Hne].
    + rewrite lookup_insert_eq. by intros [= <-].
    + by rewrite lookup_insert_ne.
  - eexists. split; [vm_compute; reflexivity|].
    split; [vm_compute; reflexivity|].
    split; vm_compute; reflexivity.
Qed.

Lemma relay_authorization_witness :
  ∃ (s' : Rooms) (took : bool),
    @HostOffer_Execute prompt_runtime
      {| outgoing.SID := 7; outgoing.Value := "sdp" |} client_A
      example_hub_sharing = Some (None, s')
    ∧ sent s'
      = [{| to := 102;
            msg := outgoing.HostOffer {| outgoing.SID := 7; outgoing.Value := "sdp" |};
            accepted := took |}].
Proof.
  destruct (@relay_authorization prompt_runtime) as (Hoffer & _).
  specialize (Hoffer {| outgoing.SID := 7; outgoing.Value := "sdp" |}
                client_A example_hub_sharing).
  assert (Hcur : Rooms_CurrentRoom example_hub_sharing client_A = Ok "r1")
    by (vm_compute; reflexivity).
  rewrite Hcur in Hoffer. destruct Hoffer as (x & Hx & _ & Hcase).
  assert (Hroom : Rooms_Rooms example_hub_sharing !! "r1"
                  = Some example_room_sharing) by (vm_compute; reflexivity).
  rewrite Hroom in Hx. injection Hx as <-.
  assert (Hsession : Sessions example_room_sharing !! 7
                     = Some {| Host := 1; Client := 2 |})
    by (vm_compute; reflexivity).
  simpl outgoing.SID in Hcase. rewrite Hsession in Hcase.
  rewrite decide_True in Hcase by reflexivity.
  assert (Hpeer : Users example_room_sharing !! 2 = Some user_B)
    by (vm_compute; reflexivity).
  simpl Client in Hcase. rewrite Hpeer in Hcase.
  destruct Hcase as (s' & took & Hrun & (_ & Hsent & _)).
  exists s', took. split; [exact Hrun|]. rewrite Hsent. reflexivity.
Defined.

(** ** Joining a room *)

Section joining.
Context `{Runtime}.

Lemma set_Sessions_id (x : Room) : set_Sessions (fun m => m) x = x.
Proof. by destruct x. Qed.

Lemma join_sessions_loop (room : string) (client : ID) (c : User)
    (v4 v6 : IP) (members : list (ID * User)) :
  ∀ (s : Rooms) (x0 : Room),
    Rooms_Rooms s !! room = Some x0 →
    Users x0 !! client = Some c →
    (∀ e, e ∈ members → Users x0 !! User_ID e.2 = Some e.2) →
    ∃ (s' : Rooms) (opened : list ((ID * User) * N))
      (dss : list (Delivery * Delivery)),
      forEach members (fun entry =>
        if bool_decide (client = User_ID entry.2) || negb (Streaming entry.2)
        then ret tt
        else Room_newSession room (User_ID entry.2) client v4 v6) s
      = Some (tt, s')
      ∧ opened.*1 = filter (fun e => joins_as_client client e = true) members
      ∧ Forall (fun n => tick s ≤ n < tick s') opened.*2
      ∧ StronglySorted N.lt opened.*2
      ∧ Rooms_Rooms s'
        = <[room := set_Sessions (record_sessions client opened) x0]>
            (Rooms_Rooms s)
      ∧ connected s' = connected s
      ∧ conf s' = conf s
      ∧ r s' = r s
      ∧ tick s ≤ tick s'
      ∧ sent s' = sent s ++ (dss ≫= fun p => [p.1; p.2])
      ∧ Forall2 (session_messages client (_write c)) opened dss
      ∧ sessionCreatedTotal (metrics s')
        = sessionCreatedTotal (metrics s) + N.of_nat (length opened)
      ∧ usersJoinedTotal (metrics s') = usersJoinedTotal (metrics s).
Proof.
  induction members as [|e members IH]; intros s x0 Hx Hc Hin.
  - exists s, [], []. simpl. split_and!; try done.
    + constructor.
    + rewrite set_Sessions_id. by rewrite insert_id.
    + by rewrite app_nil_r.
    + lia.
  - assert (Hin' : ∀ e', e' ∈ members → Users x0 !! User_ID e'.2 = Some e'.2).
    { intros e' He'. apply Hin. by right. }
    simpl. unfold bind at 1.
    destruct (bool_decide (client = User_ID e.2) || negb (Streaming e.2)) eqn:Eskip.
    + destruct (IH s x0 Hx Hc Hin')
        as (s' & opened & dss & Hrun & Hop & Hticks & Hsorted & Hrest).
      exists s', opened, dss. split; [exact Hrun|]. split; [|done].
      rewrite filter_cons_False; [done|].
      unfold joins_as_client. rewrite Eskip. done.
    + assert (He : Users x0 !! User_ID e.2 = Some e.2) by (apply Hin; left).
      destruct (newSession_spec room x0 (User_ID e.2) client e.2 c v4 v6 s Hx He Hc)
        as (s1 & iceHost & iceClient & took1 & took2 & Hrun1 & HR1 & HC1 & HF1
            & Hr1 & HM1 & Hsent1 & Htick1 & _).
      rewrite Hrun1.
      set (x1 := set_Sessions
                   (insert (xid_New (tick s))
                      {| Host := User_ID e.2; Client := client |}) x0) in *.
      assert (Hx1 : Rooms_Rooms s1 !! room = Some x1).
      { rewrite HR1. apply lookup_insert_eq. }
      destruct (IH s1 x1 Hx1 Hc Hin')
        as (s' & opened & dss & Hrun & Hop & Hticks & Hsorted & HR & HC & HF
            & Hr & Htick & Hsent & Hmsgs & HM & HJ).
      exists s', ((e, tick s) :: opened),
        (({| to := _write e.2;
             msg := outgoing.HostSession client (xid_New (tick s)) iceHost;
             accepted := took1 |},
          {| to := _write c;
             msg := outgoing.ClientSession (User_ID e.2) (xid_New (tick s)) iceClient;
             accepted := took2 |}) :: dss).
      split; [exact Hrun|]. split_and!.
      * rewrite filter_cons_True by (unfold joins_as_client; by rewrite Eskip).
        rewrite fmap_cons, Hop. reflexivity.
      * simpl. constructor; [lia|].
        eapply Forall_impl; [exact Hticks|]. simpl. intros n Hn. lia.
      * simpl. constructor; [exact Hsorted|].
        eapply Forall_impl; [exact Hticks|]. simpl. intros n Hn. lia.
      * rewrite HR, HR1, insert_insert_eq. reflexivity.
      * congruence.
      * congruence.
      * congruence.
      * lia.
      * rewrite Hsent, Hsent1. simpl. by rewrite <- app_assoc.
      * constructor; [|exact Hmsgs]. unfold session_messages; simpl. eauto 10.
      * rewrite HM, HM1. simpl. lia.
      * rewrite HJ, HM1. reflexivity.
Qed.

Lemma record_sessions_other (client : ID) (opened : list ((ID * User) * N))
    (m : gmap N RoomSession) (sid : ID) :
  sid ∉ (fun on : (ID * User) * N => xid_New on.2) <$> opened →
  record_sessions client opened m !! sid = m !! sid.
Proof.
  revert m. induction opened as [|on opened IH]; intros m Hsid; [done|].
  unfold record_sessions in *. simpl. rewrite IH.
  - apply lookup_insert_ne. intros Heq. apply Hsid. rewrite fmap_cons, Heq. left.
  - intros Hin. apply Hsid. rewrite fmap_cons. by right.
Qed.

Lemma record_sessions_new (client : ID) (opened : list ((ID * User) * N))
    (m : gmap N RoomSession) (on : (ID * User) * N) :
  NoDup ((fun on : (ID * User) * N => xid_New on.2) <$> opened) →
  on ∈ opened →
  record_sessions client opened m !! xid_New on.2
  = Some {| Host := User_ID on.1.2; Client := client |}.
Proof.
  revert m. induction opened as [|a opened IH]; intros m Hnd Hin.
  - by apply elem_of_nil in Hin.
  - rewrite fmap_cons in Hnd. apply NoDup_cons in Hnd as [Ha Hnd].
    apply elem_of_cons in Hin as [->|Hin].
    + change (record_sessions client (a :: opened) m)
        with (record_sessions client opened
                (<[xid_New a.2 := {| Host := User_ID a.1.2; Client := client |}]> m)).
      rewrite record_sessions_other by exact Ha. apply lookup_insert_eq.
    + by apply IH.
Qed.

Lemma sorted_ticks_NoDup (opened : list ((ID * User) * N)) :
  StronglySorted N.lt opened.*2 →
  NoDup ((fun on : (ID * User) * N => xid_New on.2) <$> opened).
Proof.
  induction opened as [|a opened IH]; simpl; intros Hs; [constructor|].
  apply StronglySorted_inv in Hs as [Hs Ha]. constructor; [|by apply IH].
  intros [b [Heq Hb]]%list_elem_of_fmap. apply xid_New_inj in Heq.
  rewrite Forall_forall in Ha. specialize (Ha b.2).
  assert (a.2 < b.2) as Hlt; [|lia].
  apply Ha. apply list_elem_of_fmap. by exists b.
Qed.


Lemma Join_Execute_already (e : Join) (current : ClientInfo) (s : Rooms) :
  default "" (connected s !! ClientInfo_ID current) ≠ "" →
  Join_Execute e current s
  = Some (Some "cannot join room, you are already in one", s).
Proof.
  intros Hin. unfold Join_Execute, bind, get.
  by rewrite bool_decide_eq_true_2.
Qed.

Lemma Join_Execute_no_room (e : Join) (current : ClientInfo) (s : Rooms) :
  default "" (connected s !! ClientInfo_ID current) = "" →
  Rooms_Rooms s !! Join_ID e = None →
  Join_Execute e current s
  = Some (Some ("room with id " +:+ Join_ID e +:+ " does not exist"), s).
Proof.
  intros Hfree Hroom. unfold Join_Execute, bind, get.
  rewrite bool_decide_eq_false_2 by (by intros ?). by rewrite Hroom.
Qed.

Lemma Join_Execute_enter (e : Join) (current : ClientInfo) (s : Rooms) (x : Room) :
  default "" (connected s !! ClientInfo_ID current) = "" →
  Rooms_Rooms s !! Join_ID e = Some x →
  Join_Execute e current s
  = join_enter (Join_ID e) x (joined_user e current s)
      (if bool_decide ((if Authenticated current then AuthenticatedUser current
                        else UserName e) = "")
       then set_r (fun n => n + 1) s else s).
Proof.
  intros Hfree Hroom. unfold Join_Execute, bind at 1, get.
  rewrite bool_decide_eq_false_2 by (by intros ?). rewrite Hroom.
  unfold bind at 1, joined_user, join_name.
  destruct (bool_decide _); reflexivity.
Qed.


Lemma filter_ext_in {A} (P1 P2 : A → Prop) `{∀ x, Decision (P1 x)}
    `{∀ x, Decision (P2 x)} (l : list A) :
  (∀ x, x ∈ l → (P1 x ↔ P2 x)) → filter P1 l = filter P2 l.
Proof.
  induction l as [|a l IH]; intros Hext; [done|].
  assert (Ha : P1 a ↔ P2 a) by (apply Hext; left).
  assert (Hl : filter P1 l = filter P2 l).
  { apply IH. intros x Hx. apply Hext. by right. }
  destruct (decide (P1 a)) as [HPa|HPa].
  - rewrite !filter_cons_True by tauto. by rewrite Hl.
  - rewrite !filter_cons_False by tauto. exact Hl.
Qed.

Lemma filter_other_keys {V} (P : N * V → Prop) `{∀ e, Decision (P e)}
    (id : N) (v : V) (m : gmap N V) :
  (∀ w, ¬ P (id, w)) →
  filter P (map_to_list (<[id := v]> m)) ≡ₚ filter P (map_to_list m).
Proof.
  intros Hid.
  rewrite <- (insert_delete_eq m id v).
  rewrite map_to_list_insert by apply lookup_delete_eq.
  rewrite filter_cons_False by apply Hid.
  destruct (m !! id) as [w|] eqn:Hw.
  - rewrite <- (insert_delete_id m id w Hw) at 2.
    rewrite map_to_list_insert by apply lookup_delete_eq.
    by rewrite filter_cons_False by apply Hid.
  - by rewrite delete_id.
Qed.

Lemma streaming_members (id : ID) (user : User) (m : gmap N User)
    (members : list (ID * User)) :
  members ≡ₚ map_to_list (<[id := user]> m) →
  User_ID user = id →
  (∀ k u, m !! k = Some u → User_ID u = k) →
  filter (fun e => joins_as_client id e = true) members
  ≡ₚ filter (fun e : ID * User => Streaming e.2 = true ∧ e.1 ≠ id) (map_to_list m).
Proof.
  intros Hm Hid Hkeys. rewrite Hm.
  rewrite <- (filter_other_keys _ id user m) by (intros w [_ Hne]; by apply Hne).
  erewrite filter_ext_in; [done|].
  intros [k u] Hin. apply elem_of_map_to_list in Hin. simpl.
  assert (Hk : User_ID u = k).
  { destruct (decide (k = id)) as [->|Hne].
    - rewrite lookup_insert_eq in Hin. by injection Hin as <-.
    - rewrite lookup_insert_ne in Hin by done. by apply Hkeys. }
  unfold joins_as_client. simpl. rewrite Hk.
  destruct (Streaming u); simpl; case_bool_decide; simpl; split;
    try done; intros [? ?]; try done; congruence.
Qed.

Lemma TurnIPProvider_Get_spec (s : Rooms) :
  TurnIPProvider_Get s
  = Some (config.TurnIPProvider (conf s) (tick s), set_tick (fun n => n + 1) s).
Proof. reflexivity. Qed.

Lemma join_enter_spec (room : string) (x : Room) (user : User) (sa : Rooms) :
  Rooms_Rooms sa !! room = Some x →
  (∀ k u, Users x !! k = Some u → User_ID u = k) →
  let id := User_ID user in
  let x1 := set_Users (insert id user) x in
  ∃ (s' : Rooms) (err : option string) (n : N)
    (members : list (ID * User)) (ds : list Delivery)
    (opened : list ((ID * User) * N)) (dss : list (Delivery * Delivery)),
    join_enter room x user sa = Some (err, s')
    ∧ connected s' = <[id := Room_ID x]> (connected sa)
    ∧ conf s' = conf sa
    ∧ r s' = r sa
    ∧ usersJoinedTotal (metrics s') = usersJoinedTotal (metrics sa) + 1
    ∧ members ≡ₚ map_to_list (Users x1)
    ∧ Forall2 (room_info_for x1) members ds
    ∧ tick sa ≤ n
    ∧ sent s' = sent sa ++ ds ++ (dss ≫= fun p => [p.1; p.2])
    ∧ Forall2 (session_messages id (_write user)) opened dss
    ∧ StronglySorted N.lt opened.*2
    ∧ Rooms_Rooms s'
      = <[room := set_Sessions (record_sessions id opened) x1]> (Rooms_Rooms sa)
    ∧ sessionCreatedTotal (metrics s')
      = sessionCreatedTotal (metrics sa) + N.of_nat (length opened)
    ∧ match config.TurnIPProvider (conf sa) n with
      | config.GetErr msg => err = Some msg ∧ opened = []
      | config.GetOk v4 v6 =>
          err = None
          ∧ opened.*1
            ≡ₚ filter (fun e : ID * User => Streaming e.2 = true ∧ e.1 ≠ id)
                 (map_to_list (Users x))
      end.
Proof.
  intros Hx Hkeys id x1. unfold join_enter.
  unfold bind at 1, update_room, modify.
  unfold bind at 1, modify.
  set (s2 := set_connected _ _).
  assert (HR2 : Rooms_Rooms s2 = <[room := x1]> (Rooms_Rooms sa)).
  { unfold s2; simpl. apply map_eq. intros k.
    destruct (decide (k = room)) as [->|Hne].
    - by rewrite lookup_alter_eq, lookup_insert_eq, Hx.
    - by rewrite lookup_alter_ne, lookup_insert_ne. }
  assert (Hx2 : Rooms_Rooms s2 !! room = Some x1).
  { rewrite HR2. apply lookup_insert_eq. }
  unfold bind at 1.
  destruct (notifyInfoChanged_spec room x1 s2 Hx2)
    as (s3 & members & ds & Hrun3 & Hmembers & Hinfo & (Hhub3 & Hsent3 & Htick3)).
  destruct Hhub3 as (HT3 & HR3 & HC3 & HF3 & Hr3 & HM3).
  rewrite Hrun3. unfold bind at 1, modify.
  unfold bind at 1. rewrite TurnIPProvider_Get_spec.
  set (s5 := set_tick _ _).
  change (conf (set_metrics inc_usersJoinedTotal s3)) with (conf s3).
  change (tick (set_metrics inc_usersJoinedTotal s3)) with (tick s3).
  assert (Hn : tick sa ≤ tick s3) by exact Htick3.
  assert (Hconf : conf s3 = conf sa) by exact HF3.
  rewrite Hconf.
  destruct (config.TurnIPProvider (conf sa) (tick s3)) as [v4 v6|msg] eqn:Eget.
  - assert (Hx5 : Rooms_Rooms s5 !! room = Some x1).
    { unfold s5; simpl. by rewrite HR3. }
    unfold bind at 1. rewrite (deref_room_spec room x1 s5 Hx5).
    unfold bind at 1. rewrite range_spec.
    set (members2 := range_order _ _ _).
    set (s6 := set_tick _ s5).
    assert (Hm2 : members2 ≡ₚ map_to_list (Users x1)) by apply range_order_perm.
    assert (Hx6 : Rooms_Rooms s6 !! room = Some x1) by exact Hx5.
    assert (Huser : Users x1 !! id = Some user) by apply lookup_insert_eq.
    assert (Hmem : ∀ e, e ∈ members2 → Users x1 !! User_ID e.2 = Some e.2).
    { intros [k u] Hin. rewrite Hm2 in Hin. apply elem_of_map_to_list in Hin.
      simpl in *. destruct (decide (k = id)) as [->|Hne].
      - rewrite lookup_insert_eq in Hin. injection Hin as <-. exact Huser.
      - rewrite lookup_insert_ne in Hin by done.
        rewrite (Hkeys k u Hin). by rewrite lookup_insert_ne. }
    unfold bind at 1.
    destruct (join_sessions_loop room id user v4 v6 members2 s6 x1 Hx6 Huser Hmem)
      as (s' & opened & dss & Hrun & Hop & Hticks & Hsorted & HR & HC & HF & Hr
          & Htick & Hsent & Hmsgs & HM & HJ).
    fold id. rewrite Hrun.
    exists s', None, (tick s3), members, ds, opened, dss.
    split; [reflexivity|]. rewrite Eget.
    split_and!.
    + rewrite HC. unfold s6, s5; simpl. by rewrite HC3.
    + rewrite HF. unfold s6, s5; simpl. exact Hconf.
    + rewrite Hr. unfold s6, s5; simpl. exact Hr3.
    + rewrite HJ. unfold s6, s5; simpl. by rewrite HM3.
    + exact Hmembers.
    + exact Hinfo.
    + exact Hn.
    + rewrite Hsent. unfold s6, s5; simpl. by rewrite Hsent3, app_assoc.
    + exact Hmsgs.
    + exact Hsorted.
    + rewrite HR. unfold s6, s5; simpl. by rewrite HR3, HR2, insert_insert_eq.
    + rewrite HM. unfold s6, s5; simpl. by rewrite HM3.
    + reflexivity.
    + rewrite Hop.
      exact (streaming_members id user (Users x) members2 Hm2 eq_refl Hkeys).
  - exists s5, (Some msg), (tick s3), members, ds, [], [].
    split; [reflexivity|]. rewrite Eget. unfold s5; simpl.
    split_and!.
    + by rewrite HC3.
    + exact Hconf.
    + exact Hr3.
    + by rewrite HM3.
    + exact Hmembers.
    + exact Hinfo.
    + exact Hn.
    + by rewrite Hsent3, app_nil_r.
    + constructor.
    + constructor.
    + rewrite HR3, HR2. unfold record_sessions; simpl.
      by rewrite set_Sessions_id.
    + rewrite HM3. simpl. lia.
    + reflexivity.
    + reflexivity.
Qed.


(** C2 (amended).  A join from a sender whose membership record is not empty
    fails with "already in a room", and a join to a room id that does not
    resolve fails with "room does not exist"; neither changes the state.
    Otherwise the sender is added to the room as a User that is no owner and
    does not stream, named by the authenticated username if the sender is
    authenticated, else by the supplied username, and by a generated name
    when that choice is empty; the membership is recorded and the room info
    is broadcast to every member, the sender included.  Then the address
    provider is asked.  When it answers, one session is opened for each
    member that already streams, with that member as host and the sender as
    client, each under its own fresh id and announced to both, no other
    session of the room changes, and the join succeeds; when it fails the
    join returns its error and no session is opened. *)
Theorem join_contract (e : Join) (current : ClientInfo) (s : Rooms) :
  let id := ClientInfo_ID current in
  (default "" (connected s !! id) ≠ "" →
     Join_Execute e current s
     = Some (Some "cannot join room, you are already in one", s))
  ∧ (default "" (connected s !! id) = "" →
     Rooms_Rooms s !! Join_ID e = None →
     Join_Execute e current s
     = Some (Some ("room with id " +:+ Join_ID e +:+ " does not exist"), s))
  ∧ (∀ x : Room,
       default "" (connected s !! id) = "" →
       Rooms_Rooms s !! Join_ID e = Some x →
       (∀ k u, Users x !! k = Some u → User_ID u = k) →
       let chosen :=
         if Authenticated current then AuthenticatedUser current
         else UserName e in
       let user :=
         {| User_ID := id;
            User_Addr := ClientInfo_Addr current;
            Name := if bool_decide (chosen = "") then NewUserName (r s)
                    else chosen;
            Streaming := false;
            Owner := false;
            _write := Write current |} in
       ∃ (s' : Rooms) (err : option string) (x' : Room) (n : N)
         (members : list (ID * User)) (ds : list Delivery)
         (opened : list ((ID * User) * N)) (dss : list (Delivery * Delivery)),
         Join_Execute e current s = Some (err, s')
         ∧ Rooms_Rooms s' = <[Join_ID e := x']> (Rooms_Rooms s)
         ∧ Users x' = <[id := user]> (Users x)
         ∧ connected s' = <[id := Room_ID x]> (connected s)
         ∧ members ≡ₚ map_to_list (Users x')
         ∧ Forall2 (room_info_for x') members ds
         ∧ sent s' = sent s ++ ds ++ (dss ≫= fun p => [p.1; p.2])
         ∧ Forall2 (session_messages id (Write current)) opened dss
         ∧ NoDup ((fun on : (ID * User) * N => xid_New on.2) <$> opened)
         ∧ (∀ on, on ∈ opened →
              Sessions x' !! xid_New on.2
              = Some {| Host := User_ID on.1.2; Client := id |})
         ∧ (∀ sid,
              sid ∉ (fun on : (ID * User) * N => xid_New on.2) <$> opened →
              Sessions x' !! sid = Sessions x !! sid)
         ∧ sessionCreatedTotal (metrics s')
           = sessionCreatedTotal (metrics s) + N.of_nat (length opened)
         ∧ tick s ≤ n
         ∧ match config.TurnIPProvider (conf s) n with
           | config.GetErr msg => err = Some msg ∧ opened = []
           | config.GetOk _ _ =>
               err = None
               ∧ opened.*1
                 ≡ₚ filter (fun m : ID * User => Streaming m.2 = true ∧ m.1 ≠ id)
                      (map_to_list (Users x))
           end).
Proof.
  intros id. split; [apply Join_Execute_already|].
  split; [apply Join_Execute_no_room|].
  intros x Hfree Hroom Hkeys chosen user.
  rewrite (Join_Execute_enter e current s x Hfree Hroom).
  fold chosen.
  change (joined_user e current s) with user.
  set (sa := if bool_decide (chosen = "") then _ else s).
  assert (Hsa : Rooms_Rooms sa = Rooms_Rooms s ∧ connected sa = connected s
                ∧ conf sa = conf s ∧ tick sa = tick s ∧ sent sa = sent s
                ∧ metrics sa = metrics s).
  { unfold sa. by destruct (bool_decide _). }
  destruct Hsa as (HRa & HCa & HFa & Hta & Hsa & HMa).
  assert (Hxa : Rooms_Rooms sa !! Join_ID e = Some x) by (by rewrite HRa).
  destruct (join_enter_spec (Join_ID e) x user sa Hxa Hkeys)
    as (s' & err & n & members & ds & opened & dss & Hrun & HC & _ & _ & _
        & Hmembers & Hinfo & Hn & Hsent & Hmsgs & Hsorted & HR & HM & Hcase).
  exists s', err,
    (set_Sessions (record_sessions id opened) (set_Users (insert id user) x)),
    n, members, ds, opened, dss.
  pose proof (sorted_ticks_NoDup opened Hsorted) as Hnd.
  split; [exact Hrun|]. split_and!.
  - rewrite HR, HRa. reflexivity.
  - reflexivity.
  - rewrite HC, HCa. reflexivity.
  - exact Hmembers.
  - exact Hinfo.
  - rewrite Hsent, Hsa. reflexivity.
  - exact Hmsgs.
  - exact Hnd.
  - intros on Hon. simpl. by apply record_sessions_new.
  - intros sid Hsid. simpl. by apply record_sessions_other.
  - rewrite HM, HMa. reflexivity.
  - by rewrite <- Hta.
  - rewrite <- HFa. exact Hcase.
Qed.

End joining.

(** With an address provider that fails, D joins the room in which A and B
    stream: D is added and the join fails, without any session.  With an
    authenticated sender whose username is empty, the user is given a
    generated name, not the authenticated one. *)
Lemma join_contract_counterexample :
  (∃ (s' : Rooms) (x' : Room),
     @Join_Execute prompt_runtime {| Join_ID := "r1"; UserName := "dan" |}
       client_D example_hub_no_addresses
     = Some (Some "no public address", s')
     ∧ Rooms_Rooms s' !! "r1" = Some x'
     ∧ is_Some (Users x' !! 4)
     ∧ Sessions x' = ∅
     ∧ (Streaming <$> Users x' !! 1) = Some true
     ∧ (Streaming <$> Users x' !! 2) = Some true)
  ∧ (∃ (s' : Rooms) (x' : Room) (u : User),
       @Join_Execute prompt_runtime {| Join_ID := "r1"; UserName := "dan" |}
         client_E example_hub
       = Some (None, s')
       ∧ Rooms_Rooms s' !! "r1" = Some x'
       ∧ Users x' !! 4 = Some u
       ∧ Name u = "guest0"
       ∧ Name u ≠ AuthenticatedUser client_E).
Proof.
  split.
  - eexists _, _. split; [vm_compute; reflexivity|].
    split; [vm_compute; reflexivity|].
    split; [vm_compute; eauto|].
    split; [vm_compute; reflexivity|].
    split; vm_compute; reflexivity.
  - eexists _, _, _. split; [vm_compute; reflexivity|].
    split; [vm_compute; reflexivity|].
    split; [vm_compute; reflexivity|].
    split; [vm_compute; reflexivity|]. vm_compute. discriminate.
Qed.

Lemma join_contract_witness :
  ∃ (s' : Rooms) (x' : Room),
    @Join_Execute prompt_runtime {| Join_ID := "r1"; UserName := "dan" |}
      client_D example_hub = Some (None, s')
    ∧ Rooms_Rooms s' !! "r1" = Some x'
    ∧ (Name <$> Users x' !! 4) = Some "dan"
    ∧ connected s' !! 4 = Some "r1".
Proof.
  destruct (@join_contract prompt_runtime {| Join_ID := "r1"; UserName := "dan" |}
              client_D example_hub) as (_ & _ & Hjoin).
  destruct (Hjoin example_room)
    as (s' & err & x' & n & members & ds & opened & dss & Hrun & HR & HU & HC
        & _ & _ & _ & _ & _ & _ & _ & _ & _ & Hcase).
  { vm_compute. reflexivity. }
  { vm_compute. reflexivity. }
  { intros k u. unfold example_room; simpl.
    destruct (decide (k = 1)) as [->|H1];
      [rewrite lookup_insert_eq; by intros [= <-]|rewrite lookup_insert_ne by done].
    destruct (decide (k = 2)) as [->|H2];
      [rewrite lookup_insert_eq; by intros [= <-]|rewrite lookup_insert_ne by done].
    destruct (decide (k = 3)) as [->|H3];
      [rewrite lookup_insert_eq; by intros [= <-]|rewrite lookup_insert_ne by done].
    done. }
  simpl in Hcase. destruct Hcase as [-> _].
  exists s', x'. split; [exact Hrun|]. rewrite HR, HU, HC.
  split; [apply lookup_insert_eq|].
  split; [by rewrite lookup_insert_eq|apply lookup_insert_eq].
Defined.

(** ** Membership *)

Section membership.
Context `{Runtime}.

Lemma hub_wf_exclusive (s : Rooms) : hub_wf s → exclusive s.
Proof.
  intros [_ Hmem] id room1 room2 x1 x2 Hx1 Hx2 [u1 Hu1] [u2 Hu2].
  destruct (Hmem room1 x1 id u1 Hx1 Hu1) as [_ Hc1].
  destruct (Hmem room2 x2 id u2 Hx2 Hu2) as [_ Hc2].
  congruence.
Qed.

(** A state whose rooms are among those of [s], with the same ids and with
    users among theirs, [id] apart, and whose membership map is that of [s]
    without [id]. *)
Lemma hub_wf_shrink (s s' : Rooms) (id : ID) :
  hub_wf s →
  connected s' = delete id (connected s) →
  (∀ room x', Rooms_Rooms s' !! room = Some x' →
     ∃ x, Rooms_Rooms s !! room = Some x
          ∧ Room_ID x' = Room_ID x
          ∧ ∀ k u, Users x' !! k = Some u → Users x !! k = Some u ∧ k ≠ id) →
  hub_wf s'.
Proof.
  intros [Hrooms Hmem] Hconn Hsub. split.
  - intros room x' Hx'. destruct (Hsub room x' Hx') as (x & Hx & Hid & _).
    rewrite Hid. by apply Hrooms.
  - intros room x' k u Hx' Hu. destruct (Hsub room x' Hx') as (x & Hx & _ & Hus).
    destruct (Hus k u Hu) as [Hu0 Hne].
    destruct (Hmem room x k u Hx Hu0) as [Hk Hc]. split; [exact Hk|].
    rewrite Hconn. by rewrite lookup_delete_ne.
Qed.

Lemma closeSession_state_Rooms (room : string) (x : Room) (id : ID) (s : Rooms) :
  Rooms_Rooms s !! room = Some x →
  Rooms_Rooms (closeSession_state room x id s)
  = <[room := set_Sessions (delete id) x]> (Rooms_Rooms s)
  ∧ connected (closeSession_state room x id s) = connected s.
Proof.
  intros Hx. unfold closeSession_state.
  destruct (bool_decide (Mode x = ConnectionTURN)); simpl;
    (split; [|done]); apply map_eq; intros k;
    (destruct (decide (k = room)) as [->|Hne];
     [by rewrite lookup_alter_eq, lookup_insert_eq, Hx
     |by rewrite lookup_alter_ne, lookup_insert_ne]).
Qed.

Lemma end_hosted_session_spec (room : string) (host : ID)
    (entry : ID * RoomSession) (s : Rooms) (x : Room) :
  Rooms_Rooms s !! room = Some x →
  ∃ (s' : Rooms) (x' : Room),
    end_hosted_session room host entry s = Some (tt, s')
    ∧ Rooms_Rooms s' = <[room := x']> (Rooms_Rooms s)
    ∧ Users x' = Users x
    ∧ Room_ID x' = Room_ID x
    ∧ CloseOnOwnerLeave x' = CloseOnOwnerLeave x
    ∧ connected s' = connected s.
Proof.
  intros Hx. unfold end_hosted_session.
  case_bool_decide as Hhost.
  - unfold bind at 1. unfold bind at 1. rewrite (deref_room_spec room x s Hx).
    assert (Hw : ∃ s1, match Users x !! Client entry.2 with
                       | Some client =>
                           User_WriteTimeout client (outgoing.EndShare entry.1)
                       | None => ret tt
                       end s = Some (tt, s1)
                       ∧ Rooms_Rooms s1 = Rooms_Rooms s
                       ∧ connected s1 = connected s).
    { destruct (Users x !! Client entry.2) as [client|].
      - destruct (writeTimeout_sends (_write client) (outgoing.EndShare entry.1) s)
          as (s1 & took & Hw & ((_ & HR & HC & _) & _) & _).
        exists s1. by split.
      - exists s. by split. }
    destruct Hw as (s1 & -> & HR1 & HC1).
    assert (Hx1 : Rooms_Rooms s1 !! room = Some x) by (by rewrite HR1).
    rewrite (closeSession_spec room x entry.1 s1 Hx1).
    destruct (closeSession_state_Rooms room x entry.1 s1 Hx1) as [HR HC].
    eexists _, (set_Sessions (delete entry.1) x). split; [reflexivity|].
    rewrite HR, HC, HR1, HC1. by split_and!.
  - exists s, x. split; [reflexivity|]. split; [by rewrite insert_id|]. done.
Qed.

Lemma end_session_of_spec (room : string) (id : ID)
    (entry : ID * RoomSession) (s : Rooms) (x : Room) :
  Rooms_Rooms s !! room = Some x →
  ∃ (s' : Rooms) (x' : Room),
    end_session_of room id entry s = Some (tt, s')
    ∧ Rooms_Rooms s' = <[room := x']> (Rooms_Rooms s)
    ∧ Users x' = Users x
    ∧ Room_ID x' = Room_ID x
    ∧ CloseOnOwnerLeave x' = CloseOnOwnerLeave x
    ∧ connected s' = connected s.
Proof.
  intros Hx. unfold end_session_of.
  case_bool_decide as Hhost; [by apply end_hosted_session_spec|].
  case_bool_decide as Hclient.
  - rewrite (closeSession_spec room x entry.1 s Hx).
    destruct (closeSession_state_Rooms room x entry.1 s Hx) as [HR HC].
    eexists _, (set_Sessions (delete entry.1) x). split; [reflexivity|].
    rewrite HR, HC. by split_and!.
  - exists s, x. split; [reflexivity|]. split; [by rewrite insert_id|]. done.
Qed.

Lemma end_sessions_of_loop (room : string) (id : ID)
    (sessions : list (ID * RoomSession)) :
  ∀ (s : Rooms) (x : Room),
    Rooms_Rooms s !! room = Some x →
    ∃ (s' : Rooms) (x' : Room),
      forEach sessions (end_session_of room id) s = Some (tt, s')
      ∧ Rooms_Rooms s' = <[room := x']> (Rooms_Rooms s)
      ∧ Users x' = Users x
      ∧ Room_ID x' = Room_ID x
      ∧ CloseOnOwnerLeave x' = CloseOnOwnerLeave x
      ∧ connected s' = connected s.
Proof.
  induction sessions as [|entry sessions IH]; intros s x Hx.
  - exists s, x. split; [reflexivity|]. split; [by rewrite insert_id|]. done.
  - simpl. unfold bind at 1.
    destruct (end_session_of_spec room id entry s x Hx)
      as (s1 & x1 & -> & HR1 & HU1 & HI1 & HO1 & HC1).
    assert (Hx1 : Rooms_Rooms s1 !! room = Some x1).
    { rewrite HR1. apply lookup_insert_eq. }
    destruct (IH s1 x1 Hx1) as (s' & x' & Hrun & HR & HU & HI & HO & HC).
    exists s', x'. split; [exact Hrun|].
    rewrite HR, HR1, insert_insert_eq, HU, HI, HO, HC. by split_and!.
Qed.

Lemma member_record (s : Rooms) (room : string) (x : Room) (id : ID) :
  hub_wf s → Rooms_Rooms s !! room = Some x → is_Some (Users x !! id) →
  default "" (connected s !! id) = room ∧ room ≠ "".
Proof.
  intros [Hrooms Hmem] Hx [u Hu].
  destruct (Hmem room x id u Hx Hu) as [_ ->].
  split; [done|]. by destruct (Hrooms room x Hx).
Qed.

Lemma Disconnected_wf (e : Disconnected) (current : ClientInfo) (s : Rooms) :
  hub_wf s →
  ∃ s' : Rooms,
    Disconnected_executeNoError e current s = Some (tt, s') ∧ hub_wf s'.
Proof.
  intros Hwf. unfold Disconnected_executeNoError.
  unfold bind at 1, get. unfold bind at 1, modify. unfold bind at 1.
  set (id := ClientInfo_ID current).
  set (roomID := default "" (connected s !! id)).
  destruct (writeTimeout_sends (Write current)
              (outgoing.CloseWriter (Code e) (Reason e))
              (set_connected (delete id) s))
    as (s1 & took & -> & ((_ & HR1 & HC1 & _) & _) & _).
  simpl in HR1, HC1.
  (* the sender is a user of no room but, possibly, its own *)
  assert (Hother : ∀ room x, Rooms_Rooms s !! room = Some x →
                     is_Some (Users x !! id) → room = roomID ∧ roomID ≠ "").
  { intros room x Hx Hu.
    destruct (member_record s room x id Hwf Hx Hu) as [<- Hne]. done. }
  assert (Hearly : (∀ room x, Rooms_Rooms s !! room = Some x →
                      Users x !! id = None) → hub_wf s1).
  { intros Hnone. apply (hub_wf_shrink s s1 id Hwf HC1).
    intros room x' Hx'. rewrite HR1 in Hx'. exists x'.
    split; [exact Hx'|]. split; [done|]. intros k u Hu. split; [exact Hu|].
    intros ->. by rewrite (Hnone room x' Hx') in Hu. }
  case_bool_decide as Hempty.
  { exists s1. split; [reflexivity|]. apply Hearly. intros room x Hx.
    destruct (Users x !! id) as [u|] eqn:Hu; [|done].
    destruct (Hother room x Hx) as [_ Hne]; [by eexists|]. done. }
  destruct (Rooms_Rooms s !! roomID) as [x|] eqn:Hx.
  2:{ exists s1. split; [reflexivity|]. apply Hearly. intros room x Hx'.
      destruct (Users x !! id) as [u|] eqn:Hu; [|done].
      destruct (Hother room x Hx') as [-> _]; [by eexists|]. congruence. }
  destruct (Users x !! id) as [user|] eqn:Huser.
  2:{ exists s1. split; [reflexivity|]. apply Hearly. intros room x' Hx'.
      destruct (Users x' !! id) as [u|] eqn:Hu; [|done].
      destruct (Hother room x' Hx') as [-> _]; [by eexists|]. congruence. }
  unfold bind at 1, update_room, modify.
  unfold bind at 1. rewrite range_spec.
  set (x2 := set_Users (delete id) x).
  set (sessions := range_order _ _ _).
  set (s2 := set_tick _ _).
  assert (HR2 : Rooms_Rooms s2 = <[roomID := x2]> (Rooms_Rooms s)).
  { unfold s2; simpl. rewrite HR1. apply map_eq. intros k.
    destruct (decide (k = roomID)) as [->|Hne].
    - by rewrite lookup_alter_eq, lookup_insert_eq, Hx.
    - by rewrite lookup_alter_ne, lookup_insert_ne. }
  assert (HC2 : connected s2 = delete id (connected s)) by exact HC1.
  assert (Hx2 : Rooms_Rooms s2 !! roomID = Some x2).
  { rewrite HR2. apply lookup_insert_eq. }
  unfold bind at 1.
  destruct (end_sessions_of_loop roomID id sessions s2 x2 Hx2)
    as (s3 & x3 & -> & HR3 & HU3 & HI3 & HO3 & HC3).
  rewrite HR2, insert_insert_eq in HR3.
  assert (Hx3 : Rooms_Rooms s3 !! roomID = Some x3).
  { rewrite HR3. apply lookup_insert_eq. }
  (* the rooms that remain hold the users they held, the sender apart *)
  assert (Hrest : ∀ room x', <[roomID := x3]> (Rooms_Rooms s) !! room = Some x' →
            ∃ x0, Rooms_Rooms s !! room = Some x0 ∧ Room_ID x' = Room_ID x0
                  ∧ ∀ k u, Users x' !! k = Some u →
                           Users x0 !! k = Some u ∧ k ≠ id).
  { intros room x' Hx'. destruct (decide (room = roomID)) as [->|Hne].
    - rewrite lookup_insert_eq in Hx'. injection Hx' as <-.
      exists x. split; [exact Hx|]. split; [exact HI3|].
      intros k u Hu. rewrite HU3 in Hu. unfold x2 in Hu; simpl in Hu.
      destruct (decide (k = id)) as [->|Hk].
      + by rewrite lookup_delete_eq in Hu.
      + rewrite lookup_delete_ne in Hu by done. done.
    - rewrite lookup_insert_ne in Hx' by done.
      exists x'. split; [exact Hx'|]. split; [done|].
      intros k u Hu. split; [exact Hu|]. intros ->.
      destruct (Hother room x' Hx') as [-> _]; [by eexists|]. done. }
  destruct (Owner user && CloseOnOwnerLeave x).
  - destruct (closeRoom_present roomID x3 s3 Hx3)
      as (s4 & ids & -> & _ & HR4 & HC4 & _).
    exists s4. split; [reflexivity|].
    apply (hub_wf_shrink s s4 id Hwf); [by rewrite HC4, HC3|].
    intros room x' Hx'. rewrite HR4, HR3 in Hx'.
    apply Hrest. destruct (decide (room = roomID)) as [->|Hne].
    + by rewrite lookup_delete_eq in Hx'.
    + by rewrite lookup_delete_ne in Hx'.
  - destruct (notifyInfoChanged_spec roomID x3 s3 Hx3)
      as (s4 & members & ds & -> & _ & _ & ((_ & HR4 & HC4 & _) & _)).
    exists s4. split; [reflexivity|].
    apply (hub_wf_shrink s s4 id Hwf); [by rewrite HC4, HC3|].
    intros room x' Hx'. rewrite HR4, HR3 in Hx'. by apply Hrest.
Qed.


Lemma hub_wf_same (s s' : Rooms) :
  Rooms_Rooms s' = Rooms_Rooms s → connected s' = connected s →
  hub_wf s → hub_wf s'.
Proof.
  intros HR HC [Hrooms Hmem]. unfold hub_wf. rewrite HR, HC. by split.
Qed.

Lemma Join_wf (e : Join) (current : ClientInfo) (s : Rooms) :
  hub_wf s →
  ∃ (err : option string) (s' : Rooms),
    Join_Execute e current s = Some (err, s') ∧ hub_wf s'.
Proof.
  intros Hwf. set (id := ClientInfo_ID current).
  destruct (decide (default "" (connected s !! id) = "")) as [Hfree|Hin].
  2:{ rewrite Join_Execute_already by done. eauto. }
  destruct (Rooms_Rooms s !! Join_ID e) as [x|] eqn:Hroom.
  2:{ rewrite Join_Execute_no_room by done. eauto. }
  rewrite (Join_Execute_enter e current s x Hfree Hroom).
  set (sa := if bool_decide _ then _ else s).
  assert (Hsa : Rooms_Rooms sa = Rooms_Rooms s ∧ connected sa = connected s).
  { unfold sa. by destruct (bool_decide _). }
  destruct Hsa as [HRa HCa].
  assert (Hxa : Rooms_Rooms sa !! Join_ID e = Some x) by (by rewrite HRa).
  destruct Hwf as [Hrooms Hmem].
  assert (Hkeys : ∀ k u, Users x !! k = Some u → User_ID u = k).
  { intros k u Hu. by destruct (Hmem (Join_ID e) x k u Hroom Hu). }
  destruct (join_enter_spec (Join_ID e) x (joined_user e current s) sa Hxa Hkeys)
    as (s' & err & n & members & ds & opened & dss & Hrun & HC & _ & _ & _
        & _ & _ & _ & _ & _ & _ & HR & _).
  exists err, s'. split; [exact Hrun|].
  change (User_ID (joined_user e current s)) with id in HC, HR.
  rewrite HRa in HR. rewrite HCa in HC.
  destruct (Hrooms (Join_ID e) x Hroom) as [Hne Hid].
  split.
  - intros room x' Hx'. rewrite HR in Hx'.
    destruct (decide (room = Join_ID e)) as [->|Hr].
    + rewrite lookup_insert_eq in Hx'. injection Hx' as <-. done.
    + rewrite lookup_insert_ne in Hx' by done. by apply Hrooms.
  - intros room x' k u Hx' Hu. rewrite HR in Hx'. rewrite HC, Hid.
    destruct (decide (room = Join_ID e)) as [->|Hr].
    + rewrite lookup_insert_eq in Hx'. injection Hx' as <-. simpl in Hu.
      destruct (decide (k = id)) as [->|Hk].
      * rewrite lookup_insert_eq in Hu. injection Hu as <-.
        split; [done|]. by rewrite lookup_insert_eq.
      * rewrite lookup_insert_ne in Hu by done.
        rewrite lookup_insert_ne by done. by apply (Hmem _ x).
    + rewrite lookup_insert_ne in Hx' by done.
      destruct (Hmem room x' k u Hx' Hu) as [Hk Hc]. split; [exact Hk|].
      destruct (decide (k = id)) as [->|Hkid].
      * rewrite Hc in Hfree. simpl in Hfree. subst room.
        by destruct (Hrooms "" x' Hx').
      * by rewrite lookup_insert_ne.
Qed.

Lemma Start_step_wf (m : ClientMessage) (s : Rooms) :
  hub_wf s → join_or_disconnect m →
  ∃ s' : Rooms, Rooms_Start_step m s = Some (tt, s') ∧ hub_wf s'.
Proof.
  intros Hwf Hm. unfold Rooms_Start_step, bind at 1, get.
  destruct (negb (SkipConnectedCheck m) && negb _); [by exists s|].
  unfold join_or_disconnect in Hm. unfold bind at 1.
  destruct (Incoming m) as [e| | | | | | | |e]; try done; simpl.
  - destruct (Join_wf e (Info m) s Hwf) as (err & s1 & -> & Hwf1).
    destruct err as [reason|]; [|by exists s1].
    by apply Disconnected_wf.
  - unfold Disconnected_Execute, bind at 1.
    destruct (Disconnected_wf e (Info m) s Hwf) as (s1 & -> & Hwf1).
    by exists s1.
Qed.

Lemma Start_wf (incoming : list ClientMessage) :
  ∀ s : Rooms,
    hub_wf s → Forall join_or_disconnect incoming →
    ∃ s' : Rooms, Rooms_Start incoming s = Some (tt, s') ∧ hub_wf s'.
Proof.
  unfold Rooms_Start.
  induction incoming as [|m incoming IH]; intros s Hwf Hall; [by exists s|].
  apply Forall_cons in Hall as [Hm Hall]. simpl. unfold bind at 1.
  destruct (Start_step_wf m s Hwf Hm) as (s1 & -> & Hwf1). by apply IH.
Qed.

(** C1 (amended).  Start the main loop in a state that satisfies the
    invariant of the hub: every room is held under its own id, which is not
    empty, every user under its own id, and the membership record of every
    user of a room is the id of that room.  Let it process any sequence of
    join and disconnect messages.  The loop does not stop, and after every
    message the invariant holds again: no connection is a user of two rooms,
    and the membership map records, for every user of a room, that room and
    no other.  In every state a join from a sender whose membership record
    is not empty fails with "already in a room" and changes nothing. *)
Theorem membership_exclusivity (incoming : list ClientMessage) (s : Rooms) :
  hub_wf s →
  Forall join_or_disconnect incoming →
  ∀ n : nat,
    ∃ s_n : Rooms,
      Rooms_Start (take n incoming) s = Some (tt, s_n)
      ∧ hub_wf s_n
      ∧ exclusive s_n
      ∧ (∀ (room : string) (x : Room) (id : ID),
           Rooms_Rooms s_n !! room = Some x → is_Some (Users x !! id) →
           ∀ room' : string, connected s_n !! id = Some room' ↔ room' = room)
      ∧ (∀ (e : Join) (current : ClientInfo),
           default "" (connected s_n !! ClientInfo_ID current) ≠ "" →
           Join_Execute e current s_n
           = Some (Some "cannot join room, you are already in one", s_n)).
Proof.
  intros Hwf Hall n.
  destruct (Start_wf (take n incoming) s Hwf) as (s_n & Hrun & Hwfn).
  { by apply Forall_take. }
  exists s_n. split; [exact Hrun|]. split; [exact Hwfn|].
  split; [by apply hub_wf_exclusive|]. split.
  - intros room x id Hx [u Hu] room'.
    destruct Hwfn as [_ Hmem]. destruct (Hmem room x id u Hx Hu) as [_ ->].
    split; [by intros [= <-]|by intros ->].
  - intros e current. apply Join_Execute_already.
Qed.

End membership.

Lemma example_hub_wf : hub_wf example_hub.
Proof.
  assert (Hroom : ∀ room x, Rooms_Rooms example_hub !! room = Some x →
                    room = "r1" ∧ x = example_room).
  { intros room x. unfold example_hub; simpl.
    destruct (decide (room = "r1")) as [->|Hne].
    - rewrite lookup_insert_eq. by intros [= <-].
    - by rewrite lookup_insert_ne. }
  split.
  - intros room x Hx. by destruct (Hroom room x Hx) as [-> ->].
  - intros room x k u Hx. destruct (Hroom room x Hx) as [-> ->].
    unfold example_room, example_hub; simpl.
    destruct (decide (k = 1)) as [->|H1];
      [rewrite lookup_insert_eq; by intros [= <-]|rewrite lookup_insert_ne by done].
    destruct (decide (k = 2)) as [->|H2];
      [rewrite lookup_insert_eq; by intros [= <-]|rewrite lookup_insert_ne by done].
    destruct (decide (k = 3)) as [->|H3];
      [rewrite lookup_insert_eq; by intros [= <-]|rewrite lookup_insert_ne by done].
    done.
Qed.

Lemma hub_wf_add_empty_room (s : Rooms) (room : string) (x : Room) :
  hub_wf s → room ≠ "" → Room_ID x = room → Users x = ∅ →
  hub_wf (set_Rooms (insert room x) s).
Proof.
  intros [Hrooms Hmem] Hne Hid Hnone. split.
  - intros room' x' Hx'. simpl in Hx'.
    destruct (decide (room' = room)) as [->|Hr].
    + rewrite lookup_insert_eq in Hx'. by injection Hx' as <-.
    + rewrite lookup_insert_ne in Hx' by done. by apply Hrooms.
  - intros room' x' k u Hx' Hu. simpl in Hx'.
    destruct (decide (room' = room)) as [->|Hr].
    + rewrite lookup_insert_eq in Hx'. injection Hx' as <-.
      by rewrite Hnone, lookup_empty in Hu.
    + rewrite lookup_insert_ne in Hx' by done. by apply (Hmem room' x').
Qed.

(** D joins the second room, then asks to join the first, for which the
    main loop disconnects it; then A leaves. *)
Lemma membership_exclusivity_witness :
  ∃ s' : Rooms,
    @Rooms_Start prompt_runtime
      [ {| Info := client_D; SkipConnectedCheck := false;
           Incoming := EvJoin {| Join_ID := "r2"; UserName := "dan" |} |};
        {| Info := client_D; SkipConnectedCheck := false;
           Incoming := EvJoin {| Join_ID := "r1"; UserName := "dan" |} |};
        {| Info := client_A; SkipConnectedCheck := false;
           Incoming := EvDisconnected {| Code := 1000; Reason := "bye" |} |} ]
      example_hub_two_rooms = Some (tt, s')
    ∧ exclusive s'.
Proof.
  destruct (@membership_exclusivity prompt_runtime
    [ {| Info := client_D; SkipConnectedCheck := false;
         Incoming := EvJoin {| Join_ID := "r2"; UserName := "dan" |} |};
      {| Info := client_D; SkipConnectedCheck := false;
         Incoming := EvJoin {| Join_ID := "r1"; UserName := "dan" |} |};
      {| Info := client_A; SkipConnectedCheck := false;
         Incoming := EvDisconnected {| Code := 1000; Reason := "bye" |} |} ]
    example_hub_two_rooms) with (n := 3%nat) as (s' & Hrun & _ & Hex & _).
  { by apply hub_wf_add_empty_room; [exact example_hub_wf|..]. }
  { repeat constructor. }
  exists s'. split; [exact Hrun|exact Hex].
Defined.

(** A room held under the empty id.  No connection is a user of two rooms.
    D, connected and in no room, joins that room: its membership record is
    then the empty id, which is also the record of a connection in no room.
    So its next join, of the room "r1", is not refused, and D is a user of
    both rooms. *)
Lemma membership_not_exclusive :
  exclusive example_hub_unnamed_room
  ∧ ∃ (s' : Rooms) (x0 x1 : Room),
      @Rooms_Start prompt_runtime
        [ {| Info := client_D; SkipConnectedCheck := false;
             Incoming := EvJoin {| Join_ID := ""; UserName := "dan" |} |};
          {| Info := client_D; SkipConnectedCheck := false;
             Incoming := EvJoin {| Join_ID := "r1"; UserName := "dan" |} |} ]
        example_hub_unnamed_room = Some (tt, s')
      ∧ Rooms_Rooms s' !! "" = Some x0
      ∧ Rooms_Rooms s' !! "r1" = Some x1
      ∧ is_Some (Users x0 !! 4)
      ∧ is_Some (Users x1 !! 4)
      ∧ ¬ exclusive s'.
Proof.
  split.
  - intros id room1 room2 x1 x2 Hx1 Hx2 Hu1 Hu2.
    assert (Hroom : ∀ room x, Rooms_Rooms example_hub_unnamed_room !! room = Some x →
                      is_Some (Users x !! id) → room = "r1").
    { intros room x Hx [u Hu]. unfold example_hub_unnamed_room in Hx.
      simpl in Hx. destruct (decide (room = "")) as [->|Hne].
      - rewrite lookup_insert_eq in Hx. injection Hx as <-. done.
      - rewrite lookup_insert_ne in Hx by done.
        destruct (decide (room = "r1")) as [->|Hne1]; [done|].
        by rewrite lookup_insert_ne in Hx. }
    by rewrite (Hroom room1 x1), (Hroom room2 x2).
  - assert (Hrun : ∃ s' x0 x1,
        @Rooms_Start prompt_runtime
          [ {| Info := client_D; SkipConnectedCheck := false;
               Incoming := EvJoin {| Join_ID := ""; UserName := "dan" |} |};
            {| Info := client_D; SkipConnectedCheck := false;
               Incoming := EvJoin {| Join_ID := "r1"; UserName := "dan" |} |} ]
          example_hub_unnamed_room = Some (tt, s')
        ∧ Rooms_Rooms s' !! "" = Some x0
        ∧ Rooms_Rooms s' !! "r1" = Some x1
        ∧ is_Some (Users x0 !! 4)
        ∧ is_Some (Users x1 !! 4)).
    { eexists _, _, _. split; [vm_compute; reflexivity|].
      split; [vm_compute; reflexivity|].
      split; [vm_compute; reflexivity|].
      split; vm_compute; eauto. }
    destruct Hrun as (s' & x0 & x1 & Hrun & H0 & H1 & Hu0 & Hu1).
    exists s', x0, x1. split_and!; try done.
    intros Hex. by specialize (Hex 4 "" "r1" x0 x1 H0 H1 Hu0 Hu1).
Qed.

(** ** The table of the internal issuer *)

Section issuer_table.
Context `{Runtime}.

Lemma InternalServer_eta (a : turn.InternalServer) :
  {| turn.lookup := turn.lookup a |} = a.
Proof. by destruct a. Qed.

(** X1.  Revoking a username makes the internal issuer refuse it, whatever
    realm and address the request names, and changes the answer for no other
    username; revoking a username that is not in the table, or revoking
    twice, changes nothing; and a credential issued for an id that was not in
    the table and then revoked leaves the table as it was. *)
Theorem Disallow_revokes (a : turn.InternalServer) (username : string) :
  let a' := turn.InternalServer_Disallow a username in
  (∀ (realm : string) (requester : turn.Addr),
     turn.InternalServer_authenticate a' username realm requester = ([], false))
  ∧ (∀ (u realm : string) (requester : turn.Addr), u ≠ username →
       turn.InternalServer_authenticate a' u realm requester
       = turn.InternalServer_authenticate a u realm requester)
  ∧ (turn.lookup a !! username = None → a' = a)
  ∧ turn.InternalServer_Disallow a' username = a'
  ∧ (∀ (addr : IP) (tick : N),
       turn.lookup a !! username = None →
       turn.InternalServer_Disallow
         (turn.InternalServer_Credentials a username addr tick).2
         (turn.InternalServer_Credentials a username addr tick).1.1
       = a).
Proof.
  intros a'. subst a'.
  unfold turn.InternalServer_authenticate, turn.InternalServer_Disallow,
    turn.InternalServer_Credentials, turn.InternalServer_allow.
  cbn [turn.lookup fst snd]. split_and!.
  - intros realm requester. by rewrite lookup_delete_eq.
  - intros u realm requester Hu. by rewrite lookup_delete_ne.
  - intros Hnone. rewrite delete_id by done. apply InternalServer_eta.
  - by rewrite delete_delete_eq.
  - intros addr tick Hnone.
    rewrite delete_insert_eq, delete_id by done. apply InternalServer_eta.
Qed.

(** X2.  Issuing a second credential for an id replaces the first: the
    table is the one the second call alone would have produced, the issuer
    answers with the key of the second password, and the entries of the
    other usernames are untouched. *)
Theorem Credentials_reissue_replaces (a : turn.InternalServer) (id : string)
    (addr1 addr2 : IP) (tick1 tick2 : N) :
  let a1 := (turn.InternalServer_Credentials a id addr1 tick1).2 in
  let second := turn.InternalServer_Credentials a1 id addr2 tick2 in
  second = turn.InternalServer_Credentials a id addr2 tick2
  ∧ (∀ (realm : string) (requester : turn.Addr),
       turn.InternalServer_authenticate second.2 id realm requester
       = (GenerateAuthKey id turn.Realm second.1.2, true))
  ∧ turn.lookup second.2 !! id
    = Some {| turn.addr := addr2;
              turn.password := GenerateAuthKey id turn.Realm (RandString tick2 20) |}
  ∧ (∀ u : string, u ≠ id → turn.lookup second.2 !! u = turn.lookup a !! u).
Proof.
  intros a1 second. subst a1 second.
  unfold turn.InternalServer_authenticate, turn.InternalServer_Credentials,
    turn.InternalServer_allow.
  cbn [turn.lookup fst snd]. split_and!.
  - by rewrite insert_insert_eq.
  - intros realm requester. by rewrite lookup_insert_eq.
  - by rewrite lookup_insert_eq.
  - intros u Hu. by rewrite !lookup_insert_ne.
Qed.

End issuer_table.

(** ** The usernames of the external issuer *)

Fixpoint has_colon (s : string) : bool :=
  match s with
  | EmptyString => false
  | String c s' => bool_decide (c = ":"%char) || has_colon s'
  end.

Lemma pretty_N_char_no_colon (x : N) : pretty_N_char x ≠ ":"%char.
Proof. unfold pretty_N_char. by repeat case_match. Qed.

Lemma pretty_N_go_no_colon (x : N) :
  ∀ s : string, has_colon s = false → has_colon (pretty_N_go x s) = false.
Proof.
  induction (N.lt_wf_0 x) as [x _ IH]. intros s Hs.
  destruct (decide (x = 0)) as [->|Hx].
  - by rewrite pretty_N_go_0.
  - rewrite pretty_N_go_step by lia. apply IH.
    + apply N.div_lt; lia.
    + simpl. rewrite Hs, orb_false_r.
      apply bool_decide_eq_false, pretty_N_char_no_colon.
Qed.

Lemma pretty_N_no_colon (x : N) : has_colon (pretty x) = false.
Proof.
  unfold pretty, pretty_N. case_decide; [done|].
  by apply pretty_N_go_no_colon.
Qed.

Lemma pretty_Z_no_colon (z : Z) : has_colon (pretty z) = false.
Proof.
  destruct z as [|p|p]; unfold pretty, pretty_Z; [done|..].
  - apply pretty_N_no_colon.
  - rewrite string_app_cons. simpl. apply pretty_N_no_colon.
Qed.

Lemma string_app_nil_l (s : string) : "" +:+ s = s.
Proof. reflexivity. Qed.

Lemma split_at_colon (a b s t : string) :
  has_colon a = false → has_colon b = false →
  a +:+ ":" +:+ s = b +:+ ":" +:+ t → a = b ∧ s = t.
Proof.
  revert b. induction a as [|c a IH]; intros [|d b] Ha Hb Heq;
    rewrite ?string_app_cons, ?string_app_nil_l in Heq; simpl in Ha, Hb.
  - by injection Heq as ->.
  - apply orb_false_iff in Hb as [Hd _]. apply bool_decide_eq_false in Hd.
    by injection Heq as <- _.
  - apply orb_false_iff in Ha as [Hc _]. apply bool_decide_eq_false in Hc.
    by injection Heq as -> _.
  - apply orb_false_iff in Ha as [_ Ha]. apply orb_false_iff in Hb as [_ Hb].
    injection Heq as -> Heq. by destruct (IH b Ha Hb Heq) as [-> ->].
Qed.

(** X3.  Two credentials of external issuers carry the same username exactly
    when they were issued for the same id and expire in the same second;
    under the same secret they then are the same credential, whatever the
    addresses; and revoking a username does not change what the issuer
    returns. *)
Theorem external_username_determines_id_and_expiry
    (a1 a2 : turn.ExternalServer) (id1 id2 : string) (addr1 addr2 : IP)
    (now1 now2 : Z) :
  let c1 := turn.ExternalServer_Credentials a1 id1 addr1 now1 in
  let c2 := turn.ExternalServer_Credentials a2 id2 addr2 now2 in
  (c1.1 = c2.1
   ↔ id1 = id2
     ∧ turn.Unix (now1 + turn.ttl a1) = turn.Unix (now2 + turn.ttl a2))
  ∧ (c1 = c2
     ↔ c1.1 = c2.1
       ∧ turn.external_signature (turn.secret a1) c1.1
         = turn.external_signature (turn.secret a2) c1.1)
  ∧ turn.ExternalServer_Credentials
      (turn.ExternalServer_Disallow a1 c1.1) id1 addr2 now1 = c1.
Proof.
  intros c1 c2. subst c1 c2.
  unfold turn.ExternalServer_Credentials, turn.external_signature.
  cbn [fst snd]. split_and!.
  - split.
    + intros Heq.
      apply split_at_colon in Heq as [Ht ->]; try apply pretty_Z_no_colon.
      by apply (inj pretty) in Ht.
    + by intros [-> ->].
  - split.
    + intros Heq. injection Heq as Hu Hp. split; [done|]. by rewrite Hp, Hu.
    + intros [Hu Hp]. rewrite <- Hu. by rewrite Hp.
  - reflexivity.
Qed.

(** ** The relay address generator *)

Lemma IP_To4_length (ip : IP) (bs : list N) :
  turn.IP_To4 ip = Some bs → length bs = 4%nat.
Proof.
  destruct ip as [l|]; [|done]. unfold turn.IP_To4.
  case_bool_decide as H4; [by intros [= <-]|].
  destruct (bool_decide (length l = 16%nat)) eqn:H16; [|done].
  apply bool_decide_eq_true in H16.
  destruct (_ && _ && _); [|done].
  intros [= <-]. rewrite length_take, length_drop. lia.
Qed.

Example IP_To4_examples :
  turn.IP_To4 (Some [192; 0; 2; 1]) = Some [192; 0; 2; 1]
  ∧ turn.IP_To4 (Some [0; 0; 0; 0; 0; 0; 0; 0; 0; 0; 255; 255; 192; 0; 2; 1])
    = Some [192; 0; 2; 1]
  ∧ turn.IP_To4 (Some [32; 1; 13; 184; 0; 0; 0; 0; 0; 0; 0; 0; 0; 0; 0; 1])
    = None
  ∧ turn.IP_To4 None = None.
Proof. by vm_compute. Qed.

(** X4.  The address [AllocatePacketConn] returns.  An error of the
    embedded generator is passed on with the connection and the address as
    they came, whatever the address is; a failure of the address provider is
    returned with the address the embedded generator allocated; an address
    that is not a UDP address makes the call panic.  Otherwise the port and
    the zone are kept and the IP is replaced by one of the two addresses of
    the provider: the IPv4 one when the allocation is IPv4 and the provider
    has one, the IPv6 one when the allocation is not IPv4 and the provider
    has one, the one the provider has when it has only one, and nil only
    when it has none. *)
Theorem AllocatePacketConn_relay_address (conn : N) (a : turn.UDPAddr)
    (v4 v6 : IP) :
  (∀ (addr : turn.net_Addr) (err : string) (get : config.Addresses),
     turn.Generator_AllocatePacketConn (conn, addr, Some err) get
     = Some (conn, addr, Some err))
  ∧ (∀ err : string,
       turn.Generator_AllocatePacketConn (conn, turn.Addr_UDP a, None)
         (config.GetErr err)
       = Some (conn, turn.Addr_UDP a, Some err))
  ∧ (∀ (network text : string) (get : config.Addresses),
       turn.Generator_AllocatePacketConn (conn, turn.Addr_nil, None) get = None
       ∧ turn.Generator_AllocatePacketConn
           (conn, turn.Addr_other network text, None) get = None)
  ∧ ∃ ip : IP,
      turn.Generator_AllocatePacketConn (conn, turn.Addr_UDP a, None)
        (config.GetOk v4 v6)
      = Some (conn,
              turn.Addr_UDP {| turn.UDPAddr_IP := ip;
                               turn.UDPAddr_Port := turn.UDPAddr_Port a;
                               turn.UDPAddr_Zone := turn.UDPAddr_Zone a |},
              None)
      ∧ (ip = v4 ∨ ip = v6)
      ∧ (ip = None → v4 = None ∧ v6 = None)
      ∧ (turn.IP_To4 (turn.UDPAddr_IP a) ≠ None → v4 ≠ None → ip = v4)
      ∧ (turn.IP_To4 (turn.UDPAddr_IP a) = None → v6 ≠ None → ip = v6)
      ∧ (v6 = None → ip = v4)
      ∧ (v4 = None → v6 ≠ None → ip = v6).
Proof.
  split_and!; try done.
  unfold turn.Generator_AllocatePacketConn.
  eexists. split; [reflexivity|].
  repeat case_bool_decide; simpl; split_and!; intros; try done;
    first [by left | by right | congruence | tauto].
Qed.

(** ** The permission handler *)

(** X5.  The permission handler of the internal relay lets a peer through
    exactly when no network of the deny list contains its address; the
    address of the client plays no part, and the handler for two lists put
    end to end lets through what both let through. *)
Theorem permissions_deny_list {IPNet : Type} (Contains : IPNet → IP → bool)
    (deny : list IPNet) (clientAddr : turn.net_Addr) (peerIP : IP) :
  (turn.permissions IPNet Contains deny clientAddr peerIP = true
   ↔ ∀ cidr : IPNet, cidr ∈ deny → Contains cidr peerIP = false)
  ∧ (∀ other : turn.net_Addr,
       turn.permissions IPNet Contains deny other peerIP
       = turn.permissions IPNet Contains deny clientAddr peerIP)
  ∧ (∀ more : list IPNet,
       turn.permissions IPNet Contains (deny ++ more) clientAddr peerIP
       = turn.permissions IPNet Contains deny clientAddr peerIP
         && turn.permissions IPNet Contains more clientAddr peerIP).
Proof.
  split_and!.
  - induction deny as [|cidr deny IH]; simpl.
    + split; [|done]. intros _ cidr Hin. by apply elem_of_nil in Hin.
    + destruct (Contains cidr peerIP) eqn:Hc.
      * split; [done|]. intros Hall.
        rewrite Hall in Hc by left. done.
      * rewrite IH. split.
        -- intros Hall c [->|Hin]%elem_of_cons; [done|by apply Hall].
        -- intros Hall c Hin. apply Hall. by right.
  - intros other. induction deny as [|cidr deny IH]; simpl; [done|].
    by rewrite IH.
  - intros more. induction deny as [|cidr deny IH]; simpl; [done|].
    by destruct (Contains cidr peerIP).
Qed.

(** ** The run mode *)

(** X6.  [mode.Get] answers "prod" exactly when its first argument is
    "prod", and "dev" in every other case, also without arguments; the
    arguments after the first are not read, and the answer handed back to
    [Get] is returned unchanged. *)
Theorem mode_Get_prod_iff (s : list string) :
  (mode.Get s = mode.Prod ↔ head s = Some "prod")
  ∧ (mode.Get s = mode.Dev ↔ head s ≠ Some "prod")
  ∧ mode.Get (take 1 s) = mode.Get s
  ∧ mode.Get [mode.Get s] = mode.Get s.
Proof.
  destruct s as [|s0 rest]; [by split_and!|].
  assert (Hcases : s0 = "prod" ∧ mode.Get (s0 :: rest) = mode.Prod
                   ∨ s0 ≠ "prod" ∧ mode.Get (s0 :: rest) = mode.Dev).
  { unfold mode.Get. repeat case_bool_decide; subst; auto. }
  cbn [head take].
  destruct Hcases as [[-> HG]|[Hs0 HG]]; rewrite HG; split_and!; try done.
  - split; [done|]. intros [= ?]. done.
  - split; [intros _|done]. intros [= ?]. done.
Qed.

(** ** The command [serve] *)

Lemma serve_log_loop (errs : list cmd.FutureLog) :
  ∀ (logged : list cmd.FutureLog) (exit : bool),
    ∃ exit' : bool,
      foldl (fun '(logged, exit) err =>
               (logged ++ [err],
                exit || bool_decide (cmd.FutureLog_Level err = cmd.FatalLevel)
                     || bool_decide (cmd.FutureLog_Level err = cmd.PanicLevel)))
            (logged, exit) errs
      = (logged ++ errs, exit')
      ∧ (exit' = true ↔ exit = true ∨ Exists gives_up errs).
Proof.
  induction errs as [|err errs IH]; intros logged exit; simpl.
  - exists exit. rewrite app_nil_r. split; [done|].
    rewrite Exists_nil. tauto.
  - destruct (IH (logged ++ [err])
                (exit || bool_decide (cmd.FutureLog_Level err = cmd.FatalLevel)
                      || bool_decide (cmd.FutureLog_Level err = cmd.PanicLevel)))
      as (exit' & Hrun & Hexit).
    exists exit'. rewrite Hrun, <- app_assoc. split; [done|].
    rewrite Hexit, Exists_cons, !orb_true_iff, !bool_decide_eq_true.
    unfold gives_up. tauto.
Qed.

(** X7.  The command [serve] logs every message of the configuration, in
    order, also those after a fatal one; it exits with status 1 exactly when
    one of them is at the fatal or the panic level or the address provider
    fails, and asks the provider only when no message was; in every other
    case it returns without an error. *)
Theorem serve_exit_status (errs : list cmd.FutureLog) (get : config.Addresses) :
  let result := cmd.serve_Action errs get in
  result.1.1 = errs
  ∧ (result.1.2 = true ↔ ¬ Exists gives_up errs)
  ∧ (result.2 = cmd.Exit 1
     ↔ Exists gives_up errs ∨ ∃ err : string, get = config.GetErr err)
  ∧ (result.2 = cmd.Return None
     ↔ ¬ Exists gives_up errs ∧ ∃ v4 v6 : IP, get = config.GetOk v4 v6).
Proof.
  intros result. subst result. unfold cmd.serve_Action.
  destruct (serve_log_loop errs [] false) as (exit & -> & Hexit).
  assert (Hex : exit = true ↔ Exists gives_up errs).
  { rewrite Hexit. split; [intros [?|?]; done|by right]. }
  clear Hexit. simpl.
  destruct exit.
  - assert (Hfatal : Exists gives_up errs) by by apply Hex.
    destruct get as [v4 v6|err]; simpl; split_and!; try done;
      split; intros; try done; try tauto; auto.
  - assert (Hnone : ¬ Exists gives_up errs).
    { intros Hfatal. apply Hex in Hfatal. done. }
    destruct get as [v4 v6|err]; simpl; split_and!; try done.
    + split; [done|]. intros [?|[? ?]]; done.
    + split; [intros _|done]. split; [done|]. by eexists _, _.
    + split; [intros _|done]. right. by eexists.
    + split; [done|]. intros [_ (? & ? & ?)]. done.
Qed.

(** ** The URLs of the relay *)

Lemma string_app_nil_r (s : string) : s +:+ "" = s.
Proof. induction s as [|c s IH]; [done|]. by rewrite string_app_cons, IH. Qed.

Lemma bracket_host (p h rest : string) :
  p +:+ ":[" +:+ h +:+ "]:" +:+ rest
  = p +:+ ":" +:+ ("[" +:+ h +:+ "]") +:+ ":" +:+ rest.
Proof. rewrite !(string_app_assoc _ _ (":" +:+ rest)). reflexivity. Qed.

Section urls.
Context `{Runtime}.

(** X8.  [Rooms.addresses] lists the IPv4 URLs before the IPv6 ones, one URL
    for each address the provider has and a second one, for TCP, when asked;
    the list is empty exactly when the provider has no address; every URL is
    the prefix, a colon, a host, a colon and the relay port, followed by the
    TCP marker or by nothing. *)
Theorem addresses_count (s : Rooms) (prefix : string) (v4 v6 : IP) (tcp : bool) :
  let urls := Rooms_addresses s prefix v4 v6 tcp in
  let n (ip : IP) : nat := match ip with Some _ => 1%nat | None => 0%nat end in
  length urls = ((if tcp then 2 else 1) * (n v4 + n v6))%nat
  ∧ (urls = [] ↔ v4 = None ∧ v6 = None)
  ∧ urls = Rooms_addresses s prefix v4 None tcp
           ++ Rooms_addresses s prefix None v6 tcp
  ∧ Forall (fun url =>
              ∃ host more : string,
                url = prefix +:+ ":" +:+ host +:+ ":"
                        +:+ config.TurnPort (conf s) +:+ more
                ∧ (more = "" ∨ (tcp = true ∧ more = "?transport=tcp")))
           urls.
Proof.
  intros urls n. subst urls n. rewrite !Rooms_addresses_urls.
  assert (H4 : ∀ (ip : list N) (more : string),
             more = "" ∨ (tcp = true ∧ more = "?transport=tcp") →
             ∃ host more' : string,
               prefix +:+ ":" +:+ IP_String ip +:+ ":"
                 +:+ config.TurnPort (conf s) +:+ more
               = prefix +:+ ":" +:+ host +:+ ":"
                   +:+ config.TurnPort (conf s) +:+ more'
               ∧ (more' = "" ∨ (tcp = true ∧ more' = "?transport=tcp"))).
  { intros ip more Hmore. by exists (IP_String ip), more. }
  assert (H6 : ∀ (ip : list N) (more : string),
             more = "" ∨ (tcp = true ∧ more = "?transport=tcp") →
             ∃ host more' : string,
               prefix +:+ ":[" +:+ IP_String ip +:+ "]:"
                 +:+ config.TurnPort (conf s) +:+ more
               = prefix +:+ ":" +:+ host +:+ ":"
                   +:+ config.TurnPort (conf s) +:+ more'
               ∧ (more' = "" ∨ (tcp = true ∧ more' = "?transport=tcp"))).
  { intros ip more Hmore. exists ("[" +:+ IP_String ip +:+ "]"), more.
    split; [apply bracket_host|done]. }
  assert (H40 := fun ip => H4 ip "" (or_introl eq_refl)).
  assert (H60 := fun ip => H6 ip "" (or_introl eq_refl)).
  setoid_rewrite string_app_nil_r in H40.
  setoid_rewrite string_app_nil_r in H60.
  destruct v4 as [ip4|], v6 as [ip6|], tcp; simpl; split_and!; try done;
    try (split; [done|]; intros [? ?]; done);
    repeat constructor; auto.
Qed.

End urls.

(** ** The health endpoint *)

(** X9.  [GET /health] answers within five seconds.  It answers 200 with the
    status "up", the count and no reason when the main loop took the probe
    and replied, and 500 with the status "down", the count -1 and one of the
    two reasons of [Count] when the five seconds passed first; it answers
    200 whenever the main loop needs less than five seconds in all. *)
Theorem health_status (accept reply : option N) (count : Z)
    (coin1 coin2 : bool) :
  let response := router.health accept reply count coin1 coin2 in
  let code := response.1.1 in
  let body := response.1.2 in
  response.2 ≤ 5 * Second
  ∧ ((code = 200%Z
      ∧ body = {| router.Status := "up"; router.Clients := count;
                  router.Reason := "" |}
      ∧ ∃ a d : N, accept = Some a ∧ reply = Some d ∧ response.2 = a + d)
     ∨ (code = 500%Z
        ∧ response.2 = 5 * Second
        ∧ ∃ reason : string,
            body = {| router.Status := "down"; router.Clients := (-1)%Z;
                      router.Reason := reason |}
            ∧ (reason = "main loop didn't accept a message within 5 second"
               ∨ reason
                 = "main loop didn't respond to a message within 5 second")))
  ∧ (∀ a d : N, accept = Some a → reply = Some d → a + d < 5 * Second →
       code = 200%Z ∧ response.2 = a + d).
Proof.
  intros response code body. subst response code body.
  unfold router.health, Rooms_Count. cbv zeta.
  set (deadline := 5 * Second).
  destruct (select_chan_or_timer accept deadline coin1) as [taken t1] eqn:E1.
  assert (Ht1 : t1 ≤ deadline).
  { pose proof (select_chan_or_timer_bound accept deadline coin1) as Hb.
    by rewrite E1 in Hb. }
  destruct taken; simpl.
  - destruct (select_chan_or_timer reply (deadline - t1) coin2)
      as [answered t2] eqn:E2.
    assert (Ht2 : t2 ≤ deadline - t1).
    { pose proof (select_chan_or_timer_bound reply (deadline - t1) coin2) as Hb.
      by rewrite E2 in Hb. }
    pose proof (select_chan_won accept deadline coin1) as Hw1.
    rewrite E1 in Hw1. destruct (Hw1 eq_refl) as (a & -> & Ha & Hat1).
    simpl in Hat1. subst t1.
    destruct answered; simpl.
    + pose proof (select_chan_won reply (deadline - a) coin2) as Hw2.
      rewrite E2 in Hw2. destruct (Hw2 eq_refl) as (d & -> & Hd & Hdt2).
      simpl in Hdt2. subst t2.
      split_and!; [lia| |].
      * left. split_and!; try done. by exists a, d.
      * intros a' d' [= <-] [= <-] Hlt. done.
    + pose proof (select_timer_won reply (deadline - a) coin2) as Hw2.
      rewrite E2 in Hw2. specialize (Hw2 eq_refl). simpl in Hw2. subst t2.
      split_and!; [lia| |].
      * right. split_and!; [done|lia|]. eexists. split; [done|]. by right.
      * intros a' d' [= <-] -> Hlt.
        rewrite select_early in E2 by lia. done.
  - pose proof (select_timer_won accept deadline coin1) as Hw1.
    rewrite E1 in Hw1. specialize (Hw1 eq_refl). simpl in Hw1. subst t1.
    split_and!; [done| |].
    + right. split_and!; try done. eexists. split; [done|]. by left.
    + intros a d -> _ Hlt. rewrite select_early in E1 by lia. done.
Qed.

(** ** [once.Do] under concurrency *)

Section Do_proofs.
Context {E : Type}.
Implicit Types (σ : Do_state E) (pc : Do_pc E) (f : list E).

Lemma Do_start_inv (fs : list (list E)) : Do_inv fs (Do_start fs).
Proof.
  assert (Hall : ∀ i g, Do_goroutines (Do_start fs) !! i = Some g → g.1 = AtLoad).
  { intros i g. unfold Do_start. simpl. rewrite list_lookup_fmap.
    destruct (fs !! i); simpl; [|done]. by intros [= <-]. }
  split.
  - unfold Do_start. simpl. rewrite <- list_fmap_compose.
    apply list_fmap_id.
  - intros _ i g Hg. rewrite (Hall i g Hg). by intros [].
  - done.
  - intros i j gi gj Hi Hj Hh. rewrite (Hall i gi Hi) in Hh. by destruct Hh.
  - intros i g Hg. rewrite (Hall i g Hg). intros [?|?]; done.
  - left. split_and!; [done..|]. intros i g Hg. rewrite (Hall i g Hg).
    by intros [].
Qed.

Lemma moved_lookup {A} (l : list A) (i j : nat) (v g : A) :
  is_Some (l !! i) → <[i := v]> l !! j = Some g →
  (j = i ∧ g = v) ∨ (j ≠ i ∧ l !! j = Some g).
Proof.
  intros Hi. destruct (decide (j = i)) as [->|Hne].
  - rewrite list_lookup_insert_eq by by apply lookup_lt_is_Some.
    intros [= <-]. by left.
  - rewrite list_lookup_insert_ne by done. by right.
Qed.

Lemma moved_funcs (gs : list (Do_pc E * list E)) (i : nat) pc pc0 f :
  gs !! i = Some (pc0, f) → (<[i := (pc, f)]> gs).*2 = gs.*2.
Proof.
  intros Hi. rewrite list_fmap_insert. simpl. apply list_insert_id.
  by rewrite list_lookup_fmap, Hi.
Qed.

Lemma moved_self {A} (l : list A) (i : nat) (v : A) :
  is_Some (l !! i) → <[i := v]> l !! i = Some v.
Proof. intros Hi. by apply list_lookup_insert_eq, lookup_lt_is_Some. Qed.

Ltac moved H :=
  match goal with
  | Hs : is_Some (_ !! _) |- _ =>
      apply (moved_lookup _ _ _ _ _ Hs) in H as [[-> ->]|[? H]]
  end.

(** The lock fields of the invariant, when the goroutine that moves holds
    the mutex neither before nor after. *)
Lemma lock_fields_outside (gs : list (Do_pc E * list E)) (locked : bool)
    (i : nat) pc pc' f :
  gs !! i = Some (pc, f) → ¬ holds_lock pc → ¬ holds_lock pc' →
  (locked = false → ∀ j g, gs !! j = Some g → ¬ holds_lock g.1) →
  (locked = true → ∃ j g, gs !! j = Some g ∧ holds_lock g.1) →
  (∀ j k gj gk, gs !! j = Some gj → gs !! k = Some gk →
     holds_lock gj.1 → holds_lock gk.1 → j = k) →
  (locked = false → ∀ j g, <[i := (pc', f)]> gs !! j = Some g → ¬ holds_lock g.1)
  ∧ (locked = true → ∃ j g, <[i := (pc', f)]> gs !! j = Some g ∧ holds_lock g.1)
  ∧ (∀ j k gj gk, <[i := (pc', f)]> gs !! j = Some gj → <[i := (pc', f)]> gs !! k = Some gk →
       holds_lock gj.1 → holds_lock gk.1 → j = k).
Proof.
  intros Hi Hpc Hpc' Hu Hl Hh.
  assert (Hsome : is_Some (gs !! i)) by by rewrite Hi.
  split_and!.
  - intros Hlk j g Hg. moved Hg; [done|]. eauto.
  - intros Hlk. destruct (Hl Hlk) as (h & g & Hg & Hhold).
    exists h, g. split; [|done].
    rewrite list_lookup_insert_ne; [done|]. intros ->. rewrite Hi in Hg.
    injection Hg as <-. done.
  - intros j k gj gk Hj Hk Hhj Hhk. moved Hj; [done|].
    moved Hk; [done|]. eauto.
Qed.

(** The same, when it holds the mutex before and after. *)
Lemma lock_fields_inside (gs : list (Do_pc E * list E)) (locked : bool)
    (i : nat) pc pc' f :
  gs !! i = Some (pc, f) → holds_lock pc → holds_lock pc' →
  (locked = false → ∀ j g, gs !! j = Some g → ¬ holds_lock g.1) →
  (∀ j k gj gk, gs !! j = Some gj → gs !! k = Some gk →
     holds_lock gj.1 → holds_lock gk.1 → j = k) →
  (locked = false → ∀ j g, <[i := (pc', f)]> gs !! j = Some g → ¬ holds_lock g.1)
  ∧ (locked = true → ∃ j g, <[i := (pc', f)]> gs !! j = Some g ∧ holds_lock g.1)
  ∧ (∀ j k gj gk, <[i := (pc', f)]> gs !! j = Some gj → <[i := (pc', f)]> gs !! k = Some gk →
       holds_lock gj.1 → holds_lock gk.1 → j = k).
Proof.
  intros Hi Hpc Hpc' Hu Hh.
  assert (Hsome : is_Some (gs !! i)) by by rewrite Hi.
  split_and!.
  - intros Hlk. by destruct (Hu Hlk i _ Hi).
  - intros _. exists i, (pc', f). split; [by apply moved_self|done].
  - intros j k gj gk Hj Hk Hhj Hhk. moved Hj; moved Hk; try done.
    + symmetry. by apply (Hh k i gk (pc, f)).
    + by apply (Hh j i gj (pc, f)).
    + eauto.
Qed.

(** The winner field, when the goroutine that moves is not the one that may
    execute, before or after, and [done] and the effects stay. *)
Lemma winner_field_other (gs : list (Do_pc E * list E)) (done : N)
    (performed : list E) (i : nat) pc pc' f :
  gs !! i = Some (pc, f) →
  ¬ may_execute pc' → pc' ≠ AtStore →
  (∀ p, ¬ progress pc f p) →
  (done = 0 ∧ performed = []
     ∧ ∀ j g, gs !! j = Some g → ¬ may_execute g.1)
  ∨ (done = 1
     ∧ ∃ w g, gs !! w = Some g ∧ progress g.1 g.2 performed
         ∧ ∀ j g', j ≠ w → gs !! j = Some g' →
             ¬ may_execute g'.1 ∧ g'.1 ≠ AtStore) →
  (done = 0 ∧ performed = []
     ∧ ∀ j g, <[i := (pc', f)]> gs !! j = Some g → ¬ may_execute g.1)
  ∨ (done = 1
     ∧ ∃ w g, <[i := (pc', f)]> gs !! w = Some g ∧ progress g.1 g.2 performed
         ∧ ∀ j g', j ≠ w → <[i := (pc', f)]> gs !! j = Some g' →
             ¬ may_execute g'.1 ∧ g'.1 ≠ AtStore).
Proof.
  intros Hi Hpc1 Hpc2 Hnot Hw.
  assert (Hsome : is_Some (gs !! i)) by by rewrite Hi.
  destruct Hw as [(Hd & Hp & Hnone)|(Hd & w & g & Hg & Hprog & Hothers)].
  - left. split_and!; [done..|]. intros j g Hg. moved Hg; [done|]. eauto.
  - right. split; [done|].
    assert (w ≠ i).
    { intros ->. rewrite Hi in Hg. injection Hg as <-. by apply Hnot in Hprog. }
    exists w, g. split_and!; [|done|].
    + by rewrite list_lookup_insert_ne.
    + intros j g' Hne Hg'. moved Hg'; [done|]. eauto.
Qed.

(** The winner field, when the goroutine that may execute moves on. *)
Lemma winner_field_self (gs : list (Do_pc E * list E)) (done : N)
    (performed performed' : list E) (i : nat) pc pc' f :
  gs !! i = Some (pc, f) →
  may_execute pc →
  (progress pc f performed → progress pc' f performed') →
  (done = 0 ∧ performed = []
     ∧ ∀ j g, gs !! j = Some g → ¬ may_execute g.1)
  ∨ (done = 1
     ∧ ∃ w g, gs !! w = Some g ∧ progress g.1 g.2 performed
         ∧ ∀ j g', j ≠ w → gs !! j = Some g' →
             ¬ may_execute g'.1 ∧ g'.1 ≠ AtStore) →
  done = 1
  ∧ ∃ w g, <[i := (pc', f)]> gs !! w = Some g ∧ progress g.1 g.2 performed'
      ∧ ∀ j g', j ≠ w → <[i := (pc', f)]> gs !! j = Some g' →
          ¬ may_execute g'.1 ∧ g'.1 ≠ AtStore.
Proof.
  intros Hi Hmay Hstep Hw.
  assert (Hsome : is_Some (gs !! i)) by by rewrite Hi.
  destruct Hw as [(Hd & Hp & Hnone)|(Hd & w & g & Hg & Hprog & Hothers)].
  - by destruct (Hnone i _ Hi).
  - split; [done|].
    assert (w = i) as ->.
    { destruct (decide (w = i)) as [|Hne]; [done|].
      by destruct (Hothers i _ (not_eq_sym Hne) Hi) as [[] _]. }
    rewrite Hi in Hg. injection Hg as <-.
    exists i, (pc', f). split_and!; [by apply moved_self|by apply Hstep|].
    intros j g' Hne Hg'. moved Hg'; [done|]. eauto.
Qed.

Lemma Do_step_inv (fs : list (list E)) (i : nat) σ σ' :
  Do_inv fs σ → Do_step i σ = Some σ' → Do_inv fs σ'.
Proof.
  intros [Hf Hu Hl Hh Hlate Hw]. unfold Do_step, Do_move.
  destruct (Do_goroutines σ !! i) as [[pc f]|] eqn:Hi; [|done].
  assert (Hsome : is_Some (Do_goroutines σ !! i)) by by rewrite Hi.
  assert (Hdone : Do_done σ = 0 ∨ Do_done σ = 1).
  { destruct Hw as [(? & _)|(? & _)]; auto. }
  destruct pc as [| | | |may| |rest|].
  - (* AtLoad *)
    intros [= <-].
    assert (Hpc' : ∀ pc',
               pc' = (if bool_decide (Do_done σ = 1) then Returned else AtLock) →
               ¬ holds_lock pc' ∧ ¬ may_execute pc' ∧ pc' ≠ AtStore
               ∧ pc' ≠ AtUnlock false ∧ (pc' = Returned → Do_done σ = 1)).
    { intros pc' ->. case_bool_decide; simpl; split_and!; try done; tauto. }
    specialize (Hpc' _ eq_refl). destruct Hpc' as (Hp1 & Hp2 & Hp3 & Hp4 & Hp5).
    set (pc' := if bool_decide (Do_done σ = 1) then Returned else AtLock) in *.
    clearbody pc'.
    destruct (lock_fields_outside _ (Do_locked σ) i AtLoad pc' f Hi
                (fun x => x) Hp1 Hu Hl Hh) as (Hu' & Hl' & Hh').
    split; simpl; try done.
    + by rewrite (moved_funcs _ _ _ _ _ Hi).
    + intros j g Hg Hret. moved Hg; [|eauto].
      simpl in Hret. destruct Hret; [eauto|done].
    + apply (winner_field_other _ _ _ i AtLoad pc' f Hi); try done.
      by intros p [].
  - (* AtLock *)
    destruct (Do_locked σ) eqn:Hlk; [done|]. intros [= <-].
    split; simpl.
    + by rewrite (moved_funcs _ _ _ _ _ Hi).
    + done.
    + intros _. exists i, (AtCheck, f). split; [by apply moved_self|done].
    + intros j k gj gk Hj Hk Hhj Hhk. moved Hj; moved Hk; try done.
      * by destruct (Hu eq_refl _ _ Hk).
      * by destruct (Hu eq_refl _ _ Hj).
      * by destruct (Hu eq_refl _ _ Hj).
    + intros j g Hg Hret. moved Hg; [|eauto].
      simpl in Hret. destruct Hret; done.
    + apply (winner_field_other _ _ _ i AtLock AtCheck f Hi); try done.
      * by intros [].
      * by intros p [].
  - (* AtCheck *)
    intros [= <-].
    assert (Hpc' : ∀ pc',
               pc' = (if bool_decide (Do_done σ = 0) then AtStore
                      else AtUnlock false) →
               holds_lock pc' ∧ ¬ may_execute pc' ∧ pc' ≠ Returned
               ∧ (pc' = AtStore → Do_done σ = 0)
               ∧ (pc' ≠ AtStore → Do_done σ = 1)).
    { intros pc' ->. case_bool_decide; simpl; split_and!; try done;
        try tauto; intros _; lia. }
    specialize (Hpc' _ eq_refl). destruct Hpc' as (Hp1 & Hp2 & Hp3 & Hp4 & Hp5).
    set (pc' := if bool_decide (Do_done σ = 0) then AtStore
                else AtUnlock false) in *.
    clearbody pc'.
    destruct (lock_fields_inside _ (Do_locked σ) i AtCheck pc' f Hi
                I Hp1 Hu Hh) as (Hu' & Hl' & Hh').
    split; simpl; try done.
    + by rewrite (moved_funcs _ _ _ _ _ Hi).
    + intros j g Hg Hret. moved Hg; [|eauto].
      simpl in Hret. destruct Hret as [?|Hret]; [done|].
      apply Hp5. by rewrite Hret.
    + destruct Hw as [(Hd & Hp & Hnone)|Hw].
      * left. split_and!; [done..|]. intros j g Hg. moved Hg; [done|]. eauto.
      * apply (winner_field_other _ _ _ i AtCheck pc' f Hi); try done.
        -- intros ->. destruct Hw as [Hd _]. rewrite Hp4 in Hd; done.
        -- by intros p [].
        -- by right.
  - (* AtStore *)
    intros [= <-].
    destruct (lock_fields_inside _ (Do_locked σ) i AtStore (AtUnlock true) f Hi
                I I Hu Hh) as (Hu' & Hl' & Hh').
    split; simpl; try done.
    + by rewrite (moved_funcs _ _ _ _ _ Hi).
    + right. split; [done|].
      destruct Hw as [(Hd & Hp & Hnone)|(Hd & w & g & Hg & Hprog & Hothers)].
      * exists i, (AtUnlock true, f). split_and!; [by apply moved_self|done|].
        intros j g' Hne Hg'. moved Hg'; [done|]. split; [eauto|].
        intros Hst. apply Hne. apply (Hh j i g' (AtStore, f)); try done.
        by rewrite Hst.
      * exfalso. destruct (decide (w = i)) as [->|Hne].
        -- rewrite Hi in Hg. injection Hg as <-. done.
        -- by destruct (Hothers i _ (not_eq_sym Hne) Hi) as [_ []].
  - (* AtUnlock *)
    intros [= <-].
    assert (Hpc' : ¬ holds_lock (if may then AtCall else Returned : Do_pc E)).
    { by destruct may; intros []. }
    split; simpl.
    + by rewrite (moved_funcs _ _ _ _ _ Hi).
    + intros _ j g Hg. moved Hg; [done|].
      intros Hhold. by pose proof (Hh j i _ _ Hg Hi Hhold I).
    + done.
    + intros j k gj gk Hj Hk Hhj Hhk. moved Hj; moved Hk; try done. eauto.
    + intros j g Hg Hret. moved Hg; [|eauto].
      destruct may; simpl in Hret; [destruct Hret; done|].
      apply (Hlate i _ Hi). by right.
    + destruct may.
      * right.
        apply (winner_field_self _ _ (Do_performed σ) _ i (AtUnlock true) AtCall f Hi);
          done.
      * apply (winner_field_other _ _ _ i (AtUnlock false) Returned f Hi);
          try done; by intros p [].
  - (* AtCall *)
    intros [= <-].
    destruct (lock_fields_outside _ (Do_locked σ) i AtCall (InCall f) f Hi
                (fun x => x) (fun x => x) Hu Hl Hh) as (Hu' & Hl' & Hh').
    split; simpl; try done.
    + by rewrite (moved_funcs _ _ _ _ _ Hi).
    + intros j g Hg Hret. moved Hg; [|eauto].
      simpl in Hret. destruct Hret; done.
    + right.
      apply (winner_field_self _ _ (Do_performed σ) _ i AtCall (InCall f) f Hi); [done| |done].
      simpl. by intros ->.
  - (* InCall *)
    assert (Hw1 : Do_done σ = 1).
    { destruct Hw as [(_ & _ & Hnone)|(? & _)]; [|done].
      by destruct (Hnone i _ Hi). }
    destruct rest as [|e rest]; intros [= <-].
    + destruct (lock_fields_outside _ (Do_locked σ) i (InCall []) Returned f Hi
                  (fun x => x) (fun x => x) Hu Hl Hh) as (Hu' & Hl' & Hh').
      split; simpl; try done.
      * by rewrite (moved_funcs _ _ _ _ _ Hi).
      * right.
        apply (winner_field_self _ _ (Do_performed σ) _ i (InCall []) Returned f Hi);
          [done| |done].
        simpl. by rewrite app_nil_r.
    + destruct (lock_fields_outside _ (Do_locked σ) i (InCall (e :: rest))
                  (InCall rest) f Hi
                  (fun x => x) (fun x => x) Hu Hl Hh) as (Hu' & Hl' & Hh').
      split; simpl; try done.
      * by rewrite (moved_funcs _ _ _ _ _ Hi).
      * right.
        apply (winner_field_self _ _ (Do_performed σ) _ i (InCall (e :: rest))
                 (InCall rest) f Hi); [done| |done].
        simpl. intros <-. by rewrite <- app_assoc.
  - done.
Qed.

Lemma Do_run_inv (fs : list (list E)) (schedule : list nat) :
  ∀ σ, Do_inv fs σ → Do_inv fs (Do_run schedule σ).
Proof.
  induction schedule as [|i schedule IH]; intros σ Hinv; [done|].
  unfold Do_run. simpl. apply IH.
  destruct (Do_step i σ) as [σ'|] eqn:Hstep; simpl; [|done].
  by apply (Do_step_inv fs i σ).
Qed.

Lemma Do_step_holder (i : nat) σ (g : Do_pc E * list E) :
  Do_goroutines σ !! i = Some g → holds_lock g.1 → is_Some (Do_step i σ).
Proof.
  intros Hg Hhold. unfold Do_step. rewrite Hg.
  destruct g as [[| | | |may| |rest|] f]; simpl in Hhold; try done.
Qed.

Lemma Do_step_waiting (i : nat) σ (g : Do_pc E * list E) :
  Do_goroutines σ !! i = Some g → g.1 ≠ Returned →
  g.1 = AtLock ∧ Do_locked σ = true ∨ is_Some (Do_step i σ).
Proof.
  intros Hg Hret. unfold Do_step. rewrite Hg.
  destruct g as [[| | | |may| |[|e rest]|] f]; simpl in *; try done; auto.
  destruct (Do_locked σ); auto.
Qed.

(** X10.  However the goroutines that call [Do] on a fresh [once] are
    scheduled, the effects performed are the beginning of the function of
    one of them: no second function starts.  Once every goroutine has
    returned, the effects are those of exactly one of the functions; and as
    long as a goroutine has not returned, some goroutine can move. *)
Theorem Do_at_most_once (fs : list (list E)) (schedule : list nat) :
  let σ := Do_run schedule (Do_start fs) in
  (Do_performed σ = []
   ∨ ∃ (i : nat) (f : list E), fs !! i = Some f ∧ Do_performed σ `prefix_of` f)
  ∧ (fs ≠ [] ∧ Forall (fun g => g.1 = Returned) (Do_goroutines σ) →
       Do_done σ = 1
       ∧ ∃ (i : nat) (f : list E), fs !! i = Some f ∧ Do_performed σ = f)
  ∧ (Exists (fun g => g.1 ≠ Returned) (Do_goroutines σ) →
       ∃ i : nat, is_Some (Do_step i σ)).
Proof.
  intros σ.
  pose proof (Do_run_inv fs schedule _ (Do_start_inv fs)) as Hinv.
  fold σ in Hinv. clearbody σ.
  destruct Hinv as [Hf Hu Hl Hh Hlate Hw].
  assert (Hfs : ∀ i g, Do_goroutines σ !! i = Some g → fs !! i = Some g.2).
  { intros i g Hg. rewrite <- Hf, list_lookup_fmap, Hg. done. }
  split_and!.
  - destruct Hw as [(_ & Hp & _)|(_ & w & g & Hg & Hprog & _)]; [by left|].
    destruct g as [pc f]. simpl in Hprog.
    destruct pc as [| | | |[|]| |rest|]; try done; try by left.
    + right. exists w, f. split; [by apply (Hfs w _ Hg)|].
      exists rest. by rewrite Hprog.
    + right. exists w, f. split; [by apply (Hfs w _ Hg)|].
      by rewrite Hprog.
  - intros [Hne Hall].
    assert (Hd : Do_done σ = 1).
    { destruct (Do_goroutines σ) as [|g gs] eqn:Hgs.
      - rewrite <- Hf in Hne. done.
      - apply (Hlate 0%nat g); [done|]. left.
        by apply Forall_cons in Hall as [? _]. }
    split; [done|].
    destruct Hw as [(Hd0 & _)|(_ & w & g & Hg & Hprog & _)].
    { rewrite Hd in Hd0. done. }
    rewrite Forall_lookup in Hall. specialize (Hall w g Hg).
    destruct g as [pc f]. simpl in Hall, Hprog. subst pc. simpl in Hprog.
    exists w, f. split; [by apply (Hfs w _ Hg)|done].
  - intros (g & Hin & Hret)%Exists_exists.
    apply list_elem_of_lookup in Hin as [j Hg].
    destruct (Do_step_waiting j σ g Hg Hret) as [[_ Hlk]|Hstep]; [|by eauto].
    destruct (Hl Hlk) as (h & gh & Hgh & Hhold).
    exists h. by apply (Do_step_holder h σ gh).
Qed.

(** X11.  [Do] can return before the function ran: with two goroutines or
    more there is a schedule after which the second has returned from [Do]
    while the first, to which [mayExecute] answered [true], has not yet
    called its function. *)
Theorem Do_returns_before_call (f0 f1 : list E) (fs : list (list E)) :
  ∃ schedule : list nat,
    let σ := Do_run schedule (Do_start (f0 :: f1 :: fs)) in
    Do_goroutines σ !! 1%nat = Some (Returned, f1)
    ∧ Do_goroutines σ !! 0%nat = Some (AtCall, f0)
    ∧ Do_performed σ = [].
Proof. by exists [0; 0; 0; 0; 0; 1]%nat. Qed.

End Do_proofs.

Lemma Do_at_most_once_witness :
  let σ := Do_run [1; 0; 1; 0; 0; 1; 0; 0; 1; 1; 0; 1; 0; 0; 0; 0; 1; 1]%nat
             (Do_start [[1; 2]; [3]]) in
  Do_done σ = 1
  ∧ ∃ (i : nat) (f : list N), [[1; 2]; [3]] !! i = Some f ∧ Do_performed σ = f.
Proof.
  apply (Do_at_most_once [[1; 2]; [3]]
           [1; 0; 1; 0; 0; 1; 0; 0; 1; 1; 0; 1; 0; 0; 0; 0; 1; 1]%nat).
  split; [done|]. vm_compute. repeat constructor.
Defined.

(** ** Closing a connection *)

Lemma once_Do_fresh {S : Type} (o : once) (f : S → S) (st : S) :
  done o = 0 → once_Do o f st = ({| done := 1 |}, f st).
Proof.
  intros Ho. unfold once_Do, once_mayExecute. rewrite Ho. done.
Qed.

Lemma once_Do_done {S : Type} (o : once) (f : S → S) (st : S) :
  done o ≠ 0 → once_Do o f st = (o, st).
Proof.
  intros Ho. unfold once_Do, once_mayExecute.
  case_bool_decide; [done|]. by rewrite bool_decide_eq_false_2.
Qed.

Lemma close_call_fresh (call : CloseCall) (c : Client_) :
  done (Client_once c) = 0 →
  close_call call c
  = {| Client_info := Client_info c; Client_once := {| done := 1 |};
       Client_io := Client_io c ++ close_func (Client_info c) call |}.
Proof.
  intros Ho. destruct call; simpl;
    unfold Client_CloseOnError, Client_CloseOnDone; by rewrite once_Do_fresh.
Qed.

Lemma close_call_done (call : CloseCall) (c : Client_) :
  done (Client_once c) ≠ 0 → close_call call c = c.
Proof.
  intros Ho. destruct call; simpl;
    unfold Client_CloseOnError, Client_CloseOnDone;
    rewrite once_Do_done by done; by destruct c.
Qed.

Lemma CloseOnError_fresh (code : Z) (reason : string) (c : Client_) :
  done (Client_once c) = 0 →
  Client_CloseOnError code reason c
  = {| Client_info := Client_info c; Client_once := {| done := 1 |};
       Client_io := Client_io c ++ CloseOnError_func (Client_info c) code reason |}.
Proof. exact (close_call_fresh (CallCloseOnError code reason) c). Qed.

Lemma CloseOnError_done (code : Z) (reason : string) (c : Client_) :
  done (Client_once c) ≠ 0 → Client_CloseOnError code reason c = c.
Proof. exact (close_call_done (CallCloseOnError code reason) c). Qed.

Lemma CloseOnError_once (code : Z) (reason : string) (c : Client_) :
  done (Client_once (Client_CloseOnError code reason c)) ≠ 0.
Proof.
  destruct (decide (done (Client_once c) = 0)) as [Ho|Ho].
  - by rewrite CloseOnError_fresh.
  - by rewrite CloseOnError_done.
Qed.

Lemma CloseOnDone_fresh (code : Z) (reason : string) (c : Client_) :
  done (Client_once c) = 0 →
  Client_CloseOnDone code reason c
  = {| Client_info := Client_info c; Client_once := {| done := 1 |};
       Client_io := Client_io c ++ Client_writeCloseMessage code reason |}.
Proof. exact (close_call_fresh (CallCloseOnDone code reason) c). Qed.

Lemma CloseOnDone_done (code : Z) (reason : string) (c : Client_) :
  done (Client_once c) ≠ 0 → Client_CloseOnDone code reason c = c.
Proof. exact (close_call_done (CallCloseOnDone code reason) c). Qed.

Lemma close_calls_done (calls : list CloseCall) (c : Client_) :
  done (Client_once c) ≠ 0 → foldl (fun c call => close_call call c) c calls = c.
Proof.
  intros Ho. induction calls as [|call calls IH]; simpl; [done|].
  by rewrite close_call_done.
Qed.

(** X12.  Of the calls of [CloseOnError] and [CloseOnDone] a goroutine makes
    on a client, only the first has an effect: it calls [WriteControl] once,
    with the close message of its code and reason and the write timeout, and
    then closes the connection; the disconnect event is put on [read]
    exactly when that first call is [CloseOnError].  The result of
    [WriteControl] is discarded by the source, so this says what is asked of
    the connection, not that the frame goes out.  When the [once] of the
    client was used before, no call has an effect. *)
Theorem close_first_wins (calls : list CloseCall) (c : Client_) :
  let c' := foldl (fun c call => close_call call c) c calls in
  (done (Client_once c) ≠ 0 → c' = c)
  ∧ (done (Client_once c) = 0 →
       Client_info c' = Client_info c
       ∧ match calls with
         | [] => c' = c
         | call :: _ =>
             done (Client_once c') = 1
             ∧ Client_io c'
               = Client_io c
                 ++ match call with
                    | CallCloseOnError code reason =>
                        [read_send
                           {| Info := Client_info c;
                              SkipConnectedCheck := false;
                              Incoming :=
                                EvDisconnected
                                  {| Code := code; Reason := reason |} |};
                         conn_WriteControl_Close code reason writeWait;
                         conn_Close]
                    | CallCloseOnDone code reason =>
                        [conn_WriteControl_Close code reason writeWait;
                         conn_Close]
                    end
         end).
Proof.
  intros c'. subst c'. split; [apply close_calls_done|].
  intros Ho. destruct calls as [|call calls]; [done|]. simpl.
  rewrite close_call_fresh by done. rewrite close_calls_done by done.
  simpl. split_and!; try done.
Qed.

Lemma close_first_wins_witness :
  Client_io
    (foldl (fun c call => close_call call c) example_client
       [CallCloseOnDone 1000 "bye"; CallCloseOnError 1000 "read error: EOF"])
  = [conn_WriteControl_Close 1000 "bye" writeWait; conn_Close].
Proof.
  apply (close_first_wins
           [CallCloseOnDone 1000 "bye"; CallCloseOnError 1000 "read error: EOF"]
           example_client).
  reflexivity.
Defined.

(** ** The reader and the writer of a connection *)

Section reader.
Variable json_Decode : string → result Typed.
Variable json_Unmarshal : string → Event → result Event.
Variable provider : gmap string Event.

Local Abbreviation frame_event := (frame_event json_Decode json_Unmarshal provider).
Local Abbreviation frame_close := (frame_close json_Decode json_Unmarshal provider).
Local Abbreviation startReading_loop :=
  (startReading_loop json_Decode json_Unmarshal provider).
Local Abbreviation Client_startReading :=
  (Client_startReading json_Decode json_Unmarshal provider).

Lemma Client_do_app (l1 l2 : list IO) (c : Client_) :
  Client_do l2 (Client_do l1 c) = Client_do (l1 ++ l2) c.
Proof. unfold Client_do. simpl. by rewrite <- app_assoc. Qed.

Lemma startReading_loop_good (good : list NextReader) :
  ∀ (evs : list Event) (rest : list NextReader) (c : Client_),
    Forall2 (fun fr ev => frame_event fr = Some ev) good evs →
    startReading_loop (good ++ rest) c
    = startReading_loop rest
        (Client_do
           ((fun ev => read_send {| Info := Client_info c;
                                    SkipConnectedCheck := false;
                                    Incoming := ev |}) <$> evs) c).
Proof.
  induction good as [|fr good IH]; intros evs rest c Hgood.
  - apply Forall2_nil_inv_l in Hgood as ->. simpl.
    unfold Client_do. rewrite app_nil_r. by destruct c.
  - apply Forall2_cons_inv_l in Hgood as (ev & evs' & Hfr & Hgood & ->).
    destruct fr as [err|t m]; [done|]. simpl in Hfr |- *.
    destruct (bool_decide (t = BinaryMessage)); [done|].
    destruct (ReadTypedIncoming json_Decode json_Unmarshal provider m)
      as [incoming|err]; [|done].
    injection Hfr as ->.
    rewrite (IH evs' rest _ Hgood). by rewrite Client_do_app.
Qed.

Lemma startReading_loop_bad (bad : NextReader) (rest : list NextReader)
    (c : Client_) :
  frame_event bad = None →
  startReading_loop (bad :: rest) c
  = (Client_CloseOnError (frame_close bad).1 (frame_close bad).2 c, true).
Proof.
  intros Hbad. destruct bad as [err|t m]; simpl in *; [done|].
  destruct (bool_decide (t = BinaryMessage)); [done|].
  by destruct (ReadTypedIncoming json_Decode json_Unmarshal provider m).
Qed.

Lemma startReading_loop_returned (frames : list NextReader) :
  ∀ (c c' : Client_),
    startReading_loop frames c = (c', true) → done (Client_once c') ≠ 0.
Proof.
  pose proof CloseOnError_once as Hclose.
  induction frames as [|fr frames IH]; intros c c'; simpl; [done|].
  destruct fr as [err|t m].
  - intros [= <-]. apply Hclose.
  - destruct (bool_decide (t = BinaryMessage)).
    + intros [= <-]. apply Hclose.
    + destruct (ReadTypedIncoming json_Decode json_Unmarshal provider m).
      * apply IH.
      * intros [= <-]. apply Hclose.
Qed.

(** X13.  The reader of a connection forwards to the main loop, in order,
    the events of the frames it receives as long as each is a text frame
    that decodes to an event of a registered type, and waits for more.  At
    the first frame that is not, it closes the connection with the code and
    reason of that frame (1000 for a read error, 1003 for a binary or
    malformed message), provided the connection was not closed before, and
    returns, leaving the frames that follow unread; its deferred
    [CloseOnError] never has an effect. *)
Theorem reader_forwards_until_bad_frame (good : list NextReader)
    (evs : list Event) (c : Client_) :
  Forall2 (fun fr ev => frame_event fr = Some ev) good evs →
  let opened :=
    Client_do
      ([conn_SetReadDeadline; conn_SetPongHandler]
       ++ ((fun ev => read_send {| Info := Client_info c;
                                   SkipConnectedCheck := false;
                                   Incoming := ev |}) <$> evs)) c in
  Client_startReading good c = (opened, false)
  ∧ (∀ (bad : NextReader) (rest : list NextReader),
       frame_event bad = None →
       Client_startReading (good ++ bad :: rest) c
       = (if bool_decide (done (Client_once c) = 0) then
            {| Client_info := Client_info c;
               Client_once := {| done := 1 |};
               Client_io :=
                 Client_io opened
                 ++ CloseOnError_func (Client_info c)
                      (frame_close bad).1 (frame_close bad).2 |}
          else opened, true))
  ∧ (∀ frames : list NextReader,
       Client_startReading frames c
       = startReading_loop frames
           (Client_do [conn_SetReadDeadline; conn_SetPongHandler] c)).
Proof.
  intros Hgood opened. split_and!.
  - unfold Client_startReading.
    rewrite <- (app_nil_r good), (startReading_loop_good good evs [] _ Hgood).
    simpl. subst opened. by rewrite Client_do_app.
  - intros bad rest Hbad. unfold Client_startReading.
    rewrite (startReading_loop_good good evs _ _ Hgood).
    rewrite (startReading_loop_bad bad rest _ Hbad), Client_do_app.
    fold opened.
    assert (Ho : done (Client_once opened) = done (Client_once c)) by done.
    case_bool_decide as Hc.
    + rewrite (CloseOnError_fresh _ _ opened) by by rewrite Ho.
      by rewrite CloseOnError_done.
    + rewrite (CloseOnError_done _ _ opened) by by rewrite Ho.
      rewrite CloseOnError_done by by rewrite Ho.
      done.
  - intros frames. unfold Client_startReading.
    destruct (startReading_loop frames _) as [c' returned] eqn:Hloop.
    destruct returned; [|done].
    apply startReading_loop_returned in Hloop.
    by rewrite CloseOnError_done.
Qed.

End reader.

Lemma reader_forwards_until_bad_frame_witness :
  Client_io
    (Client_startReading example_Decode example_Unmarshal example_provider
       [NextReader_ok TextMessage "join"; NextReader_ok TextMessage "nope";
        NextReader_ok TextMessage "join"]
       example_client).1
  = [conn_SetReadDeadline; conn_SetPongHandler;
     read_send {| Info := Client_info example_client;
                  SkipConnectedCheck := false;
                  Incoming := EvJoin {| Join_ID := "r1"; UserName := "" |} |};
     read_send {| Info := Client_info example_client;
                  SkipConnectedCheck := false;
                  Incoming :=
                    EvDisconnected
                      {| Code := 1003;
                         Reason := "malformed message: cannot handle nope" |} |};
     conn_WriteControl_Close 1003 "malformed message: cannot handle nope"
       writeWait;
     conn_Close].
Proof.
  pose proof (reader_forwards_until_bad_frame
                example_Decode example_Unmarshal example_provider
                [NextReader_ok TextMessage "join"]
                [EvJoin {| Join_ID := "r1"; UserName := "" |}]
                example_client) as Hreader.
  destruct Hreader as (_ & Hbad & _).
  { repeat constructor. }
  specialize (Hbad (NextReader_ok TextMessage "nope")
                [NextReader_ok TextMessage "join"] eq_refl).
  cbn [app] in Hbad. rewrite Hbad. reflexivity.
Defined.

Section writer.
Variable json_Marshal : outgoing.Message → result string.
Variable Message_Type : outgoing.Message → string.

Local Abbreviation startWriteHandler_loop :=
  (startWriteHandler_loop json_Marshal Message_Type).
Local Abbreviation Client_startWriteHandler :=
  (Client_startWriteHandler json_Marshal Message_Type).

Lemma performs_trans (c c1 c2 : Client_) (io1 io2 : list IO) :
  performs c c1 io1 → performs c1 c2 io2 → performs c c2 (io1 ++ io2).
Proof.
  intros (Hi1 & Hio1 & Hf1 & Hr1) (Hi2 & Hio2 & Hf2 & Hr2).
  unfold performs, close_frames, read_sends in *.
  rewrite !bind_app, !length_app. split_and!.
  - congruence.
  - rewrite Hio2, Hio1. by rewrite <- app_assoc.
  - lia.
  - lia.
Qed.

Lemma performs_do (l : list IO) (c : Client_) :
  close_frames l = [] → read_sends l = [] → performs c (Client_do l c) l.
Proof.
  intros Hf Hr. unfold performs. rewrite Hf, Hr. by split_and!.
Qed.

Lemma performs_CloseOnError (code : Z) (reason : string) (c : Client_) :
  ∃ io : list IO,
    performs c (Client_CloseOnError code reason c) io ∧ json_written io = [].
Proof.
  destruct (decide (done (Client_once c) = 0)) as [Ho|Ho].
  - exists (CloseOnError_func (Client_info c) code reason).
    rewrite CloseOnError_fresh by done. unfold performs, once_unused. simpl.
    rewrite Ho. by split_and!.
  - exists []. rewrite CloseOnError_done by done.
    unfold performs. rewrite app_nil_r. by split_and!.
Qed.

Lemma performs_CloseOnDone (code : Z) (reason : string) (c : Client_) :
  ∃ io : list IO,
    performs c (Client_CloseOnDone code reason c) io ∧ json_written io = []
    ∧ done (Client_once (Client_CloseOnDone code reason c)) ≠ 0.
Proof.
  destruct (decide (done (Client_once c) = 0)) as [Ho|Ho].
  - exists (Client_writeCloseMessage code reason).
    rewrite CloseOnDone_fresh by done.
    unfold performs, once_unused. simpl. rewrite Ho.
    split_and!; try done. lia.
  - exists []. rewrite CloseOnDone_done by done.
    unfold performs. rewrite app_nil_r. by split_and!.
Qed.

Lemma json_written_app (io1 io2 : list IO) :
  json_written (io1 ++ io2) = json_written io1 ++ json_written io2.
Proof. unfold json_written. by rewrite bind_app. Qed.

(** One turn of the write loop on an event that does not close the writer. *)
Lemma writer_loop_cons (ev : WriteEvent) (c : Client_) :
  closes_writer ev = false →
  ∃ (c1 : Client_) (io : list IO),
    (∀ rest, startWriteHandler_loop (ev :: rest) c
             = startWriteHandler_loop rest c1)
    ∧ performs c c1 io
    ∧ json_written io = (written json_Marshal Message_Type) ev.
Proof.
  intros Hev. destruct ev as [message write_err|ping_err].
  - assert (Hloop : ∀ rest,
              startWriteHandler_loop (Write_recv message write_err :: rest) c
              = let c := Client_do [conn_SetWriteDeadline] c in
                match ToTypedOutgoing json_Marshal Message_Type message with
                | Err err =>
                    startWriteHandler_loop rest
                      (Client_CloseOnError CloseNormalClosure
                         ("malformed outgoing " +:+ err) c)
                | Ok typed =>
                    let c := Client_do [conn_writeJSON typed] c in
                    match write_err with
                    | Some err =>
                        startWriteHandler_loop rest
                          (Client_CloseOnError CloseNormalClosure
                             ("write error" +:+ err) c)
                    | None => startWriteHandler_loop rest c
                    end
                end).
    { intros rest. by destruct message. }
    assert (Hw : (written json_Marshal Message_Type) (Write_recv message write_err)
                 = match ToTypedOutgoing json_Marshal Message_Type message with
                   | Ok typed => [typed]
                   | Err _ => []
                   end).
    { unfold written. by rewrite Hev. }
    rewrite Hw. clear Hw Hev.
    pose proof (performs_do [conn_SetWriteDeadline] c eq_refl eq_refl) as H0.
    set (c0 := Client_do [conn_SetWriteDeadline] c) in *.
    destruct (ToTypedOutgoing json_Marshal Message_Type message)
      as [typed|err] eqn:Htyped.
    + pose proof (performs_do [conn_writeJSON typed] c0 eq_refl eq_refl) as H1.
      set (c1 := Client_do [conn_writeJSON typed] c0) in *.
      destruct write_err as [err|].
      * destruct (performs_CloseOnError CloseNormalClosure
                    ("write error" +:+ err) c1) as (io & H2 & Hj).
        eexists _, _. split_and!.
        -- intros rest. rewrite Hloop. reflexivity.
        -- exact (performs_trans _ _ _ _ _ (performs_trans _ _ _ _ _ H0 H1) H2).
        -- rewrite !json_written_app, Hj. done.
      * eexists _, _. split_and!.
        -- intros rest. rewrite Hloop. reflexivity.
        -- exact (performs_trans _ _ _ _ _ H0 H1).
        -- done.
    + destruct (performs_CloseOnError CloseNormalClosure
                  ("malformed outgoing " +:+ err) c0) as (io & H2 & Hj).
      eexists _, _. split_and!.
      * intros rest. rewrite Hloop. reflexivity.
      * exact (performs_trans _ _ _ _ _ H0 H2).
      * rewrite json_written_app, Hj. done.
  - pose proof (performs_do [conn_SetWriteDeadline; conn_ping] c
                  eq_refl eq_refl) as H0.
    destruct ping_err as [err|]; simpl.
    + destruct (performs_CloseOnError CloseNormalClosure "ping timeout"
                  (Client_do [conn_SetWriteDeadline; conn_ping] c))
        as (io & H2 & Hj).
      eexists _, _. split_and!.
      * intros rest. reflexivity.
      * exact (performs_trans _ _ _ _ _ H0 H2).
      * rewrite json_written_app, Hj. done.
    + eexists _, _. split_and!; [by intros rest|exact H0|done].
Qed.

Lemma performs_refl (c : Client_) : performs c c [].
Proof. unfold performs. rewrite app_nil_r. by split_and!. Qed.

Lemma writer_loop_pre (pre : list WriteEvent) :
  ∀ c : Client_,
    Forall (fun ev => closes_writer ev = false) pre →
    ∃ (c1 : Client_) (io : list IO),
      (∀ rest, startWriteHandler_loop (pre ++ rest) c
               = startWriteHandler_loop rest c1)
      ∧ performs c c1 io
      ∧ json_written io = pre ≫= (written json_Marshal Message_Type).
Proof.
  induction pre as [|ev pre IH]; intros c Hpre.
  - exists c, []. split_and!; [done|apply performs_refl|done].
  - apply Forall_cons in Hpre as [Hev Hpre].
    destruct (writer_loop_cons ev c Hev) as (c1 & io1 & Hloop1 & Hp1 & Hj1).
    destruct (IH c1 Hpre) as (c2 & io2 & Hloop2 & Hp2 & Hj2).
    exists c2, (io1 ++ io2). split_and!.
    + intros rest. rewrite <- app_comm_cons, Hloop1. apply Hloop2.
    + exact (performs_trans _ _ _ _ _ Hp1 Hp2).
    + rewrite json_written_app, Hj1, Hj2. done.
Qed.

(** X14.  The writer of a connection returns only at a request to close the
    writer.  Until then it takes every event, hands to [writeJSON] every
    message that can be encoded, in order, also after a write, an encoding
    or a ping failed, and goes on waiting when the events run out.  At the
    request it leaves the events that follow untaken, closes the connection
    and stops its ticker. *)
Theorem writer_runs_until_CloseWriter (pre post : list WriteEvent)
    (c : Client_) :
  Forall (fun ev => closes_writer ev = false) pre →
  (∃ c' : Client_,
     Client_startWriteHandler pre c = (c', [], false)
     ∧ json_written (Client_io c')
       = json_written (Client_io c) ++ (pre ≫= (written json_Marshal Message_Type)))
  ∧ (∀ (code : Z) (reason : string) (write_err : option string),
       ∃ (c' : Client_) (io : list IO),
         Client_startWriteHandler
           (pre ++ Write_recv (outgoing.CloseWriter code reason) write_err
                :: post) c
         = (c', post, true)
         ∧ Client_io c' = Client_io c ++ io ++ [conn_Close; pingTicker_Stop]
         ∧ json_written io = pre ≫= (written json_Marshal Message_Type)
         ∧ done (Client_once c') ≠ 0).
Proof.
  intros Hpre.
  destruct (writer_loop_pre pre c Hpre) as (c1 & io & Hloop & Hp & Hj).
  destruct Hp as (Hinfo & Hio & Hf & Hr).
  split.
  - exists c1. unfold Client_startWriteHandler.
    rewrite <- (app_nil_r pre), Hloop. simpl.
    split; [done|]. by rewrite Hio, json_written_app, Hj, app_nil_r.
  - intros code reason write_err.
    destruct (performs_CloseOnDone code reason c1)
      as (io2 & (Hinfo2 & Hio2 & _) & Hj2 & Hdone).
    eexists _, (io ++ io2). unfold Client_startWriteHandler.
    rewrite Hloop. simpl. split_and!.
    + reflexivity.
    + simpl. rewrite Hio2, Hio, <- !app_assoc. done.
    + by rewrite json_written_app, Hj, Hj2, app_nil_r.
    + done.
Qed.

Lemma first_closing (events : list WriteEvent) :
  Forall (fun ev => closes_writer ev = false) events
  ∨ ∃ (pre post : list WriteEvent) (code : Z) (reason : string)
      (write_err : option string),
      events = pre ++ Write_recv (outgoing.CloseWriter code reason) write_err
                     :: post
      ∧ Forall (fun ev => closes_writer ev = false) pre.
Proof.
  induction events as [|ev events IH]; [by left|].
  destruct (closes_writer ev) eqn:Hev.
  - right. destruct ev as [message write_err|]; [|done].
    destruct message as [| | | | | | | |code reason]; try done.
    by exists [], events, code, reason, write_err.
  - destruct IH as [Hall|(pre & post & code & reason & w & -> & Hpre)].
    + left. by constructor.
    + right. exists (ev :: pre), post, code, reason, w. split; [done|].
      by constructor.
Qed.

(** X15.  Whatever events the writer of a connection takes, and whatever
    fails on the way, it writes at most one close frame and puts at most one
    disconnect event on [read]; it writes the close frame exactly when the
    [once] of the client had not been used before and was used by its run,
    and does neither when the [once] had been used. *)
Theorem writer_closes_once (events : list WriteEvent) (c : Client_) :
  ∃ (c' : Client_) (rest : list WriteEvent) (returned : bool) (io : list IO),
    Client_startWriteHandler events c = (c', rest, returned)
    ∧ Client_info c' = Client_info c
    ∧ Client_io c' = Client_io c ++ io
    ∧ (length (close_frames io) + once_unused c' = once_unused c)%nat
    ∧ (length (read_sends io) ≤ length (close_frames io) ≤ 1)%nat
    ∧ (done (Client_once c) ≠ 0 → close_frames io = [] ∧ read_sends io = [])
    ∧ (returned = true → once_unused c' = 0%nat).
Proof.
  assert (Hbound : ∀ c1 io, performs c c1 io →
            Client_info c1 = Client_info c
            ∧ Client_io c1 = Client_io c ++ io
            ∧ (length (close_frames io) + once_unused c1 = once_unused c)%nat
            ∧ (length (read_sends io) ≤ length (close_frames io) ≤ 1)%nat
            ∧ (done (Client_once c) ≠ 0 →
                 close_frames io = [] ∧ read_sends io = [])).
  { intros c1 io (Hinfo & Hio & Hf & Hr). split_and!; try done.
    - lia.
    - unfold once_unused in *. repeat case_bool_decide; lia.
    - intros Ho. unfold once_unused in *.
      rewrite (bool_decide_eq_false_2 _ Ho) in Hf, Hr.
      split; apply length_zero_iff_nil; lia. }
  destruct (first_closing events)
    as [Hall|(pre & post & code & reason & w & -> & Hpre)].
  - destruct (writer_loop_pre events c Hall) as (c1 & io & Hloop & Hp & _).
    exists c1, [], false, io. unfold Client_startWriteHandler.
    rewrite <- (app_nil_r events), Hloop. simpl.
    destruct (Hbound c1 io Hp) as (? & ? & ? & ? & ?).
    split_and!; try done; lia.
  - destruct (writer_loop_pre pre c Hpre) as (c1 & io & Hloop & Hp & _).
    destruct (performs_CloseOnDone code reason c1) as (io2 & Hp2 & _ & Hdone).
    pose proof (performs_do [conn_Close; pingTicker_Stop]
                  (Client_CloseOnDone code reason c1) eq_refl eq_refl) as Hp3.
    pose proof (performs_trans _ _ _ _ _ (performs_trans _ _ _ _ _ Hp Hp2) Hp3)
      as Hall.
    eexists _, post, true, _. unfold Client_startWriteHandler.
    rewrite Hloop. simpl.
    destruct (Hbound _ _ Hall) as (? & ? & ? & ? & ?).
    split_and!; try done; try lia.
    intros _. unfold once_unused. simpl. by rewrite bool_decide_eq_false_2.
Qed.

End writer.

Lemma writer_runs_until_CloseWriter_witness :
  ∃ c' : Client_,
    Client_startWriteHandler (fun _ => Ok "{}") (fun _ => "endshare")
      [Write_recv (outgoing.EndShare 7) (Some "broken pipe");
       pingTicker_C None;
       Write_recv (outgoing.EndShare 8) None;
       Write_recv (outgoing.CloseWriter 1000 "bye") None;
       pingTicker_C None]
      example_client
    = (c', [pingTicker_C None], true)
    ∧ json_written (Client_io c')
      = [{| Typed_Type := "endshare"; Typed_Payload := "{}" |};
         {| Typed_Type := "endshare"; Typed_Payload := "{}" |}].
Proof.
  destruct (writer_runs_until_CloseWriter (fun _ => Ok "{}")
              (fun _ => "endshare")
              [Write_recv (outgoing.EndShare 7) (Some "broken pipe");
               pingTicker_C None;
               Write_recv (outgoing.EndShare 8) None]
              [pingTicker_C None] example_client) as [_ Hclose].
  { repeat constructor. }
  destruct (Hclose 1000%Z "bye" None) as (c' & io & Hrun & Hio & Hj & _).
  exists c'. split; [exact Hrun|].
  rewrite Hio, !json_written_app, Hj. reflexivity.
Defined.

(** ** The end of a share *)

Section stop_share.
Context `{Runtime}.

Lemma foldl_delete_lookup {V} (ids : list N) :
  ∀ (m : gmap N V) (k : N),
    foldl (fun m id => delete id m) m ids !! k
    = if bool_decide (k ∈ ids) then None else m !! k.
Proof.
  induction ids as [|id ids IH]; intros m k; simpl; [done|].
  rewrite IH. destruct (decide (k = id)) as [->|Hne].
  - rewrite lookup_delete_eq, (bool_decide_eq_true_2 (id ∈ id :: ids)) by left.
    by destruct (bool_decide _).
  - rewrite lookup_delete_ne by done.
    rewrite (bool_decide_ext (k ∈ id :: ids) (k ∈ ids)); [done|].
    rewrite elem_of_cons. tauto.
Qed.

Lemma set_Sessions_compose (f g : gmap N RoomSession → gmap N RoomSession)
    (x : Room) :
  set_Sessions f (set_Sessions g x) = set_Sessions (fun m => f (g m)) x.
Proof. by destruct x. Qed.

(** The loop of [StopShare] over the sessions [l] of the room. *)
Lemma stop_share_loop (room : string) (host : ID)
    (l : list (ID * RoomSession)) :
  ∀ (s : Rooms) (x : Room),
    Rooms_Rooms s !! room = Some x →
    let hosted := filter (fun e : ID * RoomSession => Host e.2 = host) l in
    ∃ (s' : Rooms) (ds : list Delivery),
      forEach l (end_hosted_session room host) s = Some (tt, s')
      ∧ Rooms_Rooms s'
        = <[room := set_Sessions
                      (fun m => foldl (fun m id => delete id m) m hosted.*1) x]>
            (Rooms_Rooms s)
      ∧ connected s' = connected s
      ∧ conf s' = conf s
      ∧ r s' = r s
      ∧ sent s' = sent s ++ ds
      ∧ Forall2 (ends_share x)
          (filter (fun e => is_Some (Users x !! Client e.2)) hosted) ds
      ∧ turnServer s'
        = (if bool_decide (Mode x = ConnectionTURN)
           then foldl revoke_session (turnServer s) hosted.*1
           else turnServer s)
      ∧ sessionClosedTotal (metrics s')
        = sessionClosedTotal (metrics s) + N.of_nat (length hosted)
      ∧ sessionCreatedTotal (metrics s') = sessionCreatedTotal (metrics s)
      ∧ tick s ≤ tick s'.
Proof.
  induction l as [|e l IH]; intros s x Hx hosted; subst hosted.
  - exists s, []. simpl. split_and!; try done.
    + by rewrite set_Sessions_id, insert_id.
    + by rewrite app_nil_r.
    + by destruct (bool_decide _).
    + lia.
  - simpl. unfold bind at 1. unfold end_hosted_session at 1.
    destruct (decide (Host e.2 = host)) as [Hhost|Hhost].
    + rewrite bool_decide_eq_true_2 by done.
      rewrite filter_cons_True by done.
      unfold bind at 1. unfold bind at 1.
      rewrite (deref_room_spec room x s Hx).
      assert (Hw : ∃ s1 d1,
                 match Users x !! Client e.2 with
                 | Some client =>
                     User_WriteTimeout client (outgoing.EndShare e.1)
                 | None => ret tt
                 end s = Some (tt, s1)
                 ∧ sends s s1 d1
                 ∧ Forall2 (ends_share x)
                     (filter (fun e => is_Some (Users x !! Client e.2)) [e]) d1).
      { destruct (Users x !! Client e.2) as [client|] eqn:Hclient.
        - destruct (writeTimeout_sends (_write client)
                      (outgoing.EndShare e.1) s) as (s1 & took & Hw & Hs & _).
          exists s1, [{| to := _write client; msg := outgoing.EndShare e.1;
                         accepted := took |}].
          split; [exact Hw|]. split; [exact Hs|].
          rewrite filter_cons_True by (by rewrite Hclient).
          repeat constructor. by exists client.
        - exists s, []. split; [done|]. split; [apply sends_refl|].
          rewrite filter_cons_False by (rewrite Hclient; by intros [? ?]).
          constructor. }
      destruct Hw as (s1 & d1 & -> & ((HT1 & HR1 & HC1 & HF1 & Hr1 & HM1)
                                      & Hsent1 & Htick1) & Hd1).
      assert (Hx1 : Rooms_Rooms s1 !! room = Some x) by (by rewrite HR1).
      rewrite (closeSession_spec room x e.1 s1 Hx1).
      set (s2 := closeSession_state room x e.1 s1).
      pose proof (closeSessions_state_fields room [e.1] x s1 Hx1) as Hfields.
      cbv zeta in Hfields.
      change (closeSessions_state room x [e.1] s1) with s2 in Hfields.
      destruct Hfields
        as (HR2 & HC2 & Hsent2 & HF2 & Hr2 & _ & Htick2 & HT2 & HM2 & _).
      assert (Hx2 : Rooms_Rooms s2 !! room = Some (set_Sessions (delete e.1) x)).
      { rewrite HR2. apply lookup_insert_eq. }
      destruct (IH s2 _ Hx2)
        as (s' & ds & Hrun & HR & HC & HF & Hr & Hsent & Hds & HT & HM & HMc
            & Htick).
      exists s', (d1 ++ ds). split; [exact Hrun|]. simpl. split_and!.
      * rewrite HR, HR2, HR1, insert_insert_eq, set_Sessions_compose. done.
      * congruence.
      * congruence.
      * congruence.
      * rewrite Hsent, Hsent2, Hsent1. by rewrite <- app_assoc.
      * change (e :: filter (fun e0 : ID * RoomSession => Host e0.2 = host) l)
          with ([e] ++ filter (fun e0 : ID * RoomSession => Host e0.2 = host) l).
        rewrite filter_app. by apply Forall2_app.
      * rewrite HT, HT2.
        change (Mode (set_Sessions (delete e.1) x)) with (Mode x).
        destruct (bool_decide (Mode x = ConnectionTURN)); simpl;
          by rewrite HT1.
      * rewrite HM, HM2, HM1. simpl. lia.
      * rewrite HMc. unfold s2, closeSession_state. simpl.
        destruct (bool_decide _); simpl; by rewrite HM1.
      * lia.
    + rewrite bool_decide_eq_false_2 by done.
      rewrite filter_cons_False by done.
      destruct (IH s x Hx) as (s' & ds & Hrun & Hrest).
      exists s', ds. split; [exact Hrun|exact Hrest].
Qed.

Lemma alter_present {K A} `{Countable K} (f : A → A) (m : gmap K A) (k : K)
    (a : A) :
  m !! k = Some a → alter f k m = <[k := f a]> m.
Proof.
  intros Hk. rewrite <- (insert_id m k a Hk) at 1. apply alter_insert_eq.
Qed.

Lemma hosted_deleted (m : gmap N RoomSession) (l : list (ID * RoomSession))
    (host : ID) :
  l ≡ₚ map_to_list m →
  foldl (fun m id => delete id m) m
    (filter (fun e : ID * RoomSession => Host e.2 = host) l).*1
  = filter (fun e : ID * RoomSession => Host e.2 ≠ host) m.
Proof.
  intros Hl. apply map_eq. intros k. rewrite foldl_delete_lookup.
  case_bool_decide as Hin.
  - symmetry. apply map_lookup_filter_None_2. right. intros sess Hk Hne.
    apply list_elem_of_fmap in Hin as ([k' sess'] & -> & Hin).
    apply list_elem_of_filter in Hin as [Hhost Hin].
    rewrite Hl in Hin. apply elem_of_map_to_list in Hin. simpl in *.
    rewrite Hk in Hin. injection Hin as ->. done.
  - destruct (m !! k) as [sess|] eqn:Hk.
    + symmetry. apply map_lookup_filter_Some_2; [done|]. simpl.
      intros Hhost. apply Hin. apply list_elem_of_fmap.
      exists (k, sess). split; [done|]. apply list_elem_of_filter.
      split; [done|]. rewrite Hl. by apply elem_of_map_to_list.
    + symmetry. apply map_lookup_filter_None_2. by left.
Qed.

(** [StopShare.Execute] for a member of a room. *)
Lemma StopShare_spec (current : ClientInfo) (s : Rooms) (room : string)
    (x : Room) (u : User) :
  let id := ClientInfo_ID current in
  Rooms_CurrentRoom s current = Ok room →
  Rooms_Rooms s !! room = Some x →
  Users x !! id = Some u →
  ∃ (s' : Rooms) (ended : list (ID * RoomSession)) (dends : list Delivery)
    (members : list (ID * User)) (ds : list Delivery),
    let x' :=
      set_Sessions
        (fun m => foldl (fun m id => delete id m) m ended.*1)
        (set_Users (alter (set_Streaming false) id) x) in
    StopShare_Execute current s = Some (None, s')
    ∧ Rooms_Rooms s' = <[room := x']> (Rooms_Rooms s)
    ∧ connected s' = connected s
    ∧ conf s' = conf s
    ∧ r s' = r s
    ∧ (∃ sessions, sessions ≡ₚ map_to_list (Sessions x)
         ∧ ended = filter (fun e : ID * RoomSession => Host e.2 = id) sessions)
    ∧ sent s' = sent s ++ dends ++ ds
    ∧ Forall2 (ends_share x')
        (filter (fun e => is_Some (Users x' !! Client e.2)) ended) dends
    ∧ members ≡ₚ map_to_list (Users x')
    ∧ Forall2 (room_info_for x') members ds
    ∧ turnServer s'
      = (if bool_decide (Mode x = ConnectionTURN)
         then foldl revoke_session (turnServer s) ended.*1
         else turnServer s)
    ∧ sessionClosedTotal (metrics s')
      = sessionClosedTotal (metrics s) + N.of_nat (length ended)
    ∧ sessionCreatedTotal (metrics s') = sessionCreatedTotal (metrics s).
Proof.
  intros id Hcur Hx Hu.
  unfold StopShare_Execute, bind at 1, get. rewrite Hcur. fold id.
  unfold bind at 1. rewrite (deref_user_spec room x id u s Hx Hu).
  unfold bind at 1, update_room, modify.
  set (x1 := set_Users (alter (set_Streaming false) id) x).
  set (s1 := set_Rooms (alter (set_Users (alter (set_Streaming false) id)) room) s).
  assert (HR1 : Rooms_Rooms s1 = <[room := x1]> (Rooms_Rooms s)).
  { unfold s1. simpl. by apply alter_present. }
  assert (Hx1 : Rooms_Rooms s1 !! room = Some x1).
  { rewrite HR1. apply lookup_insert_eq. }
  unfold bind at 1. rewrite (deref_room_spec room x1 s1 Hx1).
  unfold bind at 1. rewrite range_spec.
  set (sessions := range_order _ _ _).
  assert (Hsessions : sessions ≡ₚ map_to_list (Sessions x))
    by apply range_order_perm.
  set (s2 := set_tick (fun n => n + 1) s1).
  destruct (stop_share_loop room id sessions s2 x1 Hx1)
    as (s3 & dends & Hloop & HR3 & HC3 & HF3 & Hr3 & Hsent3 & Hends & HT3
        & HM3 & HMc3 & _).
  unfold bind at 1. rewrite Hloop.
  set (ended := filter (fun e : ID * RoomSession => Host e.2 = id) sessions) in *.
  set (x3 := set_Sessions
               (fun m => foldl (fun m id => delete id m) m ended.*1) x1) in *.
  assert (Hx3 : Rooms_Rooms s3 !! room = Some x3).
  { rewrite HR3. apply lookup_insert_eq. }
  destruct (notifyInfoChanged_spec room x3 s3 Hx3)
    as (s4 & members & ds & Hnotify & Hmembers & Hinfos
        & (HT4 & HR4 & HC4 & HF4 & Hr4 & HM4) & Hsent4 & _).
  unfold bind at 1. rewrite Hnotify.
  exists s4, ended, dends, members, ds. cbv zeta. fold x1 x3.
  split; [reflexivity|]. split_and!.
  - rewrite HR4, HR3. change (Rooms_Rooms s2) with (Rooms_Rooms s1).
    by rewrite HR1, insert_insert_eq.
  - by rewrite HC4, HC3.
  - by rewrite HF4, HF3.
  - by rewrite Hr4, Hr3.
  - by exists sessions.
  - rewrite Hsent4, Hsent3. simpl. by rewrite <- app_assoc.
  - exact Hends.
  - exact Hmembers.
  - exact Hinfos.
  - rewrite HT4, HT3. done.
  - rewrite HM4, HM3. done.
  - rewrite HM4, HMc3. done.
Qed.

(** X16.  When a member of a room stops sharing, it is marked as not
    streaming, exactly the sessions it hosts are closed (and, in TURN mode,
    their usernames revoked), every client of such a session that is still a
    member is told that the share ended, and then the room info is broadcast;
    the sessions of other hosts, the members and the membership records are
    left as they are. *)
Theorem StopShare_closes_hosted_sessions (current : ClientInfo) (s : Rooms)
    (room : string) (x : Room) (u : User) :
  let id := ClientInfo_ID current in
  Rooms_CurrentRoom s current = Ok room →
  Rooms_Rooms s !! room = Some x →
  Users x !! id = Some u →
  ∃ (s' : Rooms) (x' : Room) (ended : list (ID * RoomSession))
    (dends : list Delivery) (members : list (ID * User)) (ds : list Delivery),
    StopShare_Execute current s = Some (None, s')
    ∧ Rooms_Rooms s' = <[room := x']> (Rooms_Rooms s)
    ∧ connected s' = connected s
    ∧ Users x' = <[id := set_Streaming false u]> (Users x)
    ∧ Sessions x' = filter (fun e : ID * RoomSession => Host e.2 ≠ id) (Sessions x)
    ∧ ended
      ≡ₚ filter (fun e : ID * RoomSession => Host e.2 = id)
           (map_to_list (Sessions x))
    ∧ sent s' = sent s ++ dends ++ ds
    ∧ Forall2 (ends_share x')
        (filter (fun e => is_Some (Users x' !! Client e.2)) ended) dends
    ∧ members ≡ₚ map_to_list (Users x')
    ∧ Forall2 (room_info_for x') members ds
    ∧ turnServer s'
      = (if bool_decide (Mode x = ConnectionTURN)
         then foldl revoke_session (turnServer s) ended.*1
         else turnServer s)
    ∧ sessionClosedTotal (metrics s')
      = sessionClosedTotal (metrics s) + N.of_nat (length ended).
Proof.
  intros id Hcur Hx Hu.
  destruct (StopShare_spec current s room x u Hcur Hx Hu)
    as (s' & ended & dends & members & ds & Hrun & HR & HC & _ & _
        & (sessions & Hsessions & Hended) & Hsent & Hends & Hmembers & Hinfos
        & HT & HM & _).
  eexists s', _, ended, dends, members, ds.
  split; [exact Hrun|]. split; [exact HR|]. split_and!; try done.
  - simpl. by apply alter_present.
  - simpl. rewrite Hended. by apply hosted_deleted.
  - rewrite Hended. by rewrite Hsessions.
Qed.

End stop_share.

Lemma StopShare_closes_hosted_sessions_witness :
  ∃ s' : Rooms,
    @StopShare_Execute prompt_runtime client_A example_hub_sharing
    = Some (None, s')
    ∧ connected s' = connected example_hub_sharing.
Proof.
  destruct (@StopShare_closes_hosted_sessions prompt_runtime client_A
              example_hub_sharing "r1" example_room_sharing user_A)
    as (s' & x' & ended & dends & members & ds & Hrun & _ & HC & _);
    [vm_compute; reflexivity..|].
  exists s'. by split.
Defined.

(** ** The start of a share *)

Section start_share.
Context `{Runtime}.

Lemma record_hosted_other (host : ID) (opened : list ((ID * User) * N))
    (m : gmap N RoomSession) (sid : ID) :
  sid ∉ (fun on : (ID * User) * N => xid_New on.2) <$> opened →
  record_hosted host opened m !! sid = m !! sid.
Proof.
  revert m. induction opened as [|on opened IH]; intros m Hsid; [done|].
  unfold record_hosted in *. simpl. rewrite IH.
  - apply lookup_insert_ne. intros Heq. apply Hsid. rewrite fmap_cons, Heq. left.
  - intros Hin. apply Hsid. rewrite fmap_cons. by right.
Qed.

Lemma record_hosted_new (host : ID) (opened : list ((ID * User) * N))
    (m : gmap N RoomSession) (on : (ID * User) * N) :
  NoDup ((fun on : (ID * User) * N => xid_New on.2) <$> opened) →
  on ∈ opened →
  record_hosted host opened m !! xid_New on.2
  = Some {| Host := host; Client := User_ID on.1.2 |}.
Proof.
  revert m. induction opened as [|a opened IH]; intros m Hnd Hin.
  - by apply elem_of_nil in Hin.
  - rewrite fmap_cons in Hnd. apply NoDup_cons in Hnd as [Ha Hnd].
    apply elem_of_cons in Hin as [->|Hin].
    + change (record_hosted host (a :: opened) m)
        with (record_hosted host opened
                (<[xid_New a.2 := {| Host := host; Client := User_ID a.1.2 |}]> m)).
      rewrite record_hosted_other by exact Ha. apply lookup_insert_eq.
    + by apply IH.
Qed.

(** The loop of [StartShare] over the members of the room. *)
Lemma share_sessions_loop (room : string) (host : ID) (h : User)
    (v4 v6 : IP) (members : list (ID * User)) :
  ∀ (s : Rooms) (x0 : Room),
    Rooms_Rooms s !! room = Some x0 →
    Users x0 !! host = Some h →
    (∀ e, e ∈ members → Users x0 !! User_ID e.2 = Some e.2) →
    ∃ (s' : Rooms) (opened : list ((ID * User) * N))
      (dss : list (Delivery * Delivery)),
      forEach members (fun entry =>
        if bool_decide (host = User_ID entry.2) then ret tt
        else Room_newSession room host (User_ID entry.2) v4 v6) s
      = Some (tt, s')
      ∧ opened.*1 = filter (fun e : ID * User => host ≠ User_ID e.2) members
      ∧ Forall (fun n => tick s ≤ n < tick s') opened.*2
      ∧ StronglySorted N.lt opened.*2
      ∧ Rooms_Rooms s'
        = <[room := set_Sessions (record_hosted host opened) x0]>
            (Rooms_Rooms s)
      ∧ connected s' = connected s
      ∧ conf s' = conf s
      ∧ r s' = r s
      ∧ tick s ≤ tick s'
      ∧ sent s' = sent s ++ (dss ≫= fun p => [p.1; p.2])
      ∧ Forall2 (share_messages host (_write h)) opened dss
      ∧ sessionCreatedTotal (metrics s')
        = sessionCreatedTotal (metrics s) + N.of_nat (length opened)
      ∧ sessionClosedTotal (metrics s') = sessionClosedTotal (metrics s).
Proof.
  induction members as [|e members IH]; intros s x0 Hx Hh Hin.
  - exists s, [], []. simpl. split_and!; try done.
    + constructor.
    + rewrite set_Sessions_id. by rewrite insert_id.
    + by rewrite app_nil_r.
    + lia.
  - assert (Hin' : ∀ e', e' ∈ members → Users x0 !! User_ID e'.2 = Some e'.2).
    { intros e' He'. apply Hin. by right. }
    simpl. unfold bind at 1.
    destruct (decide (host = User_ID e.2)) as [Eskip|Eskip].
    + rewrite (bool_decide_eq_true_2 _ Eskip).
      destruct (IH s x0 Hx Hh Hin')
        as (s' & opened & dss & Hrun & Hop & Hrest).
      exists s', opened, dss. split; [exact Hrun|]. split; [|done].
      by rewrite filter_cons_False by (by intros []).
    + rewrite (bool_decide_eq_false_2 _ Eskip).
      assert (He : Users x0 !! User_ID e.2 = Some e.2) by (apply Hin; left).
      destruct (newSession_spec room x0 host (User_ID e.2) h e.2 v4 v6 s Hx Hh He)
        as (s1 & iceHost & iceClient & took1 & took2 & Hrun1 & HR1 & HC1 & HF1
            & Hr1 & HM1 & Hsent1 & Htick1 & _).
      rewrite Hrun1.
      set (x1 := set_Sessions
                   (insert (xid_New (tick s))
                      {| Host := host; Client := User_ID e.2 |}) x0) in *.
      assert (Hx1 : Rooms_Rooms s1 !! room = Some x1).
      { rewrite HR1. apply lookup_insert_eq. }
      destruct (IH s1 x1 Hx1 Hh Hin')
        as (s' & opened & dss & Hrun & Hop & Hticks & Hsorted & HR & HC & HF
            & Hr & Htick & Hsent & Hmsgs & HM & HMc).
      exists s', ((e, tick s) :: opened),
        (({| to := _write h;
             msg := outgoing.HostSession (User_ID e.2) (xid_New (tick s)) iceHost;
             accepted := took1 |},
          {| to := _write e.2;
             msg := outgoing.ClientSession host (xid_New (tick s)) iceClient;
             accepted := took2 |}) :: dss).
      split; [exact Hrun|]. split_and!.
      * rewrite filter_cons_True by done.
        rewrite fmap_cons, Hop. reflexivity.
      * simpl. constructor; [lia|].
        eapply Forall_impl; [exact Hticks|]. simpl. intros n Hn. lia.
      * simpl. constructor; [exact Hsorted|].
        eapply Forall_impl; [exact Hticks|]. simpl. intros n Hn. lia.
      * rewrite HR, HR1, insert_insert_eq. reflexivity.
      * congruence.
      * congruence.
      * congruence.
      * lia.
      * rewrite Hsent, Hsent1. simpl. by rewrite <- app_assoc.
      * constructor; [|exact Hmsgs]. unfold share_messages; simpl. eauto 10.
      * rewrite HM, HM1. simpl. lia.
      * rewrite HMc, HM1. reflexivity.
Qed.

(** [StartShare.Execute] up to the answer of the address provider. *)
Lemma StartShare_begin (current : ClientInfo) (s : Rooms) (room : string)
    (x : Room) (u : User) :
  let id := ClientInfo_ID current in
  let s1 := set_Rooms (insert room (set_Users (alter (set_Streaming true) id) x))
              s in
  Rooms_CurrentRoom s current = Ok room →
  Rooms_Rooms s !! room = Some x →
  Users x !! id = Some u →
  StartShare_Execute current s
  = match config.TurnIPProvider (conf s) (tick s) with
    | config.GetErr err => Some (Some err, set_tick (fun n => n + 1) s1)
    | config.GetOk v4 v6 =>
        (let* x := deref_room room in
         let* members := range (Users x) in
         forEach members (fun entry =>
           if bool_decide (id = User_ID entry.2) then ret tt
           else Room_newSession room id (User_ID entry.2) v4 v6) ;;
         Room_notifyInfoChanged room ;;
         ret None) (set_tick (fun n => n + 1) s1)
    end.
Proof.
  intros id s1 Hcur Hx Hu.
  assert (Hs1 : set_Rooms (alter (set_Users (alter (set_Streaming true) id)) room) s
                = s1).
  { unfold s1, set_Rooms. f_equal. by apply alter_present. }
  unfold StartShare_Execute, bind at 1, get. rewrite Hcur. fold id.
  unfold bind at 1. rewrite (deref_user_spec room x id u s Hx Hu).
  unfold bind at 1, update_room, modify. rewrite Hs1.
  unfold bind at 1. rewrite TurnIPProvider_Get_spec.
  change (conf s1) with (conf s). change (tick s1) with (tick s).
  by destruct (config.TurnIPProvider (conf s) (tick s)).
Qed.

(** [StartShare.Execute] for a member of a room whose users are held under
    their ids. *)
Lemma StartShare_spec (current : ClientInfo) (s : Rooms) (room : string)
    (x : Room) (u : User) (v4 v6 : IP) :
  let id := ClientInfo_ID current in
  let x1 := set_Users (alter (set_Streaming true) id) x in
  Rooms_CurrentRoom s current = Ok room →
  Rooms_Rooms s !! room = Some x →
  Users x !! id = Some u →
  (∀ k v, Users x !! k = Some v → User_ID v = k) →
  config.TurnIPProvider (conf s) (tick s) = config.GetOk v4 v6 →
  ∃ (s' : Rooms) (opened : list ((ID * User) * N))
    (dss : list (Delivery * Delivery))
    (members : list (ID * User)) (ds : list Delivery),
    let x' := set_Sessions (record_hosted id opened) x1 in
    StartShare_Execute current s = Some (None, s')
    ∧ Rooms_Rooms s' = <[room := x']> (Rooms_Rooms s)
    ∧ connected s' = connected s
    ∧ conf s' = conf s
    ∧ r s' = r s
    ∧ opened.*1
      ≡ₚ filter (fun e : ID * User => e.1 ≠ id) (map_to_list (Users x1))
    ∧ Forall (fun n => tick s < n) opened.*2
    ∧ StronglySorted N.lt opened.*2
    ∧ sent s' = sent s ++ (dss ≫= fun p => [p.1; p.2]) ++ ds
    ∧ Forall2 (share_messages id (_write u)) opened dss
    ∧ members ≡ₚ map_to_list (Users x')
    ∧ Forall2 (room_info_for x') members ds
    ∧ sessionCreatedTotal (metrics s')
      = sessionCreatedTotal (metrics s) + N.of_nat (length opened)
    ∧ sessionClosedTotal (metrics s') = sessionClosedTotal (metrics s)
    ∧ tick s < tick s'.
Proof.
  intros id x1 Hcur Hx Hu Hkeys Hget.
  rewrite (StartShare_begin current s room x u Hcur Hx Hu), Hget. fold id x1.
  set (s1 := set_Rooms (insert room x1) s).
  assert (HR1 : Rooms_Rooms s1 = <[room := x1]> (Rooms_Rooms s)) by done.
  assert (Hx1 : Rooms_Rooms s1 !! room = Some x1).
  { rewrite HR1. apply lookup_insert_eq. }
  set (s2 := set_tick (fun n => n + 1) s1).
  assert (Hx2 : Rooms_Rooms s2 !! room = Some x1) by exact Hx1.
  unfold bind at 1. rewrite (deref_room_spec room x1 s2 Hx2).
  unfold bind at 1. rewrite range_spec.
  set (members := range_order _ _ _).
  assert (Hm : members ≡ₚ map_to_list (Users x1)) by apply range_order_perm.
  set (s3 := set_tick (fun n => n + 1) s2).
  assert (Hx3 : Rooms_Rooms s3 !! room = Some x1) by exact Hx1.
  assert (Hkeys1 : ∀ k v, Users x1 !! k = Some v → User_ID v = k).
  { intros k v. simpl. rewrite lookup_alter_Some.
    intros [(-> & v' & Hv' & ->)|[_ Hv]]; [|by apply Hkeys].
    simpl. by apply Hkeys. }
  assert (Hh : Users x1 !! id = Some (set_Streaming true u)).
  { simpl. by rewrite lookup_alter_eq, Hu. }
  destruct (share_sessions_loop room id (set_Streaming true u) v4 v6 members
              s3 x1 Hx3 Hh)
    as (s4 & opened & dss & Hloop & Hop & Hticks & Hsorted & HR4 & HC4 & HF4
        & Hr4 & Htick4 & Hsent4 & Hmsgs & HM4 & HMc4).
  { intros [k v] He. rewrite Hm in He. apply elem_of_map_to_list in He.
    simpl. by rewrite (Hkeys1 k v He). }
  unfold bind at 1. rewrite Hloop.
  set (x4 := set_Sessions (record_hosted id opened) x1) in *.
  assert (Hx4 : Rooms_Rooms s4 !! room = Some x4).
  { rewrite HR4. apply lookup_insert_eq. }
  destruct (notifyInfoChanged_spec room x4 s4 Hx4)
    as (s5 & members' & ds & Hnotify & Hmembers & Hinfos
        & (HT5 & HR5 & HC5 & HF5 & Hr5 & HM5) & Hsent5 & Htick5).
  unfold bind at 1. rewrite Hnotify.
  exists s5, opened, dss, members', ds. cbv zeta. fold x4.
  split; [reflexivity|]. split_and!.
  - rewrite HR5, HR4. change (Rooms_Rooms s3) with (Rooms_Rooms s1).
    by rewrite HR1, insert_insert_eq.
  - by rewrite HC5, HC4.
  - by rewrite HF5, HF4.
  - by rewrite Hr5, Hr4.
  - rewrite Hop.
    rewrite (filter_ext_in (fun e : ID * User => id ≠ User_ID e.2)
               (fun e : ID * User => e.1 ≠ id) members).
    + by rewrite Hm.
    + intros [k v] He. rewrite Hm in He. apply elem_of_map_to_list in He.
      simpl. rewrite (Hkeys1 k v He). split; intros Hne Heq; by apply Hne.
  - eapply Forall_impl; [exact Hticks|]. simpl. intros n [Hn _].
    change (tick s3) with (tick s + 1 + 1) in Hn. lia.
  - exact Hsorted.
  - rewrite Hsent5, Hsent4. change (sent s3) with (sent s).
    by rewrite <- app_assoc.
  - exact Hmsgs.
  - exact Hmembers.
  - exact Hinfos.
  - rewrite HM5, HM4. done.
  - rewrite HM5, HMc4. done.
  - change (tick s3) with (tick s + 1 + 1) in Htick4. lia.
Qed.

Lemma filter_all {A} (P : A → Prop) `{∀ x, Decision (P x)} (l : list A) :
  Forall P l → filter P l = l.
Proof.
  induction 1 as [|x l Hx _ IH]; [done|].
  by rewrite filter_cons_True, IH.
Qed.

Lemma others_count {V} (m : gmap N V) (id : N) (v : V) :
  m !! id = Some v →
  length (filter (fun e : N * V => e.1 ≠ id) (map_to_list m))
  = (size m - 1)%nat.
Proof.
  intros Hid. rewrite <- (map_to_list_delete m id v Hid).
  rewrite filter_cons_False by (by intros []).
  rewrite filter_all.
  - rewrite length_map_to_list, map_size_delete_Some by done. lia.
  - apply Forall_forall. intros [k w] Hk%elem_of_map_to_list. simpl.
    intros ->. by rewrite lookup_delete_eq in Hk.
Qed.


(** X18.  When the address provider fails, [StartShare] returns its error
    after it has marked the sender as streaming: no session is opened, no
    room info is broadcast, and nothing else of the hub changes. *)
Theorem StartShare_without_addresses (current : ClientInfo) (s : Rooms)
    (room : string) (x : Room) (u : User) (err : string) :
  let id := ClientInfo_ID current in
  Rooms_CurrentRoom s current = Ok room →
  Rooms_Rooms s !! room = Some x →
  Users x !! id = Some u →
  config.TurnIPProvider (conf s) (tick s) = config.GetErr err →
  ∃ s' : Rooms,
    StartShare_Execute current s = Some (Some err, s')
    ∧ Rooms_Rooms s'
      = <[room := set_Users (insert id (set_Streaming true u)) x]>
          (Rooms_Rooms s)
    ∧ sent s' = sent s
    ∧ now s' = now s
    ∧ connected s' = connected s
    ∧ turnServer s' = turnServer s
    ∧ metrics s' = metrics s.
Proof.
  intros id Hcur Hx Hu Hget.
  rewrite (StartShare_begin current s room x u Hcur Hx Hu), Hget.
  eexists. split; [reflexivity|]. simpl. split_and!; try done.
  fold id. f_equal. destruct x. unfold set_Users. simpl in *. f_equal.
  by apply alter_present.
Qed.

End start_share.


Lemma StartShare_without_addresses_witness :
  ∃ s' : Rooms,
    @StartShare_Execute prompt_runtime client_A example_hub_no_addresses
    = Some (Some "no public address", s')
    ∧ sent s' = [].
Proof.
  destruct (@StartShare_without_addresses prompt_runtime client_A
              example_hub_no_addresses "r1" example_room user_A
              "no public address")
    as (s' & Hrun & _ & Hsent & _); [vm_compute; reflexivity..|].
  exists s'. by split.
Defined.

(** ** The handlers keep the rooms well formed *)

Section rooms_invariant.
Context `{Runtime}.

Lemma rooms_wf_same (s s' : Rooms) :
  Rooms_Rooms s' = Rooms_Rooms s → connected s' = connected s →
  rooms_wf s → rooms_wf s'.
Proof.
  intros HR HC (Hwf & Hmem & Hses). split_and!.
  - by apply (hub_wf_same s s').
  - unfold members_wf. rewrite HR, HC. exact Hmem.
  - unfold sessions_wf. rewrite HR. exact Hses.
Qed.

(** A handler that replaces the room [x] by a room with the same id and
    the same members. *)
Lemma rooms_wf_update (room : string) (x x' : Room) (s s' : Rooms) :
  rooms_wf s →
  Rooms_Rooms s !! room = Some x →
  Rooms_Rooms s' = <[room := x']> (Rooms_Rooms s) →
  connected s' = connected s →
  Room_ID x' = Room_ID x →
  (∀ k, is_Some (Users x' !! k) ↔ is_Some (Users x !! k)) →
  (∀ k v, Users x' !! k = Some v → User_ID v = k) →
  parties_present x' →
  rooms_wf s'.
Proof.
  intros ((Hrooms & Husers) & Hmem & Hses) Hx HR HC Hid Hdom Hkeys Hparties.
  split_and!.
  - split.
    + intros room' y Hy. rewrite HR in Hy.
      destruct (decide (room' = room)) as [->|Hne].
      * rewrite lookup_insert_eq in Hy. injection Hy as <-.
        rewrite Hid. by apply Hrooms.
      * rewrite lookup_insert_ne in Hy by done. by apply Hrooms.
    + intros room' y k v Hy Hv. rewrite HR in Hy. rewrite HC.
      destruct (decide (room' = room)) as [->|Hne].
      * rewrite lookup_insert_eq in Hy. injection Hy as <-.
        split; [by apply Hkeys|].
        assert (Hk : is_Some (Users x !! k)) by (apply Hdom; eauto).
        destruct Hk as [w Hw]. by destruct (Husers room x k w Hx Hw).
      * rewrite lookup_insert_ne in Hy by done. by apply (Husers room' y).
  - intros id room' Hc Hne. rewrite HC in Hc.
    destruct (Hmem id room' Hc Hne) as (y & Hy & Hin). rewrite HR.
    destruct (decide (room' = room)) as [->|Hr].
    + rewrite lookup_insert_eq. exists x'. split; [done|].
      rewrite Hx in Hy. injection Hy as <-. by apply Hdom.
    + rewrite lookup_insert_ne by done. by exists y.
  - intros room' y Hy. rewrite HR in Hy.
    destruct (decide (room' = room)) as [->|Hne].
    + rewrite lookup_insert_eq in Hy. by injection Hy as <-.
    + rewrite lookup_insert_ne in Hy by done. by apply (Hses room').
Qed.

Lemma Join_rooms_wf (e : Join) (current : ClientInfo) (s : Rooms) :
  rooms_wf s →
  ∃ (err : option string) (s' : Rooms),
    Join_Execute e current s = Some (err, s') ∧ rooms_wf s'.
Proof.
  intros (Hwf & Hmem & Hses). set (id := ClientInfo_ID current).
  destruct (Join_wf e current s Hwf) as (err & s' & Hrun & Hwf').
  exists err, s'. split; [exact Hrun|].
  destruct (decide (default "" (connected s !! id) = "")) as [Hfree|Hin].
  2:{ rewrite Join_Execute_already in Hrun by done. injection Hrun as _ <-.
      by split_and!. }
  destruct (Rooms_Rooms s !! Join_ID e) as [x|] eqn:Hroom.
  2:{ rewrite Join_Execute_no_room in Hrun by done. injection Hrun as _ <-.
      by split_and!. }
  rewrite (Join_Execute_enter e current s x Hfree Hroom) in Hrun.
  set (sa := if bool_decide _ then _ else s) in Hrun.
  assert (Hsa : Rooms_Rooms sa = Rooms_Rooms s ∧ connected sa = connected s).
  { unfold sa. by destruct (bool_decide _). }
  destruct Hsa as [HRa HCa].
  assert (Hxa : Rooms_Rooms sa !! Join_ID e = Some x) by (by rewrite HRa).
  destruct Hwf as [Hrooms Husers].
  assert (Hkeys : ∀ k u, Users x !! k = Some u → User_ID u = k).
  { intros k u Hu. by destruct (Husers (Join_ID e) x k u Hroom Hu). }
  destruct (join_enter_spec (Join_ID e) x (joined_user e current s) sa Hxa Hkeys)
    as (s'' & err' & n & members & ds & opened & dss & Hrun' & HC & _ & _ & _
        & _ & _ & _ & _ & _ & Hsorted & HR & _ & Hopened).
  rewrite Hrun' in Hrun. injection Hrun as -> ->.
  change (User_ID (joined_user e current s)) with id in HC, HR, Hopened.
  rewrite HRa in HR. rewrite HCa in HC.
  destruct (Hrooms (Join_ID e) x Hroom) as [Hne Hid].
  set (x1 := set_Users (insert id (joined_user e current s)) x) in *.
  assert (Hnd : NoDup ((fun on : (ID * User) * N => xid_New on.2) <$> opened))
    by by apply sorted_ticks_NoDup.
  assert (Hhosts : ∀ on, on ∈ opened → Users x !! User_ID on.1.2 = Some on.1.2).
  { intros on Hon.
    assert (Hin : on.1 ∈ opened.*1) by (apply list_elem_of_fmap; eauto).
    destruct (config.TurnIPProvider (conf sa) n).
    - destruct Hopened as [_ Hperm]. rewrite Hperm in Hin.
      apply list_elem_of_filter in Hin as [_ Hin].
      destruct on as [[k v] t]. apply elem_of_map_to_list in Hin. simpl in *.
      by rewrite (Hkeys k v Hin).
    - destruct Hopened as [_ ->]. by apply elem_of_nil in Hin. }
  split_and!; [exact Hwf'| |].
  - intros k room Hc Hr. rewrite HC in Hc. rewrite HR.
    destruct (decide (k = id)) as [->|Hk].
    + rewrite lookup_insert_eq in Hc. injection Hc as <-. rewrite Hid.
      rewrite lookup_insert_eq. eexists. split; [done|]. simpl.
      by rewrite lookup_insert_eq.
    + rewrite lookup_insert_ne in Hc by done.
      destruct (Hmem k room Hc Hr) as (y & Hy & Hin).
      destruct (decide (room = Join_ID e)) as [->|Hne'].
      * rewrite lookup_insert_eq. eexists. split; [done|]. simpl.
        rewrite lookup_insert_ne by done. by rewrite Hroom in Hy; injection Hy as <-.
      * rewrite lookup_insert_ne by done. by exists y.
  - intros room y Hy. rewrite HR in Hy.
    destruct (decide (room = Join_ID e)) as [->|Hne'].
    + rewrite lookup_insert_eq in Hy. injection Hy as <-.
      intros sid session. simpl.
      destruct (decide (sid ∈ (fun on : (ID * User) * N => xid_New on.2)
                              <$> opened)) as [Hin|Hout].
      * apply list_elem_of_fmap in Hin as (on & -> & Hon).
        rewrite record_sessions_new by done. intros [= <-]. simpl. split.
        -- apply lookup_insert_is_Some'. right. rewrite (Hhosts on Hon). eauto.
        -- rewrite lookup_insert_eq. eauto.
      * rewrite record_sessions_other by done. intros Hsess.
        destruct (Hses (Join_ID e) x Hroom sid session Hsess) as [Hh Hc].
        split; apply lookup_insert_is_Some'; by right.
    + rewrite lookup_insert_ne in Hy by done. by apply (Hses room).
Qed.

Lemma member_of_current (s : Rooms) (current : ClientInfo) (room : string) :
  rooms_wf s → Rooms_CurrentRoom s current = Ok room →
  ∃ (x : Room) (u : User),
    Rooms_Rooms s !! room = Some x
    ∧ Users x !! ClientInfo_ID current = Some u
    ∧ (∀ k v, Users x !! k = Some v → User_ID v = k)
    ∧ parties_present x.
Proof.
  intros ((Hrooms & Husers) & Hmem & Hses) Hcur.
  apply CurrentRoom_Ok in Hcur as (Hc & Hne & _).
  destruct (Hmem _ room Hc Hne) as (x & Hx & [u Hu]).
  exists x, u. split_and!; try done.
  - intros k v Hv. by destruct (Husers room x k v Hx Hv).
  - by apply (Hses room).
Qed.

Lemma StartShare_rooms_wf (current : ClientInfo) (s : Rooms) :
  rooms_wf s →
  ∃ (err : option string) (s' : Rooms),
    StartShare_Execute current s = Some (err, s') ∧ rooms_wf s'.
Proof.
  intros Hwf. set (id := ClientInfo_ID current).
  destruct (Rooms_CurrentRoom s current) as [room|e] eqn:Hcur.
  2:{ exists (Some e), s. split; [|done].
      unfold StartShare_Execute, bind, get. by rewrite Hcur. }
  destruct (member_of_current s current room Hwf Hcur)
    as (x & u & Hx & Hu & Hkeys & Hparties).
  fold id in Hu.
  set (x1 := set_Users (alter (set_Streaming true) id) x).
  assert (Hdom : ∀ k, is_Some (Users x1 !! k) ↔ is_Some (Users x !! k)).
  { intros k. simpl. apply lookup_alter_is_Some. }
  assert (Hkeys1 : ∀ k v, Users x1 !! k = Some v → User_ID v = k).
  { intros k v. simpl. rewrite lookup_alter_Some.
    intros [(-> & v' & Hv' & ->)|[_ Hv]]; [|by apply Hkeys].
    simpl. by apply Hkeys. }
  destruct (config.TurnIPProvider (conf s) (tick s)) as [v4 v6|err] eqn:Hget.
  - destruct (StartShare_spec current s room x u v4 v6 Hcur Hx Hu Hkeys Hget)
      as (s' & opened & dss & members & ds & Hrun & HR & HC & _ & _ & Hop
          & _ & Hsorted & _).
    fold id x1 in HR, Hop.
    exists None, s'. split; [exact Hrun|].
    apply (rooms_wf_update room x _ s s' Hwf Hx HR HC); try done.
    intros sid session. simpl.
    destruct (decide (sid ∈ (fun on : (ID * User) * N => xid_New on.2)
                            <$> opened)) as [Hin|Hout].
    + apply list_elem_of_fmap in Hin as (on & -> & Hon).
      rewrite record_hosted_new by (by apply sorted_ticks_NoDup || done).
      intros [= <-]. simpl. split.
      * apply lookup_alter_is_Some. by rewrite Hu.
      * assert (Hin : on.1 ∈ opened.*1) by (apply list_elem_of_fmap; eauto).
        rewrite Hop in Hin. apply list_elem_of_filter in Hin as [_ Hin].
        destruct on as [[k v] t]. apply elem_of_map_to_list in Hin.
        simpl in *. rewrite (Hkeys1 k v Hin). by rewrite Hin.
    + rewrite record_hosted_other by done. intros Hsess.
      destruct (Hparties sid session Hsess) as [Hh Hc].
      split; by apply lookup_alter_is_Some.
  - exists (Some err), (set_tick (fun n => n + 1) (set_Rooms (insert room x1) s)).
    split.
    + by rewrite (StartShare_begin current s room x u Hcur Hx Hu), Hget.
    + apply (rooms_wf_update room x x1 s _ Hwf Hx); try done.
      intros sid session Hsess.
      destruct (Hparties sid session Hsess) as [Hh Hc].
      split; by apply lookup_alter_is_Some.
Qed.

Lemma StopShare_rooms_wf (current : ClientInfo) (s : Rooms) :
  rooms_wf s →
  ∃ (err : option string) (s' : Rooms),
    StopShare_Execute current s = Some (err, s') ∧ rooms_wf s'.
Proof.
  intros Hwf. set (id := ClientInfo_ID current).
  destruct (Rooms_CurrentRoom s current) as [room|e] eqn:Hcur.
  2:{ exists (Some e), s. split; [|done].
      unfold StopShare_Execute, bind, get. by rewrite Hcur. }
  destruct (member_of_current s current room Hwf Hcur)
    as (x & u & Hx & Hu & Hkeys & Hparties).
  destruct (StopShare_spec current s room x u Hcur Hx Hu)
    as (s' & ended & dends & members & ds & Hrun & HR & HC & _).
  exists None, s'. split; [exact Hrun|].
  apply (rooms_wf_update room x _ s s' Hwf Hx HR HC); try done.
  - intros k. simpl. apply lookup_alter_is_Some.
  - intros k v. simpl. rewrite lookup_alter_Some.
    intros [(<- & v' & Hv' & ->)|[_ Hv]]; [|by apply Hkeys].
    simpl. by apply Hkeys.
  - intros sid session. simpl. rewrite foldl_delete_lookup.
    case_bool_decide; [done|]. intros Hsess.
    destruct (Hparties sid session Hsess) as [Hh Hc].
    split; by apply lookup_alter_is_Some.
Qed.

Lemma relay_rooms_wf
    (handler : outgoing.P2PMessage → ClientInfo → Hub (option string))
    (sender peer : RoomSession → ID)
    (tag : outgoing.P2PMessage → outgoing.Message)
    (e : outgoing.P2PMessage) (current : ClientInfo) (s : Rooms) :
  relays handler sender peer tag →
  (∀ session, peer session = Host session ∨ peer session = Client session) →
  rooms_wf s →
  ∃ (err : option string) (s' : Rooms),
    handler e current s = Some (err, s') ∧ rooms_wf s'.
Proof.
  intros Hrelays Hpeer Hwf. specialize (Hrelays e current s).
  destruct (Rooms_CurrentRoom s current) as [room|err] eqn:Hcur; [|by eauto].
  destruct Hrelays as (x & Hx & _ & Hcases).
  destruct (Sessions x !! outgoing.SID e) as [session|] eqn:Hsess; [|by eauto].
  destruct (decide (sender session = ClientInfo_ID current)); [|by eauto].
  destruct Hwf as (Hhub & Hmem & Hses).
  destruct (Hses room x Hx _ session Hsess) as [Hh Hc].
  assert (Hu : is_Some (Users x !! peer session)).
  { by destruct (Hpeer session) as [->| ->]. }
  destruct Hu as [u Hu]. rewrite Hu in Hcases.
  destruct Hcases as (s' & took & Hrun & (_ & HR & HC & _) & _).
  exists None, s'. split; [exact Hrun|].
  by apply (rooms_wf_same s s').
Qed.


(** X20.  The relay handlers do not check that the peer of a session is
    still a user of the room: when the sender holds the sending role of a
    session whose other party is not among the users, the handler
    dereferences a nil pointer. *)
Theorem relay_panics_without_peer (e : outgoing.P2PMessage)
    (current : ClientInfo) (s : Rooms) (room : string) (x : Room)
    (session : RoomSession) :
  Rooms_CurrentRoom s current = Ok room →
  Rooms_Rooms s !! room = Some x →
  Sessions x !! outgoing.SID e = Some session →
  (Host session = ClientInfo_ID current →
   Users x !! Client session = None →
     HostOffer_Execute e current s = None
     ∧ HostICE_Execute e current s = None)
  ∧ (Client session = ClientInfo_ID current →
     Users x !! Host session = None →
       ClientAnswer_Execute e current s = None).
Proof.
  intros Hcur Hx Hsess.
  split.
  - intros Hhost Hnone. split.
    + cbv [HostOffer_Execute bind get deref_user deref_room panic ret].
      rewrite Hcur, Hx, Hsess.
      rewrite bool_decide_eq_false_2 by (by intros []).
      cbv beta iota. rewrite Hx. cbv beta iota. by rewrite Hnone.
    + cbv [HostICE_Execute bind get deref_user deref_room panic ret].
      rewrite Hcur, Hx, Hsess.
      rewrite bool_decide_eq_false_2 by (by intros []).
      cbv beta iota. rewrite Hx. cbv beta iota. by rewrite Hnone.
  - intros Hclient Hnone.
    cbv [ClientAnswer_Execute bind get deref_user deref_room panic ret].
    rewrite Hcur, Hx, Hsess.
    rewrite bool_decide_eq_false_2 by (by intros []).
    cbv beta iota. rewrite Hx. cbv beta iota. by rewrite Hnone.
Qed.

End rooms_invariant.

Lemma example_hub_rooms_wf : rooms_wf example_hub.
Proof.
  split_and!; [exact example_hub_wf| |].
  - intros id room Hc Hne. exists example_room. split.
    + unfold example_hub in *. simpl in *.
      assert (Hcases : id = 1 ∨ id = 2 ∨ id = 3 ∨ id = 4
                       ∨ (id ≠ 1 ∧ id ≠ 2 ∧ id ≠ 3 ∧ id ≠ 4)) by lia.
      destruct Hcases as [->|[->|[->|[->|(? & ? & ? & ?)]]]];
        rewrite ?lookup_insert_eq, ?lookup_insert_ne, ?lookup_empty in Hc
          by done; try done; by injection Hc as <-.
    + unfold example_hub in Hc. simpl in Hc.
      assert (Hcases : id = 1 ∨ id = 2 ∨ id = 3 ∨ id = 4
                       ∨ (id ≠ 1 ∧ id ≠ 2 ∧ id ≠ 3 ∧ id ≠ 4)) by lia.
      destruct Hcases as [->|[->|[->|[->|(? & ? & ? & ?)]]]];
        rewrite ?lookup_insert_eq, ?lookup_insert_ne, ?lookup_empty in Hc
          by done; try done; try (by injection Hc as <-); by vm_compute; eauto.
  - intros room x Hx sid session Hsess. exfalso.
    unfold example_hub in Hx. simpl in Hx.
    destruct (decide (room = "r1")) as [->|Hne].
    + rewrite lookup_insert_eq in Hx. injection Hx as <-. done.
    + by rewrite lookup_insert_ne in Hx.
Qed.


Lemma relay_panics_without_peer_witness :
  @HostOffer_Execute prompt_runtime
    {| outgoing.SID := 7; outgoing.Value := "sdp" |} client_A
    example_hub_dangling = None.
Proof.
  destruct (@relay_panics_without_peer prompt_runtime
              {| outgoing.SID := 7; outgoing.Value := "sdp" |} client_A
              example_hub_dangling "r1"
              (set_Sessions (insert 7 {| Host := 1; Client := 9 |}) example_room)
              {| Host := 1; Client := 9 |}) as [Hhost _];
    [vm_compute; reflexivity..|].
  apply Hhost; vm_compute; reflexivity.
Defined.

(** ** A share that is stopped *)

Section share_round_trip.
Context `{Runtime}.

Lemma CurrentRoom_stable (s s' : Rooms) (info : ClientInfo) (room : string)
    (x' : Room) :
  Rooms_CurrentRoom s info = Ok room →
  connected s' = connected s →
  Rooms_Rooms s' !! room = Some x' →
  Rooms_CurrentRoom s' info = Ok room.
Proof.
  intros Hcur HC Hx'. apply CurrentRoom_Ok in Hcur as (Hc & Hne & _).
  unfold Rooms_CurrentRoom. rewrite HC, Hc.
  rewrite bool_decide_eq_false_2 by done. by rewrite Hx'.
Qed.

(** X21.  A member that hosts no session and is not marked as streaming
    sends share and then stopshare: when the address provider answers and
    the ids drawn for the new sessions are not in use in the room, both
    handlers succeed, and the rooms and the membership records are again
    what they were before the share. *)
Theorem share_then_stop_restores (current : ClientInfo) (s : Rooms)
    (room : string) (x : Room) (u : User) (v4 v6 : IP) :
  Rooms_CurrentRoom s current = Ok room →
  Rooms_Rooms s !! room = Some x →
  Users x !! ClientInfo_ID current = Some u →
  (∀ k v, Users x !! k = Some v → User_ID v = k) →
  Streaming u = false →
  (∀ sid session,
     Sessions x !! sid = Some session → Host session ≠ ClientInfo_ID current) →
  (∀ n, tick s < n → Sessions x !! xid_New n = None) →
  config.TurnIPProvider (conf s) (tick s) = config.GetOk v4 v6 →
  ∃ s1 s2 : Rooms,
    StartShare_Execute current s = Some (None, s1)
    ∧ StopShare_Execute current s1 = Some (None, s2)
    ∧ Rooms_Rooms s2 = Rooms_Rooms s
    ∧ connected s2 = connected s.
Proof.
  intros Hcur Hx Hu Hkeys Hidle Hnohost Hfresh Hget.
  set (id := ClientInfo_ID current) in *.
  destruct (StartShare_spec current s room x u v4 v6 Hcur Hx Hu Hkeys Hget)
    as (s1 & opened & dss & members & ds & Hrun1 & HR1 & HC1 & _ & _ & Hop
        & Hlater & Hsorted & _).
  fold id in HR1, Hop.
  set (x1 := set_Sessions (record_hosted id opened)
               (set_Users (alter (set_Streaming true) id) x)) in *.
  assert (Hx1 : Rooms_Rooms s1 !! room = Some x1).
  { rewrite HR1. apply lookup_insert_eq. }
  pose proof (CurrentRoom_stable s s1 current room x1 Hcur HC1 Hx1) as Hcur1.
  assert (Hu1 : Users x1 !! id = Some (set_Streaming true u)).
  { simpl. by rewrite lookup_alter_eq, Hu. }
  destruct (StopShare_spec current s1 room x1 _ Hcur1 Hx1 Hu1)
    as (s2 & ended & dends & members2 & ds2 & Hrun2 & HR2 & HC2 & _ & _
        & (sessions & Hperm & Hended) & _).
  fold id in HR2, Hended.
  exists s1, s2. split_and!; [done|done| |by rewrite HC2, HC1].
  rewrite HR2, HR1, insert_insert_eq. apply insert_id. rewrite Hx. f_equal.
  destruct x as [rid cool mode users sess]. unfold x1, set_Sessions, set_Users.
  simpl in *. f_equal.
  - apply map_eq. intros k.
    destruct (decide (k = id)) as [->|Hne].
    + rewrite !lookup_alter_eq, Hu. simpl. f_equal.
      destruct u. simpl in *. by subst.
    + by rewrite !lookup_alter_ne.
  - apply map_eq. intros k. symmetry. rewrite foldl_delete_lookup.
    assert (Hnd : NoDup ((fun on : (ID * User) * N => xid_New on.2) <$> opened)).
    { by apply sorted_ticks_NoDup. }
    destruct (decide (k ∈ (fun on : (ID * User) * N => xid_New on.2)
                          <$> opened)) as [Hin|Hout].
    + apply list_elem_of_fmap in Hin as (on & -> & Hon).
      assert (Hn : tick s < on.2).
      { rewrite Forall_forall in Hlater. apply Hlater.
        apply list_elem_of_fmap. eauto. }
      rewrite (Hfresh _ Hn).
      rewrite bool_decide_eq_true_2; [done|].
      rewrite Hended. apply list_elem_of_fmap.
      exists (xid_New on.2, {| Host := id; Client := User_ID on.1.2 |}).
      split; [done|]. apply list_elem_of_filter. split; [done|].
      rewrite Hperm. apply elem_of_map_to_list.
      by apply record_hosted_new.
    + rewrite bool_decide_eq_false_2; [by apply record_hosted_other|].
      rewrite Hended. intros Hin.
      apply list_elem_of_fmap in Hin as ([k' session] & -> & Hin).
      apply list_elem_of_filter in Hin as [Hhost Hin].
      rewrite Hperm in Hin. apply elem_of_map_to_list in Hin.
      simpl in *. rewrite record_hosted_other in Hin by done.
      by apply (Hnohost k' session).
Qed.

End share_round_trip.

Lemma share_then_stop_restores_witness :
  ∃ s1 s2 : Rooms,
    @StartShare_Execute prompt_runtime client_C example_hub = Some (None, s1)
    ∧ @StopShare_Execute prompt_runtime client_C s1 = Some (None, s2)
    ∧ Rooms_Rooms s2 = Rooms_Rooms example_hub
    ∧ connected s2 = connected example_hub.
Proof.
  apply (@share_then_stop_restores prompt_runtime client_C example_hub
           "r1" example_room user_C (Some [203; 0; 113; 7]) None).
  - vm_compute. reflexivity.
  - vm_compute. reflexivity.
  - vm_compute. reflexivity.
  - intros k v Hk.
    by destruct (proj2 example_hub_wf "r1" example_room k v eq_refl Hk).
  - reflexivity.
  - intros sid session Hs. done.
  - intros n _. done.
  - reflexivity.
Defined.

(** ** The time a broadcast takes *)

Section broadcast_duration.
Context `{Runtime}.

Lemma dropped_cons (d : Delivery) (ds : list Delivery) :
  dropped (d :: ds)
  = ((if bool_decide (accepted d = false) then 1 else 0) + dropped ds)%nat.
Proof.
  unfold dropped. rewrite filter_cons. by case_decide; case_bool_decide.
Qed.

Lemma room_info_loop_time (x : Room) (members : list (ID * User)) :
  ∀ s : Rooms,
    ∃ (s' : Rooms) (ds : list Delivery),
      forEach members (fun current =>
        let* entries := range (Users x) in
        let users := info_of current.1 <$> entries in
        let users := sort_Slice less users in
        User_WriteTimeout current.2 (outgoing.Room (Room_ID x) users)) s
      = Some (tt, s')
      ∧ sent s' = sent s ++ ds
      ∧ length ds = length members
      ∧ (now s + Z.of_N (2 * Second) * Z.of_nat (dropped ds) ≤ now s'
         ≤ now s + Z.of_N (2 * Second) * Z.of_nat (length members))%Z.
Proof.
  set (C := Z.of_N (2 * Second)).
  assert (HC : (0 ≤ C)%Z) by (unfold C; lia).
  induction members as [|[k u] members IH]; intros s.
  - exists s, []. split; [done|]. rewrite app_nil_r. split; [done|].
    split; [done|]. unfold dropped. simpl. lia.
  - simpl. unfold bind at 1. unfold bind at 1. rewrite range_spec. simpl.
    unfold User_WriteTimeout. simpl.
    set (l := sort_Slice less _).
    destruct (writeTimeout_sends (_write u) (outgoing.Room (Room_ID x) l)
                (set_tick (fun n => n + 1) s))
      as (s1 & took & Hw & (_ & Hsent1 & _) & Hnow1 & Hdrop1).
    rewrite Hw. fold C in Hnow1, Hdrop1.
    change (now (set_tick _ s)) with (now s) in Hnow1, Hdrop1.
    change (sent (set_tick _ s)) with (sent s) in Hsent1.
    destruct (IH s1) as (s' & ds & Hrun & Hsent & Hlen & Hnow).
    exists s', ({| to := _write u; msg := outgoing.Room (Room_ID x) l;
                   accepted := took |} :: ds).
    split; [exact Hrun|]. split_and!.
    + rewrite Hsent, Hsent1. by rewrite <- app_assoc.
    + simpl. by rewrite Hlen.
    + rewrite dropped_cons. cbn [accepted]. case_bool_decide as Htook.
      * rewrite Hdrop1 in Hnow by done. lia.
      * lia.
    + cbn [length]. lia.
Qed.

(** X22.  A broadcast of the room info calls [writeTimeout] once for each
    user of the room and keeps the hub for at most two seconds per user,
    and for at least two seconds per copy that was not taken. *)
Theorem broadcast_time (room : string) (x : Room) (s : Rooms) :
  Rooms_Rooms s !! room = Some x →
  ∃ (s' : Rooms) (ds : list Delivery),
    Room_notifyInfoChanged room s = Some (tt, s')
    ∧ sent s' = sent s ++ ds
    ∧ length ds = size (Users x)
    ∧ (now s + Z.of_N (2 * Second) * Z.of_nat (dropped ds) ≤ now s'
       ≤ now s + Z.of_N (2 * Second) * Z.of_nat (size (Users x)))%Z.
Proof.
  intros Hx. unfold Room_notifyInfoChanged, bind at 1, deref_room.
  rewrite Hx. unfold bind at 1. rewrite range_spec.
  set (members := range_order _ _ _).
  assert (Hm : length members = size (Users x)).
  { unfold members. rewrite range_order_perm. by rewrite length_map_to_list. }
  destruct (room_info_loop_time x members (set_tick (fun n => n + 1) s))
    as (s' & ds & Hrun & Hsent & Hlen & Hnow).
  exists s', ds. rewrite <- Hm. split; [exact Hrun|].
  split; [exact Hsent|]. split; [exact Hlen|]. exact Hnow.
Qed.

End broadcast_duration.

Lemma broadcast_time_witness :
  ∃ (s' : Rooms) (ds : list Delivery),
    @Room_notifyInfoChanged stalled_runtime "r1" example_hub = Some (tt, s')
    ∧ sent s' = sent example_hub ++ ds
    ∧ length ds = size (Users example_room)
    ∧ (now example_hub + Z.of_N (2 * Second) * Z.of_nat (dropped ds) ≤ now s'
       ≤ now example_hub
         + Z.of_N (2 * Second) * Z.of_nat (size (Users example_room)))%Z.
Proof.
  exact (@broadcast_time stalled_runtime "r1" example_room example_hub eq_refl).
Defined.

(** ** The external credential, read back by the relay *)

Lemma digit_value_pretty (x : N) :
  x < 10 → digit_value (pretty_N_char x) = Some x.
Proof.
  intros Hx.
  assert (x = 0 ∨ x = 1 ∨ x = 2 ∨ x = 3 ∨ x = 4 ∨ x = 5 ∨ x = 6 ∨ x = 7
          ∨ x = 8 ∨ x = 9) as Hcases by lia.
  by repeat (destruct Hcases as [->|Hcases]; [done|]); subst.
Qed.

Lemma parse_digits_pretty_go (x : N) :
  ∀ s : string, parse_digits (pretty_N_go x s) 0 = parse_digits s x.
Proof.
  induction (N.lt_wf_0 x) as [x _ IH]. intros s.
  destruct (decide (x = 0)) as [->|Hx]; [by rewrite pretty_N_go_0|].
  rewrite pretty_N_go_step by lia. rewrite IH by (apply N.div_lt; lia).
  cbn [parse_digits]. rewrite digit_value_pretty by (apply N.mod_lt; lia).
  f_equal. pose proof (N.div_mod x 10). lia.
Qed.

Lemma parse_digits_pretty_pos (p : positive) :
  ∃ (c : ascii) (s : string),
    pretty (N.pos p) = String c s
    ∧ Ascii.eqb c "-" = false
    ∧ parse_digits (String c s) 0 = Some (N.pos p).
Proof.
  unfold pretty, pretty_N. rewrite decide_False by done.
  pose proof (parse_digits_pretty_go (N.pos p) "") as Hp. cbn [parse_digits] in Hp.
  destruct (pretty_N_go (N.pos p) "") as [|c s]; [done|].
  exists c, s. split; [done|]. split; [|done].
  destruct (Ascii.eqb_spec c "-") as [->|]; [done|done].
Qed.

Lemma parse_decimal_pretty (z : Z) : parse_decimal (pretty z) = Some z.
Proof.
  destruct z as [|p|p]; unfold pretty, pretty_Z; [done|..].
  - destruct (parse_digits_pretty_pos p) as (c & s & Heq & Hc & Hp).
    change (pretty p) with (pretty (N.pos p)). rewrite Heq.
    unfold parse_decimal. by rewrite Hc, Hp.
  - destruct (parse_digits_pretty_pos p) as (c & s & Heq & Hc & Hp).
    change (pretty p) with (pretty (N.pos p)). rewrite Heq.
    rewrite string_app_cons, string_app_nil_l.
    unfold parse_decimal. cbn [Ascii.eqb Bool.eqb]. by rewrite Hp.
Qed.

Lemma split_colon_app (t id : string) :
  has_colon t = false → split_colon (t +:+ ":" +:+ id) = Some (t, id).
Proof.
  induction t as [|c t IH]; intros Ht.
  - by rewrite string_app_nil_l, string_app_cons, string_app_nil_l.
  - simpl in Ht. apply orb_false_iff in Ht as [Hc Ht].
    apply bool_decide_eq_false in Hc.
    rewrite string_app_cons. cbn [split_colon].
    destruct (Ascii.eqb_spec c ":") as [->|_]; [done|].
    by rewrite (IH Ht).
Qed.

Lemma parse_username_pretty (z : Z) (id : string) :
  parse_username (pretty z +:+ ":" +:+ id) = Some (z, id).
Proof.
  unfold parse_username.
  rewrite split_colon_app by apply pretty_Z_no_colon.
  by rewrite parse_decimal_pretty.
Qed.

Lemma be_bytes_length (n : nat) (x : N) : length (crypto.be_bytes n x) = n.
Proof. induction n as [|n IH]; simpl; [done|]. by rewrite IH. Qed.

Lemma sha1_length (msg : list N) : length (crypto.sha1 msg) = 20%nat.
Proof.
  unfold crypto.sha1.
  destruct (crypto.sha1_blocks _ _ _) as [a b c d e].
  by rewrite !length_app, !be_bytes_length.
Qed.

Lemma zip_with_replicate_r {A B C} (f : A → B → C) (l : list A) (b : B) :
  zip_with f l (replicate (length l) b) = (fun a => f a b) <$> l.
Proof. induction l as [|a l IH]; simpl; [done|]. by rewrite IH. Qed.

(** The keyed hash of the Go library is the HMAC of RFC 2104 over SHA-1. *)
Lemma hmac_sha1_rfc2104 (key msg : list N) :
  crypto.hmac_sha1 key msg = rfc2104_hmac crypto.sha1 64 key msg.
Proof.
  unfold crypto.hmac_sha1, rfc2104_hmac.
  set (key0 := if (64 <? length key)%nat then crypto.sha1 key else key).
  set (key1 := key0 ++ replicate (64 - length key0)%nat 0).
  assert (Hlen : length key1 = 64%nat).
  { unfold key1, key0. rewrite length_app, length_replicate.
    destruct (Nat.ltb_spec 64 (length key)); [rewrite sha1_length|]; lia. }
  rewrite <- Hlen at 1 2. by rewrite !zip_with_replicate_r.
Qed.

Lemma base64_length_upto (n : nat) :
  ∀ bs : list N,
    (length bs ≤ n)%nat →
    String.length (crypto.base64_StdEncoding bs)
    = (4 * ((length bs + 2) / 3))%nat.
Proof.
  induction (lt_wf n) as [n _ IH]. intros bs Hn.
  destruct bs as [|b0 [|b1 [|b2 rest]]]; [done..|].
  cbn [crypto.base64_StdEncoding String.length length].
  rewrite (IH (length rest)) by (simpl in Hn; lia).
  replace (S (S (S (length rest))) + 2)%nat with (length rest + 2 + 1 * 3)%nat
    by lia.
  rewrite Nat.div_add by lia. lia.
Qed.

Lemma base64_length (bs : list N) :
  String.length (crypto.base64_StdEncoding bs)
  = (4 * ((length bs + 2) / 3))%nat.
Proof. by apply (base64_length_upto (length bs)). Qed.

(** C5.  For every id, shared secret, address and reading of the clock, the
    external issuer returns the username "<expiry>:<id>", where the expiry
    is the clock plus the time to live, in whole seconds since the epoch; a
    relay that splits the username at its first colon and reads the number
    finds that expiry and that id, whatever the id contains.  The password
    is what the relay computes from the returned username and the shared
    secret: the base64 text, always 28 characters, of the HMAC, built as
    RFC 2104 words it, over SHA-1.  For the secret "s3cr3t", the id "abc"
    and the clock at 1700000000 seconds the credential is
    "1700086400:abc" with the password "C2gkRwmvCu0DCGZ5v+NzhDBggFA=",
    the value other implementations of HMAC-SHA1 and base64 give. *)
Theorem external_credentials_round_trip
    (a : turn.ExternalServer) (id : string) (addr : IP) (now : Z) :
  let credential := turn.ExternalServer_Credentials a id addr now in
  let expiry := ((now + turn.ttl a) `div` 1000000000)%Z in
  credential.1 = pretty expiry +:+ ":" +:+ id
  ∧ parse_username credential.1 = Some (expiry, id)
  ∧ credential.2 = relay_signature (turn.secret a) credential.1
  ∧ String.length credential.2 = 28%nat
  ∧ turn.ExternalServer_Credentials example_external_issuer "abc" addr
      (1700000000 * 1000000000)%Z
    = ("1700086400:abc", "C2gkRwmvCu0DCGZ5v+NzhDBggFA=")
  ∧ relay_signature (crypto.bytes_of_string "s3cr3t") "1700086400:abc"
    = "C2gkRwmvCu0DCGZ5v+NzhDBggFA=".
Proof.
  intros credential expiry.
  assert (Hname : credential.1 = pretty expiry +:+ ":" +:+ id) by reflexivity.
  split; [exact Hname|]. split_and!.
  - rewrite Hname. apply parse_username_pretty.
  - unfold credential, turn.ExternalServer_Credentials, relay_signature.
    cbn [fst snd]. by rewrite hmac_sha1_rfc2104.
  - unfold credential, turn.ExternalServer_Credentials. cbn [snd].
    rewrite base64_length. unfold crypto.hmac_sha1. by rewrite sha1_length.
  - vm_compute. reflexivity.
  - vm_compute. reflexivity.
Qed.
